(** * viewview.py: the stream viewer, embedded and verified

    The script drives a browser (SeleniumBase) to a stream page, checks
    liveness over HTTP (requests) and retries fallible operations
    (tenacity).  The embedding below follows [src/viewview.py] function by
    function.  Python's exceptions, the mutable [StreamViewer] object and
    the outside world (HTTP, browser, clock, log) are made explicit:

    - a computation is a function from a [state] to an [outcome]: it
      returns a value, raises an exception, or (only for the polling loop,
      which Python runs unboundedly) runs out of fuel;
    - every call into requests or SeleniumBase is a [call], answered by an
      environment that may return a value or raise; the call is appended to
      the [trace] of the state, as are log records and the naps tenacity
      takes between attempts;
    - the entry of each function of the script is recorded in the trace by
      an [Enter] marker, so that "how many times was it invoked" is a
      property of the trace.

    Three libraries stand behind the script.  SeleniumBase and the network
    are opaque: the environment decides what each call answers, and any
    call may raise.  That holds for leaving the [with SB(...)] block too:
    the context manager is told what the block raised and decides whether
    the exception goes on or is suppressed, as Python's [with] statement
    has it (in its test mode [SB] suppresses the failures of the block
    unless it is asked to raise them).  Of requests the script relies on
    [Response.raise_for_status], which raises HTTPError on the statuses 400
    to 599, and on [RequestException] being the base class of what a
    request raises.  Of tenacity (version 8 and later) it relies on
    [retry], [stop_after_attempt] and [wait_exponential], which are
    written out below as the library defines them.  Of the standard
    library, [time.sleep] refuses a negative duration and one of 2^63
    nanoseconds or more, and [urllib.parse.urljoin] raises on a base it
    cannot parse.  Logging does not fail. *)

From Stdlib Require Import ZArith String Ascii List Bool Lia DecimalString.
From Equations Require Import Equations.
Import ListNotations.

Local Open Scope Z_scope.
Local Open Scope string_scope.

(** ** Exceptions *)

(** The exception classes the script distinguishes.  [cls] is the name of
    the concrete class, [msg] the text [str(e)] yields. *)
Inductive exn : Type :=
| BaseException (cls msg : string)
    (* KeyboardInterrupt, SystemExit, ...: not instances of Exception *)
| Exception (cls msg : string)
    (* an instance of Exception of no class named below *)
| RequestException (cls msg : string)
    (* requests.exceptions.RequestException and its subclasses
       (ConnectionError, Timeout, HTTPError, ...) *)
| StreamViewerException (msg : string)
    (* viewview.py line 39 *)
| RetryError (future_addr : string) (attempt_number : Z) (last : exn).
    (* tenacity.RetryError(last_attempt): the Future of the last attempt,
       with its attempt number and the exception it holds *)

Definition class_name (e : exn) : string :=
  match e with
  | BaseException cls _ | Exception cls _ | RequestException cls _ => cls
  | StreamViewerException _ => "StreamViewerException"
  | RetryError _ _ _ => "RetryError"
  end.

(** [str(e)].  tenacity prints a RetryError as
    [RetryError[<Future at 0x... state=finished raised Cls>]]. *)
Definition str (e : exn) : string :=
  match e with
  | BaseException _ msg | Exception _ msg | RequestException _ msg => msg
  | StreamViewerException msg => msg
  | RetryError addr _ last =>
      "RetryError[<Future at " ++ addr ++ " state=finished raised "
        ++ class_name last ++ ">]"
  end.

(** [isinstance(e, Exception)] *)
Definition is_Exception (e : exn) : bool :=
  match e with BaseException _ _ => false | _ => true end.

(** [isinstance(e, RequestException)] *)
Definition is_RequestException (e : exn) : bool :=
  match e with RequestException _ _ => true | _ => false end.

(** [isinstance(e, StreamViewerException)] *)
Definition is_StreamViewerException (e : exn) : bool :=
  match e with StreamViewerException _ => true | _ => false end.

(** ** Strings *)

(** [str(n)] for a Python int. *)
Definition str_int (n : Z) : string := NilZero.string_of_int (Z.to_int n).

(** [needle in haystack] for Python strings. *)
Fixpoint str_in (needle haystack : string) : bool :=
  if String.prefix needle haystack then true
  else match haystack with
       | EmptyString => false
       | String _ rest => str_in needle rest
       end.

(** ** Configuration records (lines 21-37) *)

Record StreamPlatformConfig : Type := {
  platform : string;          (* Literal["twitch", "kick"] *)
  base_url : string;
  username : string }.

Record TwitchConfig : Type := {
  client_id : string;
  live_indicator : string }.

(** [TwitchConfig()] with the dataclass defaults of lines 36-37. *)
Definition TwitchConfig_default : TwitchConfig :=
  {| client_id := "kimne78kx3ncx6brgo4mv6wki5h1ko";
     live_indicator := "isLiveBroadcast" |}.

(** ** The outside world *)

(** What [requests.get] returns, as far as the script reads it. *)
Record Response : Type := {
  status_code : Z;
  reason : string;
  url : string;
  text : string }.

(** A browser object: the [SB] instance or a driver it created. *)
Definition handle : Type := nat.

(** The calls the script makes into requests and SeleniumBase, indexed by
    the type of what they return. *)
Inductive call : Type -> Type :=
| requests_get (target : string) (headers : list (string * string))
    (timeout : Z) : call Response
| SB (uc test : bool) : call handle            (* entering [with SB(...)] *)
| SB_exit (sb : handle) (raised : option exn) : call bool
    (* leaving the [with] block: [raised] is what the block raised, the
       answer says whether that exception is suppressed *)
| sleep (b : handle) (seconds : Z) : call unit
| uc_gui_click_captcha (b : handle) : call unit
| uc_gui_handle_captcha (b : handle) : call unit
| is_element_present (b : handle) (selector : string) : call bool
| uc_click (b : handle) (selector : string) (reconnect_time : Z) : call unit
| uc_open_with_reconnect (b : handle) (target : string)
    (reconnect_time : Z) : call unit
| is_element_visible (b : handle) (selector : string) : call bool
| get_new_driver (b : handle) (undetectable : bool) : call handle
| quit_extra_driver (b : handle) : call unit.

(** What is observable of a run, in order. *)
Inductive event : Type :=
| Call {R : Type} (c : call R)          (* a call into requests / SeleniumBase *)
| Log (level msg : string)              (* logger.info / logger.error *)
| TimeSleep (seconds : Z)               (* time.sleep, by tenacity *)
| Enter (function : string).            (* a function of the script is entered *)

(** The libraries and the world behind them.  [respond] answers a call in
    a world and gives the next world; [nap] lets time pass; [future_addr]
    is the address tenacity prints for the Future of the last attempt;
    [urljoin] is [urllib.parse.urljoin], a function of its two arguments
    alone that raises (ValueError) on a base it cannot parse. *)
Record Env (W : Type) : Type := {
  respond : forall R : Type, call R -> W -> (R + exn) * W;
  nap : Z -> W -> W;
  future_addr_of : W -> string;
  urljoin : string -> string -> string + exn }.

Arguments respond {W} _ {R} _ _.
Arguments nap {W} _ _ _.
Arguments future_addr_of {W} _ _.
Arguments urljoin {W} _ _ _.

(** The [StreamViewer] object (lines 63-65). *)
Record StreamViewer : Type := {
  browser : option handle;
  secondary_browser : option handle }.

(** [StreamViewer()] *)
Definition StreamViewer_init : StreamViewer :=
  {| browser := None; secondary_browser := None |}.

Record state (W : Type) : Type := {
  world : W;
  self : StreamViewer;
  trace : list event }.

Arguments world {W} _.
Arguments self {W} _.
Arguments trace {W} _.

(** ** Computations *)

Inductive outcome (W A : Type) : Type :=
| Returns (v : A) (s : state W)
| Raises (e : exn) (s : state W)
| Diverges.

Arguments Returns {W A} _ _.
Arguments Raises {W A} _ _.
Arguments Diverges {W A}.

Definition M (W A : Type) : Type := state W -> outcome W A.

Definition ret {W A} (v : A) : M W A := fun s => Returns v s.

Definition raise {W A} (e : exn) : M W A := fun s => Raises e s.

Definition bind {W A B} (m : M W A) (k : A -> M W B) : M W B :=
  fun s =>
    match m s with
    | Returns v s1 => k v s1
    | Raises e s1 => Raises e s1
    | Diverges => Diverges
    end.

Notation "x <- m ;; k" := (bind m (fun x => k))
  (at level 61, m at next level, right associativity).
Notation "m ;; k" := (bind m (fun _ => k))
  (at level 61, right associativity).

(** [try: m  except <catches> as e: handler e] *)
Definition try_except {W A} (m : M W A) (catches : exn -> bool)
    (handler : exn -> M W A) : M W A :=
  fun s =>
    match m s with
    | Raises e s1 => if catches e then handler e s1 else Raises e s1
    | o => o
    end.

(** [try: m  finally: fin].  The finally block runs on both ways out; an
    exception it raises replaces what [m] produced. *)
Definition try_finally {W A} (m : M W A) (fin : M W unit) : M W A :=
  fun s =>
    match m s with
    | Returns v s1 =>
        match fin s1 with
        | Returns _ s2 => Returns v s2
        | Raises e s2 => Raises e s2
        | Diverges => Diverges
        end
    | Raises e s1 =>
        match fin s1 with
        | Returns _ s2 => Raises e s2
        | Raises e' s2 => Raises e' s2
        | Diverges => Diverges
        end
    | Diverges => Diverges
    end.

(** [with <manager>: body], once the manager has been entered.  On the
    way out [exit] is told what the body raised, if it raised: when the
    body returned, what [exit] answers is ignored; when the body raised
    and [exit] answers true, the exception is suppressed and the statement
    ends normally, when it answers false the exception goes on; and an
    exception of [exit] itself replaces what the body produced. *)
Definition with_statement {W} (exit : option exn -> M W bool)
    (body : M W unit) : M W unit :=
  fun s =>
    match body s with
    | Returns _ s1 =>
        match exit None s1 with
        | Returns _ s2 => Returns tt s2
        | Raises e s2 => Raises e s2
        | Diverges => Diverges
        end
    | Raises e s1 =>
        match exit (Some e) s1 with
        | Returns suppressed s2 =>
            if suppressed then Returns tt s2 else Raises e s2
        | Raises e' s2 => Raises e' s2
        | Diverges => Diverges
        end
    | Diverges => Diverges
    end.

Definition observe {W} (ev : event) (s : state W) : state W :=
  {| world := world s; self := self s; trace := (trace s ++ [ev])%list |}.

Definition emit {W} (ev : event) : M W unit := fun s => Returns tt (observe ev s).

Definition logger_info {W} (msg : string) : M W unit := emit (Log "INFO" msg).
Definition logger_error {W} (msg : string) : M W unit := emit (Log "ERROR" msg).

(** The body of a [def]: its entry is recorded, then it runs. *)
Definition def {W A} (name : string) (body : M W A) : M W A :=
  emit (Enter name) ;; body.

Definition get_self {W} : M W StreamViewer := fun s => Returns (self s) s.

Definition set_self {W} (v : StreamViewer) : M W unit :=
  fun s => Returns tt {| world := world s; self := v; trace := trace s |}.

(** Reading [self.browser] to call a method on it: on [None] Python raises
    AttributeError. *)
Definition self_browser {W} (method : string) : M W handle :=
  v <- get_self ;;
  match browser v with
  | Some b => ret b
  | None =>
      raise (Exception "AttributeError"
               ("'NoneType' object has no attribute '" ++ method ++ "'"))
  end.

(** ** The script over an environment *)

Section Viewer.

Variable W : Type.
Variable env : Env W.

(** A call into a library: recorded, then answered by the environment. *)
Definition extern {R} (c : call R) : M W R :=
  fun s =>
    let (answer, w) := respond env c (world s) in
    let s1 := {| world := w; self := self s;
                 trace := (trace s ++ [Call c])%list |} in
    match answer with
    | inl v => Returns v s1
    | inr e => Raises e s1
    end.

(** The state after a nap of [seconds]. *)
Definition napped (seconds : Z) (s : state W) : state W :=
  {| world := nap env seconds (world s); self := self s;
     trace := (trace s ++ [TimeSleep seconds])%list |}.

(** What [time.sleep] answers to a duration it does not take: ValueError to
    a negative one, OverflowError to one that does not fit the 63 bits in
    which CPython counts its nanoseconds. *)
Definition sleep_refusal (seconds : Z) : option exn :=
  if (seconds <? 0)%Z then
    Some (Exception "ValueError" "sleep length must be non-negative")
  else if (2 ^ 63 <=? seconds * 10 ^ 9)%Z then
    Some (Exception "OverflowError"
            "timestamp too large to convert to C _PyTime_t")
  else None.

(** [time.sleep(seconds)]: the nap is taken, or refused before any time
    passes. *)
Definition time_sleep (seconds : Z) : M W unit :=
  fun s =>
    match sleep_refusal seconds with
    | Some e => Raises e s
    | None => Returns tt (napped seconds s)
    end.

(** *** tenacity: [stop_after_attempt], [wait_exponential], [retry] *)

(** [stop_after_attempt(max_attempt_number)]: stop once
    [retry_state.attempt_number >= max_attempt_number]. *)
Definition stop_after_attempt (max_attempt_number attempt_number : Z) :
    {attempt_number >= max_attempt_number} +
    {~ attempt_number >= max_attempt_number} :=
  Z_ge_dec attempt_number max_attempt_number.

(** tenacity's [MAX_WAIT = sys.maxsize / 2], the default of
    [wait_exponential]'s [max]: on a 64-bit CPython the float 2^62. *)
Definition MAX_WAIT : Z := 2 ^ 62.

(** [wait_exponential(multiplier, max, exp_base, min)], called on the state
    of the attempt that just failed:
    [exp = exp_base ** (attempt_number - 1); result = multiplier * exp;
     return max(max(0, min), min(result, max))]. *)
Definition wait_exponential (multiplier max_wait exp_base min_wait : Z)
    (attempt_number : Z) : Z :=
  let exp := exp_base ^ (attempt_number - 1) in
  let result := multiplier * exp in
  Z.max (Z.max 0 min_wait) (Z.min result max_wait).

(** The loop of [Retrying.__call__] for [retry(stop=stop_after_attempt(n),
    wait=w)] with tenacity's other defaults: retry on any [Exception]
    ([retry_if_exception_type()]), [reraise=False], so that exhaustion
    raises [RetryError] around the last attempt; an exception that is not
    an [Exception] is re-raised as it is.  Between two attempts the loop
    calls [time.sleep] on what [wait] gives; that call stands outside the
    guard around the attempt, so that an exception of [time.sleep] ends
    the loop and reaches the caller as it is.  (tenacity hands the
    duration over as a float: a whole number of seconds that [time.sleep]
    takes is below 2^53 and is that float exactly, see
    [sleep_refusal_exact], and one of 2^53 or more is refused as a float
    as it is here.) *)
Equations? Retrying {A} (max_attempt_number : Z) (wait : Z -> Z)
    (fn : M W A) (attempt_number : Z) (s : state W) : outcome W A
    by wf (Z.to_nat (max_attempt_number - attempt_number)) lt :=
  Retrying mx wait fn n s with fn s => {
    | Returns v s1 := Returns v s1;
    | Diverges := Diverges;
    | Raises e s1 with is_Exception e => {
        | false := Raises e s1;
        | true with stop_after_attempt mx n => {
            | left _ :=
                Raises (RetryError (future_addr_of env (world s1)) n e) s1;
            | right _ with time_sleep (wait n) s1 => {
                | Returns _ s2 := Retrying mx wait fn (n + 1) s2;
                | Raises e2 s2 := Raises e2 s2;
                | Diverges := Diverges } } } }.
Proof. lia. Qed.

(** [retry(stop=stop_after_attempt(n), wait=w)(fn)]: attempts are numbered
    from 1. *)
Definition retry {A} (max_attempt_number : Z) (wait : Z -> Z) (fn : M W A) :
    M W A :=
  fun s => Retrying max_attempt_number wait fn 1 s.

(** *** [retry_on_exception] (lines 43-58) *)

(** The delay [retry_on_exception(_, wait_seconds)] asks tenacity for:
    [wait_exponential(multiplier=wait_seconds, min=wait_seconds)], for a
    base of a whole number of seconds.  ([wait_exponential] keeps [min] as
    a float.  That changes no nap that [time.sleep] takes: a base below
    2^53 is a float exactly, and from 2^53 on every nap is refused, as a
    float as well as here.  For a whole number beyond the range of floats
    the conversion raises when the decorator is built, and there is no
    decorated function to speak of.) *)
Definition retry_wait (wait_seconds : Z) : Z -> Z :=
  wait_exponential wait_seconds MAX_WAIT 2 wait_seconds.

(** Lines 51-56: the function tenacity retries.  It calls [func], and turns
    any [Exception] into a logged [StreamViewerException]. *)
Definition wrapper {A} (max_attempts : Z) (func_name : string)
    (func : M W A) : M W A :=
  try_except (def func_name func) is_Exception
    (fun e =>
       logger_error ("Error in " ++ func_name ++ ": " ++ str e) ;;
       raise (StreamViewerException
                ("Failed after " ++ str_int max_attempts ++ " attempts: "
                   ++ str e))).

Definition retry_on_exception {A} (max_attempts wait_seconds : Z)
    (func_name : string) (func : M W A) : M W A :=
  retry max_attempts (retry_wait wait_seconds)
    (wrapper max_attempts func_name func).

(** *** [StreamViewer] (lines 60-152) *)

(** [response.raise_for_status()] of requests: HTTPError on 4xx and 5xx. *)
Definition raise_for_status (response : Response) : M W unit :=
  let code := status_code response in
  if ((400 <=? code) && (code <? 500))%Z then
    raise (RequestException "HTTPError"
             (str_int code ++ " Client Error: " ++ reason response
                ++ " for url: " ++ url response))
  else if ((500 <=? code) && (code <? 600))%Z then
    raise (RequestException "HTTPError"
             (str_int code ++ " Server Error: " ++ reason response
                ++ " for url: " ++ url response))
  else ret tt.

(** Lines 79-88, the function under the decorator. *)
Definition check_twitch_stream_body (username : string)
    (twitch_config : TwitchConfig) : M W bool :=
  let target := "https://www.twitch.tv/" ++ username in
  let headers := [("Client-ID", client_id twitch_config)] in
  try_except
    (response <- extern (requests_get target headers 10) ;;
     raise_for_status response ;;
     ret (str_in (live_indicator twitch_config) (text response)))
    is_RequestException
    (fun e =>
       logger_error ("Failed to check Twitch stream status: " ++ str e) ;;
       ret false).

(** Lines 67-68: [@retry_on_exception()] with its defaults 3 and 2. *)
Definition check_twitch_stream (username : string)
    (twitch_config : TwitchConfig) : M W bool :=
  retry_on_exception 3 2 "check_twitch_stream"
    (check_twitch_stream_body username twitch_config).

(** The selector [button:contains("Accept")] of lines 97-98. *)
Definition accept_button : string :=
  "button:contains(" ++ String "034"%char "Accept" ++ String "034"%char ")".

(** The selector of the player element (lines 130 and 133). *)
Definition channel_player : string := "#injected-channel-player".

(** [platform_config.stream_url] (lines 28-31): a property, computed at
    each access, that raises what [urljoin] raises. *)
Definition stream_url (platform_config : StreamPlatformConfig) : M W string :=
  match urljoin env (base_url platform_config) (username platform_config) with
  | inl joined => ret joined
  | inr e => raise e
  end.

Definition set_browser (b : option handle) : M W unit :=
  v <- get_self ;;
  set_self {| browser := b; secondary_browser := secondary_browser v |}.

Definition set_secondary_browser (b : option handle) : M W unit :=
  v <- get_self ;;
  set_self {| browser := browser v; secondary_browser := b |}.

(** Lines 90-98. *)
Definition handle_captcha_and_consent (b : handle) (reconnect_time : Z) :
    M W unit :=
  def "handle_captcha_and_consent"
    (extern (sleep b 1) ;;
     extern (uc_gui_click_captcha b) ;;
     extern (uc_gui_handle_captcha b) ;;
     extern (sleep b reconnect_time) ;;
     present <- extern (is_element_present b accept_button) ;;
     if present then extern (uc_click b accept_button reconnect_time)
     else ret tt).

(** Lines 123-126. *)
Definition _initialize_stream_viewing (platform_config : StreamPlatformConfig) :
    M W unit :=
  def "_initialize_stream_viewing"
    (b <- self_browser "uc_open_with_reconnect" ;;
     target <- stream_url platform_config ;;
     extern (uc_open_with_reconnect b target 4) ;;
     b <- self_browser "sleep" ;;
     handle_captcha_and_consent b 4).

(** Lines 142-146. *)
Definition _setup_secondary_viewer (platform_config : StreamPlatformConfig) :
    M W unit :=
  def "_setup_secondary_viewer"
    (b <- self_browser "get_new_driver" ;;
     d <- extern (get_new_driver b true) ;;
     set_secondary_browser (Some d) ;;
     target <- stream_url platform_config ;;
     extern (uc_open_with_reconnect d target 5) ;;
     handle_captcha_and_consent d 4).

(** Lines 133-134: [while self.browser.is_element_visible(...):
    self.browser.sleep(10)].  Python puts no bound on the loop; [fuel]
    bounds the number of tests of the condition, and [Diverges] is what
    remains when it is used up. *)
Fixpoint while_player_visible (fuel : nat) : M W unit :=
  match fuel with
  | O => fun _ => Diverges
  | S fuel' =>
      b <- self_browser "is_element_visible" ;;
      visible <- extern (is_element_visible b channel_player) ;;
      if visible then
        b <- self_browser "sleep" ;;
        extern (sleep b 10) ;;
        while_player_visible fuel'
      else ret tt
  end.

(** Lines 128-134. *)
Definition _watch_kick_stream (fuel : nat)
    (platform_config : StreamPlatformConfig) : M W unit :=
  def "_watch_kick_stream"
    (b <- self_browser "is_element_visible" ;;
     visible <- extern (is_element_visible b channel_player) ;;
     if visible then
       _setup_secondary_viewer platform_config ;;
       while_player_visible fuel
     else ret tt).

(** Lines 136-140. *)
Definition _watch_twitch_stream (platform_config : StreamPlatformConfig) :
    M W unit :=
  def "_watch_twitch_stream"
    (let twitch_config := TwitchConfig_default in
     live <- check_twitch_stream (username platform_config) twitch_config ;;
     if live then _setup_secondary_viewer platform_config else ret tt).

(** Lines 148-152. *)
Definition _cleanup : M W unit :=
  def "_cleanup"
    (v <- get_self ;;
     match secondary_browser v with
     | Some _ =>
         b <- self_browser "quit_extra_driver" ;;
         extern (quit_extra_driver b) ;;
         set_secondary_browser None
     | None => ret tt
     end).

(** [with SB(uc=True, test=True) as self.browser: body]: the context
    manager is entered, its value bound to [self.browser], and it is left
    on both ways out of the body.  Leaving may itself raise (a failed
    teardown), and it may suppress an exception of the body. *)
Definition with_SB (uc test : bool) (body : M W unit) : M W unit :=
  sb <- extern (SB uc test) ;;
  set_browser (Some sb) ;;
  with_statement (fun raised => extern (SB_exit sb raised)) body.

(** Lines 107-119: the [try] block of [watch_stream] with its [except]
    clause. *)
Definition watch_stream_try (fuel : nat)
    (platform_config : StreamPlatformConfig) : M W unit :=
  try_except
    (with_SB true true
       (logger_info ("Attempting to watch stream on "
                       ++ platform platform_config) ;;
        _initialize_stream_viewing platform_config ;;
        if platform platform_config =? "kick" then
          _watch_kick_stream fuel platform_config
        else if platform platform_config =? "twitch" then
          _watch_twitch_stream platform_config
        else ret tt))
    is_Exception
    (fun e =>
       logger_error ("Error during stream viewing: " ++ str e) ;;
       raise e).

(** Lines 100-121: the [try] block, and [_cleanup] in its [finally]. *)
Definition watch_stream (fuel : nat) (platform_config : StreamPlatformConfig) :
    M W unit :=
  def "watch_stream"
    (try_finally (watch_stream_try fuel platform_config) _cleanup).

Definition kick_config : StreamPlatformConfig :=
  {| platform := "kick"; base_url := "https://kick.com/";
     username := "brutalles" |}.

Definition twitch_config : StreamPlatformConfig :=
  {| platform := "twitch"; base_url := "https://www.twitch.tv/";
     username := "brutalles" |}.

(** Lines 172-178: the [try] block of [main]. *)
Definition main_try (fuel : nat) : M W unit :=
  watch_stream fuel kick_config ;;
  let twitch_checker := TwitchConfig_default in
  live <- check_twitch_stream (username twitch_config) twitch_checker ;;
  if live then watch_stream fuel twitch_config else ret tt.

(** Lines 154-181. *)
Definition main (fuel : nat) : M W unit :=
  def "main"
    (set_self StreamViewer_init ;;
     try_except (main_try fuel) is_StreamViewerException
       (fun e => logger_error ("Stream viewing failed: " ++ str e))).

End Viewer.

Arguments extern {W} env {R} c s.
Arguments napped {W} env seconds s.
Arguments time_sleep {W} env seconds s.
Arguments Retrying {W} env {A} max_attempt_number wait fn attempt_number s.
Arguments retry {W} env {A} max_attempt_number wait fn s.
Arguments wrapper {W A} max_attempts func_name func s.
Arguments retry_on_exception {W} env {A} max_attempts wait_seconds func_name func s.
Arguments raise_for_status {W} response s.
Arguments check_twitch_stream_body {W} env username twitch_config s.
Arguments check_twitch_stream {W} env username twitch_config s.
Arguments stream_url {W} env platform_config s.
Arguments set_browser {W} b s.
Arguments set_secondary_browser {W} b s.
Arguments handle_captcha_and_consent {W} env b reconnect_time s.
Arguments _initialize_stream_viewing {W} env platform_config s.
Arguments _setup_secondary_viewer {W} env platform_config s.
Arguments while_player_visible {W} env fuel s.
Arguments _watch_kick_stream {W} env fuel platform_config s.
Arguments _watch_twitch_stream {W} env platform_config s.
Arguments _cleanup {W} env s.
Arguments with_SB {W} env uc test body s.
Arguments watch_stream_try {W} env fuel platform_config s.
Arguments watch_stream {W} env fuel platform_config s.
Arguments main_try {W} env fuel s.
Arguments main {W} env fuel s.

(** ** Reading a trace *)

Definition is_enter (name : string) (ev : event) : bool :=
  match ev with Enter f => f =? name | _ => false end.

(** How many times the function [name] was entered. *)
Definition entries (name : string) (tr : list event) : nat :=
  length (filter (is_enter name) tr).

(** The naps tenacity took, in order. *)
Definition naps (tr : list event) : list Z :=
  flat_map (fun ev => match ev with TimeSleep d => [d] | _ => [] end) tr.

(** The state a computation ends in, when it ends. *)
Definition final {W A} (o : outcome W A) : option (state W) :=
  match o with
  | Returns _ s | Raises _ s => Some s
  | Diverges => None
  end.

(** [needle] occurs somewhere in [haystack]. *)
Definition occurs_in (needle haystack : string) : Prop :=
  exists before after, haystack = before ++ needle ++ after.

(** [raise_for_status] raises on this response. *)
Definition is_http_error (response : Response) : bool :=
  ((400 <=? status_code response) && (status_code response <? 600))%Z.

(** ** Scripted environments

    A world that only counts the calls answered so far; what it answers is
    fixed by a script.  They serve as concrete inputs.  Their [urljoin]
    appends the name to the base, which is what [urllib.parse.urljoin]
    does for a base that ends in a slash and a plain name.  Their [SB]
    leaves the [with] block as it does in test mode: an [Exception] of
    the block is suppressed, any other exception goes on. *)

(** What [SB] in test mode answers on the way out of the block. *)
Definition suppressed_in_test_mode (raised : option exn) : bool :=
  match raised with
  | Some e => is_Exception e
  | None => false
  end.

Record Script : Type := {
  http : Response + exn;            (* the answer of requests.get *)
  visible_for : nat;                (* the player is visible while the clock
                                       is below this value *)
  accept_present : bool;            (* is the Accept button in the page *)
  quit_extra : unit + exn }.        (* the answer of quit_extra_driver *)

Definition scripted_answer (sc : Script) (R : Type) (c : call R) (clock : nat) :
    R + exn :=
  match c in call T return T + exn with
  | requests_get _ _ _ => http sc
  | SB _ _ => inl 1%nat
  | SB_exit _ raised => inl (suppressed_in_test_mode raised)
  | sleep _ _ => inl tt
  | uc_gui_click_captcha _ => inl tt
  | uc_gui_handle_captcha _ => inl tt
  | is_element_present _ _ => inl (accept_present sc)
  | uc_click _ _ _ => inl tt
  | uc_open_with_reconnect _ _ _ => inl tt
  | is_element_visible _ _ => inl (Nat.ltb clock (visible_for sc))
  | get_new_driver _ _ => inl 2%nat
  | quit_extra_driver _ => quit_extra sc
  end.

Definition scripted (sc : Script) : Env nat :=
  {| respond := fun R c clock => (scripted_answer sc R c clock, S clock);
     nap := fun _ clock => clock;
     future_addr_of := fun _ => "0x7f3a5c0d2e50";
     urljoin := fun base name => inl (base ++ name) |}.

Definition start : state nat :=
  {| world := O; self := StreamViewer_init; trace := [] |}.

Definition live_page : Response :=
  {| status_code := 200; reason := "OK";
     url := "https://www.twitch.tv/brutalles";
     text := "<script>{isLiveBroadcast:true}</script>" |}.

Definition offline_page : Response :=
  {| status_code := 200; reason := "OK";
     url := "https://www.twitch.tv/brutalles";
     text := "<title>brutalles - Twitch</title>" |}.

Definition multiple_choices_page : Response :=
  {| status_code := 300; reason := "Multiple Choices";
     url := "https://www.twitch.tv/brutalles";
     text := "<script>{isLiveBroadcast:true}</script>" |}.

Definition not_found_page : Response :=
  {| status_code := 404; reason := "Not Found";
     url := "https://www.twitch.tv/brutalles";
     text := "<script>{isLiveBroadcast:true}</script>" |}.

(** The stream is live and stays visible for the first [n] ticks of the
    clock; every browser call succeeds. *)
Definition live_for (n : nat) : Script :=
  {| http := inl live_page; visible_for := n; accept_present := true;
     quit_extra := inl tt |}.

(** As [live_for], but closing the extra driver fails. *)
Definition quit_fails (n : nat) : Script :=
  {| http := inl live_page; visible_for := n; accept_present := false;
     quit_extra := inr (Exception "WebDriverException" "invalid session id") |}.

(** The HTTP answer is [r]; the player is never visible. *)
Definition answering (r : Response + exn) : Script :=
  {| http := r; visible_for := 0; accept_present := false;
     quit_extra := inl tt |}.

(** An operation that fails on every invocation, leaving the state as it
    is. *)
Definition always_boom {W} : M W unit :=
  raise (Exception "TimeoutException" "boom").

(** * The vocabulary of the properties *)

(** ** States and runs *)

(** The state after the environment answered the call [c] with world [w]. *)
Definition answered {W R} (c : call R) (w : W) (s : state W) : state W :=
  {| world := w; self := self s; trace := (trace s ++ [Call c])%list |}.

(** The state with the viewer object replaced. *)
Definition with_self {W} (v : StreamViewer) (s : state W) : state W :=
  {| world := world s; self := v; trace := trace s |}.

(** [respects D R m]: whenever [m] ends, by returning or by raising, the
    state it ends in is related by [R] to the state it started in; [D] is
    what is known when it does not end.  With [D := True] this bounds what
    a run can do; with [D := False] it says moreover that the run ends. *)
Definition respects {W A} (D : Prop) (R : state W -> state W -> Prop)
    (m : M W A) : Prop :=
  forall s,
    match m s with
    | Returns _ s' | Raises _ s' => R s s'
    | Diverges => D
    end.

(** The trace only grows, and every event added satisfies [P]. *)
Definition emitting {W} (P : event -> Prop) (s s' : state W) : Prop :=
  exists evs, trace s' = (trace s ++ evs)%list /\ Forall P evs.

(** The run starts by adding [pre] to the trace, and every event it adds
    after that satisfies [P]. *)
Definition begins {W} (pre : list event) (P : event -> Prop)
    (s s' : state W) : Prop :=
  exists evs, trace s' = (trace s ++ pre ++ evs)%list /\ Forall P evs.

(** As [respects False], for the relation [begins pre P]. *)
Definition starts {W A} (P : event -> Prop) (pre : list event) (m : M W A) :
    Prop :=
  forall s,
    match m s with
    | Returns _ s' | Raises _ s' => begins pre P s s'
    | Diverges => False
    end.

(** [m'] does what [m] does, whenever [m] ends. *)
Definition prolongs {W A} (m m' : M W A) : Prop :=
  forall s, m s <> Diverges -> m' s = m s.

(** ** Retrying *)

(** [func] fails with an [Exception] whenever it is invoked, and what it
    adds to the trace is its own: neither an entry of [name] nor a nap. *)
Definition always_fails {W A} (name : string) (func : M W A) : Prop :=
  forall s, exists e s',
    func s = Raises e s' /\ is_Exception e = true /\
    entries name (trace s') = entries name (trace s) /\
    naps (trace s') = naps (trace s).

(** [count] consecutive attempt numbers from [first]. *)
Fixpoint attempt_numbers (first : Z) (count : nat) : list Z :=
  match count with
  | O => []
  | S k => first :: attempt_numbers (first + 1) k
  end.

(** What [wrapper] raises for the underlying error [e]. *)
Definition failed_after (max_attempts : Z) (e : exn) : exn :=
  StreamViewerException
    ("Failed after " ++ str_int max_attempts ++ " attempts: " ++ str e).

(** What [wrapper] logs for the underlying error [e]. *)
Definition error_in (name : string) (e : exn) : event :=
  Log "ERROR" ("Error in " ++ name ++ ": " ++ str e).

(** ** The liveness check *)

(** The request [check_twitch_stream] sends. *)
Definition liveness_request (username : string) (cfg : TwitchConfig) :
    call Response :=
  requests_get ("https://www.twitch.tv/" ++ username)
    [("Client-ID", client_id cfg)] 10.

(** What [check_twitch_stream] logs when it swallows a failure. *)
Definition check_failed (msg : string) : event :=
  Log "ERROR" ("Failed to check Twitch stream status: " ++ msg).

(** An event that, if it is an HTTP request, is the liveness request for
    [username] with the credential of [cfg] and the fixed timeout. *)
Definition only_liveness_request (username : string) (cfg : TwitchConfig)
    (ev : event) : Prop :=
  match ev with
  | Call c =>
      match c with
      | requests_get target headers timeout =>
          target = "https://www.twitch.tv/" ++ username /\
          headers = [("Client-ID", client_id cfg)] /\
          timeout = 10
      | _ => True
      end
  | _ => True
  end.

(** ** Sessions *)

(** An event other than an entry of [_cleanup]. *)
Definition not_cleanup (ev : event) : Prop := is_enter "_cleanup" ev = false.

(** The events of the polling loop of lines 133-134: a visibility test of
    the player, or the ten-unit sleep between two tests. *)
Definition polls (ev : event) : bool :=
  match ev with
  | Call c =>
      match c with
      | is_element_visible _ _ => true
      | sleep _ seconds => (seconds =? 10)%Z
      | _ => false
      end
  | _ => false
  end.

Definition no_poll (ev : event) : Prop := polls ev = false.

(** [self.secondary_browser] is as before or [None], unless
    [_setup_secondary_viewer] was entered in between. *)
Definition set_only_by_setup {W} (s s' : state W) : Prop :=
  exists evs,
    trace s' = (trace s ++ evs)%list /\
    (secondary_browser (self s') = secondary_browser (self s) \/
     secondary_browser (self s') = None \/
     In (Enter "_setup_secondary_viewer") evs).

(** Lines 92-95: [handle_captcha_and_consent] up to and including the
    settle pause. *)
Definition until_settled {W} (env : Env W) (b : handle) (reconnect_time : Z) :
    M W unit :=
  def "handle_captcha_and_consent"
    (extern env (sleep b 1) ;;
     extern env (uc_gui_click_captcha b) ;;
     extern env (uc_gui_handle_captcha b) ;;
     extern env (sleep b reconnect_time)).

(** The state in which the [try] block of [main] starts: [main] has been
    entered and a new [StreamViewer] made. *)
Definition main_start {W} (s : state W) : state W :=
  with_self StreamViewer_init (observe (Enter "main") s).

(** What the [except StreamViewerException] clause of [main] makes of an
    exception raised in its [try] block. *)
Definition top_level {W} (e : exn) (s : state W) : outcome W unit :=
  if is_StreamViewerException e then
    Returns tt (observe (Log "ERROR" ("Stream viewing failed: " ++ str e)) s)
  else Raises e s.

(** ** Concrete states *)

(** A viewer holding a primary and a secondary session. *)
Definition two_sessions : state nat :=
  {| world := O;
     self := {| browser := Some 1%nat; secondary_browser := Some 2%nat |};
     trace := [] |}.

(** The state in which the settle pause of the primary session has been
    taken, in a world where every call succeeds. *)
Definition settled : state nat :=
  {| world := 4%nat; self := StreamViewer_init;
     trace := [Enter "handle_captcha_and_consent"; Call (sleep 1%nat 1);
               Call (uc_gui_click_captcha 1%nat);
               Call (uc_gui_handle_captcha 1%nat); Call (sleep 1%nat 4)] |}.

(** ** Counting and classifying events *)

(** How many events of a trace satisfy [p]. *)
Definition tally (p : event -> bool) (tr : list event) : nat :=
  length (filter p tr).

(** A call of [requests.get]. *)
Definition is_request (ev : event) : bool :=
  match ev with
  | Call c => match c with requests_get _ _ _ => true | _ => false end
  | _ => false
  end.

(** How many HTTP requests a trace holds. *)
Definition requests (tr : list event) : nat := tally is_request tr.

(** An event that is no call into the browser. *)
Definition no_browser_call (ev : event) : Prop :=
  match ev with
  | Call c => is_request (Call c) = true
  | _ => True
  end.

(** The record [watch_stream] writes for an exception of its [try] block
    (line 118). *)
Definition is_viewing_error (ev : event) : bool :=
  match ev with
  | Log level msg =>
      (level =? "ERROR") && String.prefix "Error during stream viewing: " msg
  | _ => false
  end.

Definition no_viewing_error (ev : event) : Prop := is_viewing_error ev = false.

(** The record for the exception [e]. *)
Definition viewing_error (e : exn) : event :=
  Log "ERROR" ("Error during stream viewing: " ++ str e).

(** A call of [quit_extra_driver]. *)
Definition is_release (ev : event) : bool :=
  match ev with
  | Call c => match c with quit_extra_driver _ => true | _ => false end
  | _ => false
  end.

Definition no_release (ev : event) : Prop := is_release ev = false.

(** The calls of [handle_captcha_and_consent] on the browser [b], in the
    order of lines 92-98. *)
Definition challenge_steps (b : handle) (reconnect_time : Z) : list event :=
  [Call (sleep b 1); Call (uc_gui_click_captcha b);
   Call (uc_gui_handle_captcha b); Call (sleep b reconnect_time);
   Call (is_element_present b accept_button);
   Call (uc_click b accept_button reconnect_time)].

(** An event that starts or extends a viewing session beyond its
    initialisation: a visibility test of the player, a liveness request, a
    new driver, or the entry of one of the functions that make them. *)
Definition watches (ev : event) : bool :=
  match ev with
  | Call c =>
      match c with
      | is_element_visible _ _ => true
      | requests_get _ _ _ => true
      | get_new_driver _ _ => true
      | _ => false
      end
  | Enter f =>
      (f =? "_watch_kick_stream") || (f =? "_watch_twitch_stream")
      || (f =? "check_twitch_stream") || (f =? "_setup_secondary_viewer")
  | _ => false
  end.

Definition no_watching (ev : event) : Prop := watches ev = false.

(** What a session may ask of the libraries, [joined] being what [urljoin]
    makes of the base URL and the user name: the arguments are those the
    script writes down, and a page is opened only at the URL that
    [urljoin] returned. *)
Definition in_session (joined : string + exn) (ev : event) : Prop :=
  match ev with
  | Call c =>
      match c with
      | requests_get _ _ timeout => timeout = 10
      | SB uc test => uc = true /\ test = true
      | SB_exit _ _ => True
      | sleep _ seconds => seconds = 1 \/ seconds = 4 \/ seconds = 10
      | uc_gui_click_captcha _ => True
      | uc_gui_handle_captcha _ => True
      | is_element_present _ selector => selector = accept_button
      | uc_click _ selector reconnect_time =>
          selector = accept_button /\ reconnect_time = 4
      | uc_open_with_reconnect _ opened reconnect_time =>
          joined = inl opened /\ (reconnect_time = 4 \/ reconnect_time = 5)
      | is_element_visible _ selector => selector = channel_player
      | get_new_driver _ undetectable => undetectable = true
      | quit_extra_driver _ => True
      end
  | _ => True
  end.

(** The calls of [rounds] turns of the polling loop on the browser [b]: a
    look for the player, a sleep of ten units. *)
Fixpoint poll_rounds (b : handle) (rounds : nat) : list event :=
  match rounds with
  | O => []
  | S k =>
      Call (is_element_visible b channel_player) :: Call (sleep b 10)
        :: poll_rounds b k
  end.

(** The polling loop of lines 133-134 on the browser [b], from state [s]
    to state [s']: in each of [rounds] rounds the browser answers that the
    player is visible and the sleep of ten units is taken; then the
    browser answers that the player is not visible, and that look is the
    last thing done. *)
Fixpoint polled {W} (env : Env W) (b : handle) (rounds : nat)
    (s s' : state W) : Prop :=
  match rounds with
  | O =>
      exists w,
        respond env (is_element_visible b channel_player) (world s)
          = (inl false, w) /\
        s' = answered (is_element_visible b channel_player) w s
  | S k =>
      exists w1 w2,
        respond env (is_element_visible b channel_player) (world s)
          = (inl true, w1) /\
        respond env (sleep b 10) w1 = (inl tt, w2) /\
        polled env b k
          (answered (sleep b 10) w2
             (answered (is_element_visible b channel_player) w1 s))
          s'
  end.

(** ** More on retrying *)

(** What [func] adds to the trace is neither an entry of [name] nor a
    nap. *)
Definition quiet {W A} (name : string) (func : M W A) : Prop :=
  forall s,
    match func s with
    | Returns _ s' | Raises _ s' =>
        entries name (trace s') = entries name (trace s) /\
        naps (trace s') = naps (trace s)
    | Diverges => True
    end.

(** A duration [time.sleep] takes. *)
Definition sleepable (seconds : Z) : Prop :=
  0 <= seconds /\ seconds * 10 ^ 9 < 2 ^ 63.

(** What [time.sleep] raises for a nap that is due but too long. *)
Definition sleep_overflow : exn :=
  Exception "OverflowError" "timestamp too large to convert to C _PyTime_t".

(** The operation under [retry_on_exception env _ wait_seconds name], tried
    from attempt number [n] in state [s], fails with the [Exception]s of
    [failures], one attempt after the other, each ending in the state
    paired with it, and then returns [v] in state [s_end].  Between two
    attempts lie the record of the failure and the nap, which
    [time.sleep] takes. *)
Fixpoint recovering {W A} (env : Env W) (name : string) (wait_seconds : Z)
    (func : M W A) (n : Z) (s : state W) (failures : list (exn * state W))
    (v : A) (s_end : state W) : Prop :=
  match failures with
  | [] => func (observe (Enter name) s) = Returns v s_end
  | (e, s1) :: later =>
      func (observe (Enter name) s) = Raises e s1 /\
      is_Exception e = true /\
      exists s2,
        time_sleep env (retry_wait wait_seconds n)
          (observe (error_in name e) s1) = Returns tt s2 /\
        recovering env name wait_seconds func (n + 1) s2 later v s_end
  end.

(** ** Exceptions on their way up *)

(** Whatever [m] raises satisfies [P]. *)
Definition throws {W A} (P : exn -> Prop) (m : M W A) : Prop :=
  forall s e s', m s = Raises e s' -> P e.

Definition not_StreamViewerException (e : exn) : Prop :=
  is_StreamViewerException e = false.

(** Neither a call into requests or SeleniumBase nor [urljoin] raises a
    [StreamViewerException], a class the libraries do not know. *)
Definition libraries_raise_their_own {W} (env : Env W) : Prop :=
  (forall (R : Type) (c : call R) (w : W) (e : exn),
     fst (respond env c w) = inr e -> not_StreamViewerException e) /\
  (forall (base name : string) (e : exn),
     urljoin env base name = inr e -> not_StreamViewerException e).

(** ** The viewer object across a run *)

(** The run leaves the [StreamViewer] object as it was. *)
Definition keeps_self {W} (s s' : state W) : Prop := self s' = self s.

(** The run leaves [self.browser] as it was. *)
Definition keeps_browser {W} (s s' : state W) : Prop :=
  browser (self s') = browser (self s).

(** ** More concrete inputs *)

(** A world in which [requests.get] fails, with an error that is no
    [RequestException], as long as the clock is below [n], and answers the
    live page from then on; every browser call succeeds. *)
Definition flaky_answer (n : nat) (R : Type) (c : call R) (clock : nat) :
    R + exn :=
  match c in call T return T + exn with
  | requests_get _ _ _ =>
      if Nat.ltb clock n then
        inr (Exception "ValueError" "check_hostname requires server_hostname")
      else inl live_page
  | SB _ _ => inl 1%nat
  | SB_exit _ raised => inl (suppressed_in_test_mode raised)
  | sleep _ _ => inl tt
  | uc_gui_click_captcha _ => inl tt
  | uc_gui_handle_captcha _ => inl tt
  | is_element_present _ _ => inl false
  | uc_click _ _ _ => inl tt
  | uc_open_with_reconnect _ _ _ => inl tt
  | is_element_visible _ _ => inl false
  | get_new_driver _ _ => inl 2%nat
  | quit_extra_driver _ => inl tt
  end.

Definition flaky (n : nat) : Env nat :=
  {| respond := fun R c clock => (flaky_answer n R c clock, S clock);
     nap := fun _ clock => clock;
     future_addr_of := fun _ => "0x7f3a5c0d2e50";
     urljoin := fun base name => inl (base ++ name) |}.

(** A world in which the browser cannot be started. *)
Definition no_browser_answer (R : Type) (c : call R) (clock : nat) : R + exn :=
  match c in call T return T + exn with
  | SB _ _ =>
      inr (Exception "SessionNotCreatedException" "session not created")
  | c' => scripted_answer (live_for 0) _ c' clock
  end.

Definition no_browser : Env nat :=
  {| respond := fun R c clock => (no_browser_answer R c clock, S clock);
     nap := fun _ clock => clock;
     future_addr_of := fun _ => "0x7f3a5c0d2e50";
     urljoin := fun base name => inl (base ++ name) |}.

(** The world of [scripted (live_for 0)], but with an [urljoin] that
    refuses the base "http://[" as urllib does. *)
Definition refusing_join : Env nat :=
  {| respond := fun R c clock =>
                  (scripted_answer (live_for 0) R c clock, S clock);
     nap := fun _ clock => clock;
     future_addr_of := fun _ => "0x7f3a5c0d2e50";
     urljoin := fun base name =>
       if String.eqb base "http://[" then
         inr (Exception "ValueError" "Invalid IPv6 URL")
       else inl (base ++ name) |}.

(** A configuration whose base is no URL. *)
Definition bracket_config : StreamPlatformConfig :=
  {| platform := "kick"; base_url := "http://["; username := "brutalles" |}.

(** A viewer inside its [with] block, before any secondary session. *)
Definition one_session : state nat :=
  {| world := O;
     self := {| browser := Some 1%nat; secondary_browser := None |};
     trace := [] |}.

(** A platform the script has no branch for. *)
Definition youtube_config : StreamPlatformConfig :=
  {| platform := "youtube"; base_url := "https://www.youtube.com/";
     username := "@brutalles" |}.

(** * Properties *)

(** ** Substring test *)

Lemma prefix_app (needle haystack : string) :
  String.prefix needle haystack = true <->
  exists after, haystack = needle ++ after.
Proof.
  revert haystack.
  induction needle as [|c needle IH]; intros [|d haystack]; simpl.
  - split; [exists ""; reflexivity | reflexivity].
  - split; [eexists; reflexivity | reflexivity].
  - split; [discriminate | intros [after H]; discriminate].
  - destruct (Ascii.ascii_dec c d) as [->|Hcd].
    + rewrite IH. split; intros [after H]; exists after.
      * now rewrite H.
      * now injection H.
    + split; [discriminate | intros [after H]; injection H; congruence].
Qed.

Lemma str_in_unfold (needle haystack : string) :
  str_in needle haystack =
  if String.prefix needle haystack then true
  else match haystack with
       | EmptyString => false
       | String _ rest => str_in needle rest
       end.
Proof. destruct haystack; reflexivity. Qed.

Lemma str_in_occurs (needle haystack : string) :
  str_in needle haystack = true <-> occurs_in needle haystack.
Proof.
  unfold occurs_in.
  induction haystack as [|c haystack IH]; rewrite str_in_unfold.
  - destruct (String.prefix needle "") eqn:Hp.
    + apply prefix_app in Hp as [after H].
      split; [intros _; exists "", after; exact H | reflexivity].
    + split; [discriminate|].
      intros [[|b before] [after H]]; simpl in H.
      * assert (String.prefix needle "" = true)
          by (apply prefix_app; exists after; exact H).
        congruence.
      * discriminate.
  - destruct (String.prefix needle (String c haystack)) eqn:Hp.
    + apply prefix_app in Hp as [after H].
      split; [intros _; exists "", after; exact H | reflexivity].
    + rewrite IH. split.
      * intros [before [after H]]. exists (String c before), after.
        simpl. now rewrite H.
      * intros [[|b before] [after H]]; simpl in H.
        -- assert (String.prefix needle (String c haystack) = true)
             by (apply prefix_app; exists after; exact H).
           congruence.
        -- injection H as _ H. exists before, after. exact H.
Qed.

(** ** Counting in traces *)

Lemma entries_app (name : string) (tr1 tr2 : list event) :
  entries name (tr1 ++ tr2)%list = (entries name tr1 + entries name tr2)%nat.
Proof. unfold entries. now rewrite filter_app, length_app. Qed.

Lemma naps_app (tr1 tr2 : list event) :
  naps (tr1 ++ tr2)%list = (naps tr1 ++ naps tr2)%list.
Proof. unfold naps. apply flat_map_app. Qed.

Lemma entries_none (name : string) (evs : list event) :
  Forall (fun ev => is_enter name ev = false) evs -> entries name evs = O.
Proof.
  unfold entries. induction 1 as [|ev evs Hev _ IH]; simpl.
  - reflexivity.
  - now rewrite Hev.
Qed.

Lemma entries_enter (name : string) : entries name [Enter name] = 1%nat.
Proof. unfold entries. cbn. now rewrite String.eqb_refl. Qed.

Lemma entries_cons (name : string) (ev : event) (tr : list event) :
  entries name (ev :: tr) =
  ((if is_enter name ev then 1 else 0) + entries name tr)%nat.
Proof. unfold entries. cbn. now destruct (is_enter name ev). Qed.

Lemma entries_nil (name : string) : entries name [] = O.
Proof. reflexivity. Qed.

Arguments entries : simpl never.

(** Counting the entries of a function in a trace given event by event. *)
Ltac count_entries :=
  rewrite ?entries_app, ?entries_cons, ?entries_nil; cbn; try lia.

Section Properties.

Variable W : Type.
Variable env : Env W.

(** ** The retry loop, one turn at a time *)

Lemma Retrying_turn {A} (mx : Z) (wait : Z -> Z) (fn : M W A) (n : Z)
    (s : state W) :
  Retrying env mx wait fn n s =
  match fn s with
  | Returns v s1 => Returns v s1
  | Raises e s1 =>
      if is_Exception e then
        if stop_after_attempt mx n then
          Raises (RetryError (future_addr_of env (world s1)) n e) s1
        else
          match time_sleep env (wait n) s1 with
          | Returns _ s2 => Retrying env mx wait fn (n + 1) s2
          | Raises e2 s2 => Raises e2 s2
          | Diverges => Diverges
          end
      else Raises e s1
  | Diverges => Diverges
  end.
Proof.
  simp Retrying. destruct (fn s) as [v s1|e s1|]; simpl; try reflexivity.
  destruct (is_Exception e); simpl; try reflexivity.
  destruct (stop_after_attempt mx n); simpl; reflexivity.
Qed.

(** ** What [time.sleep] takes *)

Lemma sleep_refusal_taken (seconds : Z) :
  sleepable seconds -> sleep_refusal seconds = None.
Proof.
  intros [Hpos Hfit]. unfold sleep_refusal.
  destruct (seconds <? 0)%Z eqn:Hneg; [lia|].
  destruct (2 ^ 63 <=? seconds * 10 ^ 9)%Z eqn:Hbig; [lia | reflexivity].
Qed.

Lemma sleep_refusal_overflow (seconds : Z) :
  0 <= seconds -> ~ sleepable seconds ->
  sleep_refusal seconds = Some sleep_overflow.
Proof.
  intros Hpos Hnot. unfold sleep_refusal, sleepable in *.
  destruct (seconds <? 0)%Z eqn:Hneg; [lia|].
  destruct (2 ^ 63 <=? seconds * 10 ^ 9)%Z eqn:Hbig; [reflexivity | lia].
Qed.

Lemma sleep_refusal_is_Exception (seconds : Z) (e : exn) :
  sleep_refusal seconds = Some e ->
  is_Exception e = true /\ is_StreamViewerException e = false.
Proof.
  unfold sleep_refusal.
  destruct (seconds <? 0)%Z; [intros [= <-]; now split|].
  destruct (2 ^ 63 <=? seconds * 10 ^ 9)%Z; [intros [= <-]; now split|].
  discriminate.
Qed.

(** A whole number of seconds that [time.sleep] takes is a float
    exactly. *)
Lemma sleep_refusal_exact (seconds : Z) :
  sleep_refusal seconds = None -> 0 <= seconds < 2 ^ 53.
Proof.
  unfold sleep_refusal.
  destruct (seconds <? 0)%Z eqn:Hneg; [discriminate|].
  destruct (2 ^ 63 <=? seconds * 10 ^ 9)%Z eqn:Hbig; [discriminate|].
  intros _. lia.
Qed.

Lemma time_sleep_taken (seconds : Z) (s : state W) :
  sleepable seconds ->
  time_sleep env seconds s = Returns tt (napped env seconds s).
Proof.
  intros H. unfold time_sleep. now rewrite (sleep_refusal_taken seconds H).
Qed.

Lemma time_sleep_refused (seconds : Z) (s : state W) :
  0 <= seconds -> ~ sleepable seconds ->
  time_sleep env seconds s = Raises sleep_overflow s.
Proof.
  intros Hpos H. unfold time_sleep.
  now rewrite (sleep_refusal_overflow seconds Hpos H).
Qed.

Lemma sleepable_dec (seconds : Z) : {sleepable seconds} + {~ sleepable seconds}.
Proof.
  unfold sleepable.
  destruct (Z_le_dec 0 seconds); [|right; tauto].
  destruct (Z_lt_dec (seconds * 10 ^ 9) (2 ^ 63)); [left|right]; tauto.
Qed.

Lemma retry_wait_nonneg (wait_seconds n : Z) : 0 <= retry_wait wait_seconds n.
Proof. unfold retry_wait, wait_exponential. lia. Qed.

(** ** Exhausting the retry budget *)

Lemma wrapper_fails {A} (mx : Z) (name : string) (func : M W A)
    (s s1 : state W) (e : exn) :
  func (observe (Enter name) s) = Raises e s1 ->
  is_Exception e = true ->
  wrapper mx name func s =
  Raises (failed_after mx e) (observe (error_in name e) s1).
Proof.
  intros Hf He. unfold wrapper, try_except, def, bind, emit.
  rewrite Hf, He. reflexivity.
Qed.

(** Around an operation that always fails, the loop goes on until the
    budget is used up, which ends it by [RetryError], or until a nap is
    due that [time.sleep] does not take, which ends it by the exception of
    [time.sleep]; [j] is the number of naps taken. *)
Lemma Retrying_fails {A} (mx ws : Z) (name : string) (func : M W A) :
  always_fails name func ->
  forall (k : nat) (n : Z) (s : state W),
    k = Z.to_nat (mx - n) ->
    exists e s0 s1 (j : nat),
      func s0 = Raises e s1 /\
      (j <= k)%nat /\
      entries name (trace s1) = (entries name (trace s) + S j)%nat /\
      naps (trace s1) =
        (naps (trace s) ++ map (retry_wait ws) (attempt_numbers n j))%list /\
      (forall i, n <= i < n + Z.of_nat j -> sleepable (retry_wait ws i)) /\
      ((j = k /\
        Retrying env mx (retry_wait ws) (wrapper mx name func) n s =
          Raises (RetryError (future_addr_of env (world s1)) (n + Z.of_nat k)
                    (failed_after mx e))
                 (observe (error_in name e) s1)) \/
       ((j < k)%nat /\
        ~ sleepable (retry_wait ws (n + Z.of_nat j)) /\
        Retrying env mx (retry_wait ws) (wrapper mx name func) n s =
          Raises sleep_overflow (observe (error_in name e) s1))).
Proof.
  intros Hfail k.
  induction k as [|k IH]; intros n s Hk;
    destruct (Hfail (observe (Enter name) s)) as (e & s1 & Hf & He & Hent & Hnap);
    rewrite Retrying_turn, (wrapper_fails mx name func s s1 e Hf He);
    cbn [is_Exception failed_after];
    destruct (stop_after_attempt mx n) as [Hstop|Hgo]; try lia.
  - exists e, (observe (Enter name) s), s1, O.
    split; [exact Hf|]. split; [lia|].
    rewrite Hent, Hnap. cbn [observe trace attempt_numbers map].
    rewrite entries_app, naps_app, entries_enter, !app_nil_r.
    split; [reflexivity|]. split; [reflexivity|]. split; [intros i Hi; lia|].
    left. split; [reflexivity|]. now rewrite Z.add_0_r.
  - destruct (sleepable_dec (retry_wait ws n)) as [Hnap_ok|Hnap_no].
    + rewrite (time_sleep_taken _ _ Hnap_ok).
      destruct (IH (n + 1)
                  (napped env (retry_wait ws n) (observe (error_in name e) s1)))
        as (e' & s0' & s1' & j & Hf' & Hj & Hent' & Hnap' & Hok & Hrun); [lia|].
      exists e', s0', s1', (S j).
      split; [exact Hf'|]. split; [lia|].
      rewrite Hent', Hnap'.
      cbn [napped observe trace attempt_numbers map].
      rewrite !entries_app, !naps_app, Hent, Hnap.
      cbn [observe trace]. rewrite entries_app, naps_app, entries_enter.
      unfold error_in. split; [count_entries|].
      split; [cbn; now rewrite !app_nil_r, <- app_assoc|].
      split.
      { intros i Hi. destruct (Z.eq_dec i n) as [->|Hne]; [exact Hnap_ok|].
        apply Hok. lia. }
      destruct Hrun as [[-> Hrun]|(Hlt & Hno & Hrun)]; [left|right].
      * split; [reflexivity|]. etransitivity; [exact Hrun|].
        do 2 f_equal. lia.
      * split; [lia|]. split; [|exact Hrun].
        replace (n + Z.of_nat (S j)) with (n + 1 + Z.of_nat j) by lia.
        exact Hno.
    + rewrite (time_sleep_refused _ _ (retry_wait_nonneg ws n) Hnap_no).
      exists e, (observe (Enter name) s), s1, O.
      split; [exact Hf|]. split; [lia|].
      rewrite Hent, Hnap. cbn [observe trace attempt_numbers map].
      rewrite entries_app, naps_app, entries_enter, !app_nil_r.
      split; [reflexivity|]. split; [reflexivity|]. split; [intros i Hi; lia|].
      right. split; [lia|]. split; [now rewrite Z.add_0_r | reflexivity].
Qed.

(** C1.  An operation wrapped by [retry_on_exception] that fails on every
    invocation is invoked exactly [max(1, max_attempts)] times, that is
    [max_attempts] times for every budget of at least one attempt, and the
    run ends by raising once, provided [time.sleep] takes every nap that
    is due between two attempts (it does for the defaults, whose naps are
    2 and 4).  What is raised is tenacity's [RetryError] for the last
    attempt; the [StreamViewerException] with the attempt count and the
    text of the last underlying error is the exception held by that last
    attempt, not the exception that reaches the caller.  When the nap
    after attempt [k] is the first one that [time.sleep] does not take, the
    operation is invoked exactly [k] times and what reaches the caller is
    the OverflowError of [time.sleep]. *)
Theorem retry_on_exception_exhausted {A} (max_attempts wait_seconds : Z)
    (name : string) (func : M W A) (s : state W) :
  always_fails name func ->
  ((forall n, 1 <= n < max_attempts ->
      retry_wait wait_seconds n * 10 ^ 9 < 2 ^ 63) ->
   exists e s0 s1,
     func s0 = Raises e s1 /\
     retry_on_exception env max_attempts wait_seconds name func s =
       Raises (RetryError (future_addr_of env (world s1))
                 (Z.max 1 max_attempts)
                 (StreamViewerException
                    ("Failed after " ++ str_int max_attempts ++ " attempts: "
                       ++ str e)))
              (observe (Log "ERROR" ("Error in " ++ name ++ ": " ++ str e)) s1) /\
     entries name (trace s1) =
       (entries name (trace s) + Z.to_nat (Z.max 1 max_attempts))%nat) /\
  (forall k,
     1 <= k < max_attempts ->
     (forall n, 1 <= n < k -> retry_wait wait_seconds n * 10 ^ 9 < 2 ^ 63) ->
     2 ^ 63 <= retry_wait wait_seconds k * 10 ^ 9 ->
     exists e s0 s1,
       func s0 = Raises e s1 /\
       retry_on_exception env max_attempts wait_seconds name func s =
         Raises (Exception "OverflowError"
                   "timestamp too large to convert to C _PyTime_t")
                (observe (Log "ERROR" ("Error in " ++ name ++ ": " ++ str e))
                   s1) /\
       entries name (trace s1) = (entries name (trace s) + Z.to_nat k)%nat).
Proof.
  intros Hfail. unfold retry_on_exception, retry.
  destruct (Retrying_fails max_attempts wait_seconds name func Hfail
              (Z.to_nat (max_attempts - 1)) 1 s eq_refl)
    as (e & s0 & s1 & j & Hf & Hj & Hent & _ & Hok & Hrun).
  split.
  - intros Hnaps. exists e, s0, s1. split; [exact Hf|].
    destruct Hrun as [[-> Hrun]|(Hlt & Hno & _)].
    + split.
      * rewrite Hrun. unfold failed_after, error_in.
        replace (1 + Z.of_nat (Z.to_nat (max_attempts - 1)))
          with (Z.max 1 max_attempts) by lia.
        reflexivity.
      * rewrite Hent. lia.
    + exfalso. apply Hno. split; [apply retry_wait_nonneg|].
      apply Hnaps. lia.
  - intros k Hk Hbefore Hover. exists e, s0, s1. split; [exact Hf|].
    assert (Hk_no : ~ sleepable (retry_wait wait_seconds k))
      by (intros [_ H]; lia).
    destruct Hrun as [[-> _]|(Hlt & Hno & Hrun)].
    + exfalso. apply Hk_no, Hok. lia.
    + assert (k = 1 + Z.of_nat j).
      { destruct (Z_lt_le_dec k (1 + Z.of_nat j)) as [Hlow|Hhigh].
        - exfalso. apply Hk_no, Hok. lia.
        - destruct (Z.eq_dec k (1 + Z.of_nat j)) as [Heq|Hne]; [exact Heq|].
          exfalso. apply Hno. split; [apply retry_wait_nonneg|].
          apply Hbefore. lia. }
      subst k. split; [exact Hrun|]. rewrite Hent. lia.
Qed.

(** ** The delays between attempts *)








(** ** The liveness check *)

Lemma retry_on_exception_returns {A} (mx ws : Z) (name : string)
    (func : M W A) (s s1 : state W) (v : A) :
  func (observe (Enter name) s) = Returns v s1 ->
  retry_on_exception env mx ws name func s = Returns v s1.
Proof.
  intros Hf. unfold retry_on_exception, retry. rewrite Retrying_turn.
  unfold wrapper, try_except, def, bind, emit. now rewrite Hf.
Qed.

Lemma extern_answer {R} (c : call R) (s : state W) :
  extern env c s =
  match fst (respond env c (world s)) with
  | inl v => Returns v (answered c (snd (respond env c (world s))) s)
  | inr e => Raises e (answered c (snd (respond env c (world s))) s)
  end.
Proof.
  unfold extern, answered. destruct (respond env c (world s)) as [[v|e] w];
    reflexivity.
Qed.

Lemma raise_for_status_error (r : Response) (s : state W) :
  is_http_error r = true ->
  exists msg,
    raise_for_status r s = Raises (RequestException "HTTPError" msg) s.
Proof.
  unfold is_http_error, raise_for_status, raise. intros H.
  destruct ((400 <=? status_code r) && (status_code r <? 500))%Z eqn:H4;
    [eexists; reflexivity|].
  destruct ((500 <=? status_code r) && (status_code r <? 600))%Z eqn:H5;
    [eexists; reflexivity|].
  lia.
Qed.

Lemma raise_for_status_ok (r : Response) (s : state W) :
  is_http_error r = false -> raise_for_status r s = Returns tt s.
Proof.
  unfold is_http_error, raise_for_status, ret. intros H.
  destruct ((400 <=? status_code r) && (status_code r <? 500))%Z eqn:H4;
    [lia|].
  destruct ((500 <=? status_code r) && (status_code r <? 600))%Z eqn:H5;
    [lia|].
  reflexivity.
Qed.

Lemma check_twitch_stream_on_response (username : string) (cfg : TwitchConfig)
    (s : state W) (r : Response) (w : W) :
  respond env (liveness_request username cfg) (world s) = (inl r, w) ->
  let s1 := answered (liveness_request username cfg) w
              (observe (Enter "check_twitch_stream") s) in
  if is_http_error r then
    exists msg,
      check_twitch_stream env username cfg s
        = Returns false (observe (check_failed msg) s1)
  else
    check_twitch_stream env username cfg s
      = Returns (str_in (live_indicator cfg) (text r)) s1.
Proof.
  intros Hr s1.
  assert (Hget : extern env (liveness_request username cfg)
                   (observe (Enter "check_twitch_stream") s) = Returns r s1).
  { rewrite extern_answer. cbn [observe world]. rewrite Hr. reflexivity. }
  destruct (is_http_error r) eqn:Herr.
  - destruct (raise_for_status_error r s1 Herr) as [msg Hmsg].
    exists msg. apply retry_on_exception_returns.
    unfold check_twitch_stream_body, try_except, bind.
    fold (liveness_request username cfg). now rewrite Hget, Hmsg.
  - apply retry_on_exception_returns.
    unfold check_twitch_stream_body, try_except, bind.
    fold (liveness_request username cfg).
    now rewrite Hget, (raise_for_status_ok r s1 Herr).
Qed.

Lemma check_twitch_stream_on_error (username : string) (cfg : TwitchConfig)
    (s : state W) (e : exn) (w : W) :
  respond env (liveness_request username cfg) (world s) = (inr e, w) ->
  is_RequestException e = true ->
  check_twitch_stream env username cfg s =
  Returns false
    (observe (check_failed (str e))
       (answered (liveness_request username cfg) w
          (observe (Enter "check_twitch_stream") s))).
Proof.
  intros Hr He. apply retry_on_exception_returns.
  unfold check_twitch_stream_body, try_except, bind.
  fold (liveness_request username cfg).
  rewrite extern_answer. cbn [observe world]. rewrite Hr. cbn [fst snd].
  now rewrite He.
Qed.

(** C3, as the code has it.  A response that is not an HTTP error (status
    outside 400..599) and whose body contains the marker makes
    [check_twitch_stream] return true; a response whose body lacks the
    marker, a response with an error status whatever its body, and a
    transport error thrown by the request all make it return false. *)
Theorem check_twitch_stream_decides (username : string) (cfg : TwitchConfig)
    (s : state W) :
  (forall r w,
     respond env (liveness_request username cfg) (world s) = (inl r, w) ->
     (is_http_error r = false -> occurs_in (live_indicator cfg) (text r) ->
      exists s', check_twitch_stream env username cfg s = Returns true s') /\
     (~ occurs_in (live_indicator cfg) (text r) ->
      exists s', check_twitch_stream env username cfg s = Returns false s') /\
     (is_http_error r = true ->
      exists s', check_twitch_stream env username cfg s = Returns false s')) /\
  (forall e w,
     respond env (liveness_request username cfg) (world s) = (inr e, w) ->
     is_RequestException e = true ->
     exists s', check_twitch_stream env username cfg s = Returns false s').
Proof.
  split.
  - intros r w Hr.
    pose proof (check_twitch_stream_on_response username cfg s r w Hr) as H.
    cbv zeta in H.
    destruct (is_http_error r) eqn:Herr.
    + destruct H as [msg H].
      split; [discriminate|]. split; intros _; eexists; exact H.
    + split; [|split; [|discriminate]].
      * intros _ Hin. apply str_in_occurs in Hin. rewrite Hin in H.
        eexists; exact H.
      * intros Hout.
        destruct (str_in (live_indicator cfg) (text r)) eqn:Hin.
        -- apply str_in_occurs in Hin. contradiction.
        -- eexists; exact H.
  - intros e w Hr He. eexists.
    exact (check_twitch_stream_on_error username cfg s e w Hr He).
Qed.

(** C6, as the code has it.  Whatever the username and the configuration,
    a failed HTTP exchange never reaches the caller of
    [check_twitch_stream]: when the request raises a [RequestException]
    (connection error, timeout, ...), and when the response has an error
    status, 400 to 599, which [raise_for_status] turns into an HTTPError,
    the failure is logged once and the call returns false, after that one
    request.  (A status that is neither a success nor an error, such as
    300, is no failure for the code.) *)
Theorem check_twitch_stream_swallows (username : string) (cfg : TwitchConfig)
    (s : state W) :
  (forall e w,
     respond env (liveness_request username cfg) (world s) = (inr e, w) ->
     is_RequestException e = true ->
     check_twitch_stream env username cfg s =
     Returns false
       {| world := w; self := self s;
          trace := (trace s ++
                    [Enter "check_twitch_stream";
                     Call (liveness_request username cfg);
                     Log "ERROR"
                       ("Failed to check Twitch stream status: " ++ str e)])%list
       |}) /\
  (forall r w,
     respond env (liveness_request username cfg) (world s) = (inl r, w) ->
     400 <= status_code r < 600 ->
     exists msg,
       check_twitch_stream env username cfg s =
       Returns false
         {| world := w; self := self s;
            trace := (trace s ++
                      [Enter "check_twitch_stream";
                       Call (liveness_request username cfg);
                       Log "ERROR"
                         ("Failed to check Twitch stream status: " ++ msg)])%list
         |}).
Proof.
  split.
  - intros e w Hr He.
    rewrite (check_twitch_stream_on_error username cfg s e w Hr He).
    unfold observe, answered, check_failed. cbn [world self trace].
    now rewrite <- !app_assoc.
  - intros r w Hr Hcode.
    pose proof (check_twitch_stream_on_response username cfg s r w Hr) as H.
    cbv zeta in H.
    assert (Herr : is_http_error r = true) by (unfold is_http_error; lia).
    rewrite Herr in H. destruct H as [msg H]. exists msg. rewrite H.
    unfold observe, answered, check_failed. cbn [world self trace].
    now rewrite <- !app_assoc.
Qed.

(** ** Relating the state before a run to the state after it

    For a preorder [R], the rules of [respects D R] follow the structure of
    the code. *)

Section Rules.

Variable D : Prop.
Variable R : state W -> state W -> Prop.
Context {R_preorder : RelationClasses.PreOrder R}.

Lemma respects_ret {A} (v : A) : respects D R (ret v).
Proof. intros s. cbn. reflexivity. Qed.

Lemma respects_raise {A} (e : exn) : respects D R (@raise W A e).
Proof. intros s. cbn. reflexivity. Qed.

Lemma respects_get_self : respects D R get_self.
Proof. intros s. cbn. reflexivity. Qed.

Lemma respects_bind {A B} (m : M W A) (k : A -> M W B) :
  respects D R m -> (forall v, respects D R (k v)) -> respects D R (bind m k).
Proof.
  intros Hm Hk s. unfold bind. specialize (Hm s).
  destruct (m s) as [v s1|e s1|]; trivial.
  specialize (Hk v s1). destruct (k v s1); trivial; now transitivity s1.
Qed.

Lemma respects_try_except {A} (m : M W A) (catches : exn -> bool)
    (handler : exn -> M W A) :
  respects D R m -> (forall e, respects D R (handler e)) ->
  respects D R (try_except m catches handler).
Proof.
  intros Hm Hh s. unfold try_except. specialize (Hm s).
  destruct (m s) as [v s1|e s1|]; trivial.
  destruct (catches e); trivial.
  specialize (Hh e s1). destruct (handler e s1); trivial; now transitivity s1.
Qed.

Lemma respects_try_finally {A} (m : M W A) (fin : M W unit) :
  respects D R m -> respects D R fin -> respects D R (try_finally m fin).
Proof.
  intros Hm Hfin s. unfold try_finally. specialize (Hm s).
  destruct (m s) as [v s1|e s1|]; trivial;
    specialize (Hfin s1); destruct (fin s1); trivial; now transitivity s1.
Qed.

Lemma respects_emit (ev : event) :
  (forall s, R s (observe ev s)) -> respects D R (emit ev).
Proof. intros H s. apply H. Qed.

Lemma respects_def {A} (name : string) (body : M W A) :
  (forall s, R s (observe (Enter name) s)) -> respects D R body ->
  respects D R (def name body).
Proof.
  intros H Hbody. apply respects_bind; [now apply respects_emit | now intros _].
Qed.

Lemma respects_extern {T} (c : call T) :
  (forall s w, R s (answered c w s)) -> respects D R (extern env c).
Proof.
  intros H s. rewrite extern_answer.
  destruct (fst (respond env c (world s))); apply H.
Qed.

Lemma respects_set_self (v : StreamViewer) :
  (forall s, R s (with_self v s)) -> respects D R (set_self v).
Proof. intros H s. apply H. Qed.

Lemma respects_with_statement (exit : option exn -> M W bool)
    (body : M W unit) :
  respects D R body -> (forall raised, respects D R (exit raised)) ->
  respects D R (with_statement exit body).
Proof.
  intros Hbody Hexit s. unfold with_statement. specialize (Hbody s).
  destruct (body s) as [v s1|e s1|]; trivial.
  - specialize (Hexit None s1).
    destruct (exit None s1); trivial; now transitivity s1.
  - specialize (Hexit (Some e) s1).
    destruct (exit (Some e) s1) as [[|] s2|e' s2|]; trivial;
      now transitivity s1.
Qed.

Lemma respects_stream_url {A} (cfg : StreamPlatformConfig)
    (k : string -> M W A) :
  (forall joined,
     urljoin env (base_url cfg) (username cfg) = inl joined ->
     respects D R (k joined)) ->
  respects D R (bind (stream_url env cfg) k).
Proof.
  intros Hk s. unfold bind, stream_url.
  destruct (urljoin env (base_url cfg) (username cfg)) as [joined|e];
    [apply Hk; reflexivity | cbn; reflexivity].
Qed.

Lemma respects_time_sleep (seconds : Z) :
  (forall d s, R s (napped env d s)) -> respects D R (time_sleep env seconds).
Proof.
  intros Hnap s. unfold time_sleep.
  destruct (sleep_refusal seconds); [reflexivity | apply Hnap].
Qed.

Lemma respects_Retrying {A} (mx : Z) (wait : Z -> Z) (fn : M W A) :
  respects D R fn ->
  (forall d s, R s (napped env d s)) ->
  forall n, respects D R (Retrying env mx wait fn n).
Proof.
  intros Hfn Hnap n.
  remember (Z.to_nat (mx - n)) as k eqn:Hk.
  revert n Hk. induction k as [|k IH]; intros n Hk s;
    rewrite Retrying_turn; pose proof (Hfn s) as Hs;
    destruct (fn s) as [v s1|e s1|]; trivial;
    destruct (is_Exception e); trivial;
    destruct (stop_after_attempt mx n) as [Hstop|Hgo]; trivial; try lia.
  pose proof (respects_time_sleep (wait n) Hnap s1) as Hsleep.
  destruct (time_sleep env (wait n) s1) as [[] s2|e2 s2|]; trivial;
    [|now transitivity s1].
  specialize (IH (n + 1) ltac:(lia) s2).
  destruct (Retrying env mx wait fn (n + 1) s2);
    trivial; (transitivity s1; [exact Hs|]);
    (transitivity s2; [exact Hsleep | exact IH]).
Qed.

Lemma respects_retry {A} (mx : Z) (wait : Z -> Z) (fn : M W A) :
  respects D R fn ->
  (forall d s, R s (napped env d s)) ->
  respects D R (retry env mx wait fn).
Proof. intros Hfn Hnap. exact (respects_Retrying mx wait fn Hfn Hnap 1). Qed.

Lemma respects_while_player_visible (fuel : nat) :
  D ->
  (forall b s w, R s (answered (is_element_visible b channel_player) w s)) ->
  (forall b s w, R s (answered (sleep b 10) w s)) ->
  respects D R (while_player_visible env fuel).
Proof.
  intros HD Hvis Hsleep. induction fuel as [|fuel IH]; [intros s; exact HD|].
  cbn [while_player_visible]. unfold self_browser.
  apply respects_bind.
  { apply respects_bind; [apply respects_get_self|].
    intros v. destruct (browser v); [apply respects_ret | apply respects_raise]. }
  intros b. apply respects_bind; [apply respects_extern, Hvis|].
  intros [|]; [|apply respects_ret].
  apply respects_bind.
  { apply respects_bind; [apply respects_get_self|].
    intros v. destruct (browser v); [apply respects_ret | apply respects_raise]. }
  intros b'. apply respects_bind; [apply respects_extern, Hsleep|].
  intros _. exact IH.
Qed.

End Rules.

(** *** What a run adds to the trace *)

#[local] Instance emitting_preorder (P : event -> Prop) :
  RelationClasses.PreOrder (emitting (W := W) P).
Proof.
  split.
  - intros s. exists []. split; [now rewrite app_nil_r | constructor].
  - intros s1 s2 s3 (evs1 & H1 & HP1) (evs2 & H2 & HP2).
    exists (evs1 ++ evs2)%list. split.
    + now rewrite H2, H1, app_assoc.
    + apply Forall_app. now split.
Qed.

Lemma emitting_observe (P : event -> Prop) (ev : event) (s : state W) :
  P ev -> emitting P s (observe ev s).
Proof. intros H. exists [ev]. split; [reflexivity | now constructor]. Qed.

Lemma emitting_answered (P : event -> Prop) {T} (c : call T) (w : W)
    (s : state W) :
  P (Call c) -> emitting P s (answered c w s).
Proof. intros H. exists [Call c]. split; [reflexivity | now constructor]. Qed.

Lemma emitting_time_sleep (P : event -> Prop) (d : Z) (s : state W) :
  P (TimeSleep d) -> emitting P s (napped env d s).
Proof. intros H. exists [TimeSleep d]. split; [reflexivity | now constructor]. Qed.

Lemma emitting_with_self (P : event -> Prop) (v : StreamViewer) (s : state W) :
  emitting P s (with_self v s).
Proof. exists []. split; [symmetry; apply app_nil_r | constructor]. Qed.

(** *** What a run does to [self.secondary_browser] *)

#[local] Instance set_only_by_setup_preorder :
  RelationClasses.PreOrder (set_only_by_setup (W := W)).
Proof.
  split.
  - intros s. exists []. split; [now rewrite app_nil_r | now left].
  - intros s1 s2 s3 (evs1 & H1 & C1) (evs2 & H2 & C2).
    exists (evs1 ++ evs2)%list. split; [now rewrite H2, H1, app_assoc|].
    rewrite in_app_iff.
    destruct C2 as [C2|[C2|C2]]; [|now right; left|now right; right; right].
    rewrite C2. destruct C1 as [C1|[C1|C1]];
      [now left | now right; left | now right; right; left].
Qed.

Lemma set_only_by_setup_event (ev : event) (w : W) (s : state W) :
  set_only_by_setup s
    {| world := w; self := self s; trace := (trace s ++ [ev])%list |}.
Proof. exists [ev]. split; [reflexivity | now left]. Qed.

(** The rules, applied along the structure of a function of the script;
    [special] is tried first on every goal, [side] closes what a rule asks
    of the relation. *)
Ltac respects_with special side :=
  repeat first
    [ special
    | lazymatch goal with
      | |- respects _ _ (ret _) => apply respects_ret; exact _
      | |- respects _ _ (raise _) => apply respects_raise; exact _
      | |- respects _ _ get_self => apply respects_get_self; exact _
      | |- respects _ _ (def _ _) =>
          apply respects_def; [exact _|solve [side]|]
      | |- respects _ _ (emit _) => apply respects_emit; solve [side]
      | |- respects _ _ (extern _ _) => apply respects_extern; solve [side]
      | |- respects _ _ (set_self _) => apply respects_set_self; solve [side]
      | |- respects _ _ (retry _ _ _ _) =>
          apply respects_retry; [exact _| |solve [side]]
      | |- respects _ _ (while_player_visible _ _) =>
          apply respects_while_player_visible;
          [exact _|exact I|solve [side]|solve [side]]
      | |- respects _ _ (bind _ _) => apply respects_bind; [exact _| |intro]
      | |- respects _ _ (try_except _ _ _) =>
          apply respects_try_except; [exact _| |intro]
      | |- respects _ _ (try_finally _ _) =>
          apply respects_try_finally; [exact _| |]
      | |- respects _ _ (with_statement _ _) =>
          apply respects_with_statement; [exact _| |intro]
      | |- respects _ _ (if ?b then _ else _) => destruct b
      | |- respects _ _ (match ?x with _ => _ end) => destruct x
      | |- respects _ _ (let _ := _ in _) => cbv zeta
      | |- respects _ _ _ =>
          progress unfold
            logger_info, logger_error, self_browser, set_browser,
            set_secondary_browser, raise_for_status, wrapper, stream_url,
            retry_on_exception, check_twitch_stream_body, check_twitch_stream,
            handle_captcha_and_consent, _initialize_stream_viewing,
            _setup_secondary_viewer, _watch_kick_stream, _watch_twitch_stream,
            _cleanup, with_SB, watch_stream_try, watch_stream, main_try, main
      end ].

Ltac emitting_side :=
  intros;
  first [ apply emitting_observe | apply emitting_answered
        | apply emitting_time_sleep | apply emitting_with_self ];
  hnf; cbn; auto.

Ltac emitting_tac := respects_with fail emitting_side.

(** No function of the script shrinks or rewrites the trace. *)
Lemma watch_stream_grows (fuel : nat) (cfg : StreamPlatformConfig) :
  respects True (emitting (fun _ => True)) (watch_stream env fuel cfg).
Proof. emitting_tac. Qed.

(** ** Fuel

    Fuel only bounds how long the polling loop is followed: a run that
    ends with some fuel ends in the same way with any larger fuel. *)

Lemma prolongs_refl {A} (m : M W A) : prolongs m m.
Proof. intros s _. reflexivity. Qed.

Lemma prolongs_trans {A} (m1 m2 m3 : M W A) :
  prolongs m1 m2 -> prolongs m2 m3 -> prolongs m1 m3.
Proof.
  intros H12 H23 s Hends. rewrite <- (H12 s Hends). apply H23.
  now rewrite (H12 s Hends).
Qed.

Lemma prolongs_bind {A B} (m m' : M W A) (k k' : A -> M W B) :
  prolongs m m' -> (forall v, prolongs (k v) (k' v)) ->
  prolongs (bind m k) (bind m' k').
Proof.
  intros Hm Hk s. unfold bind. intros Hends.
  destruct (m s) as [v s1|e s1|] eqn:Hrun; [| |contradiction];
    rewrite (Hm s) by (rewrite Hrun; discriminate); rewrite Hrun;
    [now apply Hk | reflexivity].
Qed.

Lemma prolongs_try_except {A} (m m' : M W A) (catches : exn -> bool)
    (handler : exn -> M W A) :
  prolongs m m' ->
  prolongs (try_except m catches handler) (try_except m' catches handler).
Proof.
  intros Hm s. unfold try_except. intros Hends.
  destruct (m s) as [v s1|e s1|] eqn:Hrun; [| |contradiction];
    rewrite (Hm s) by (rewrite Hrun; discriminate); now rewrite Hrun.
Qed.

Lemma prolongs_try_finally {A} (m m' : M W A) (fin : M W unit) :
  prolongs m m' -> prolongs (try_finally m fin) (try_finally m' fin).
Proof.
  intros Hm s. unfold try_finally. intros Hends.
  destruct (m s) as [v s1|e s1|] eqn:Hrun; [| |contradiction];
    rewrite (Hm s) by (rewrite Hrun; discriminate); now rewrite Hrun.
Qed.

Lemma prolongs_with_statement (exit : option exn -> M W bool)
    (body body' : M W unit) :
  prolongs body body' ->
  prolongs (with_statement exit body) (with_statement exit body').
Proof.
  intros Hbody s. unfold with_statement. intros Hends.
  destruct (body s) as [v s1|e s1|] eqn:Hrun; [| |contradiction];
    rewrite (Hbody s) by (rewrite Hrun; discriminate); now rewrite Hrun.
Qed.

Lemma while_player_visible_more (fuel : nat) :
  prolongs (while_player_visible env fuel) (while_player_visible env (S fuel)).
Proof.
  induction fuel as [|fuel IH]; [intros s Hends; now contradiction Hends|].
  change (while_player_visible env (S (S fuel)))
    with (b <- self_browser "is_element_visible" ;;
          visible <- extern env (is_element_visible b channel_player) ;;
          if visible then
            b <- self_browser "sleep" ;;
            extern env (sleep b 10) ;;
            while_player_visible env (S fuel)
          else ret tt).
  cbn [while_player_visible].
  apply prolongs_bind; [apply prolongs_refl|]. intros b.
  apply prolongs_bind; [apply prolongs_refl|]. intros [|];
    [|apply prolongs_refl].
  apply prolongs_bind; [apply prolongs_refl|]. intros b'.
  apply prolongs_bind; [apply prolongs_refl|]. intros _. exact IH.
Qed.

Lemma while_player_visible_fuel (fuel fuel' : nat) :
  (fuel <= fuel')%nat ->
  prolongs (while_player_visible env fuel) (while_player_visible env fuel').
Proof.
  induction 1 as [|fuel' _ IH]; [apply prolongs_refl|].
  eapply prolongs_trans; [exact IH | apply while_player_visible_more].
Qed.

Lemma watch_stream_fuel (fuel fuel' : nat) (cfg : StreamPlatformConfig) :
  (fuel <= fuel')%nat ->
  prolongs (watch_stream env fuel cfg) (watch_stream env fuel' cfg).
Proof.
  intros Hle. unfold watch_stream, watch_stream_try, with_SB, def.
  apply prolongs_bind; [apply prolongs_refl|]. intros _.
  apply prolongs_try_finally, prolongs_try_except.
  apply prolongs_bind; [apply prolongs_refl|]. intros sb.
  apply prolongs_bind; [apply prolongs_refl|]. intros _.
  apply prolongs_with_statement.
  apply prolongs_bind; [apply prolongs_refl|]. intros _.
  apply prolongs_bind; [apply prolongs_refl|]. intros _.
  destruct (platform cfg =? "kick"); [|apply prolongs_refl].
  unfold _watch_kick_stream, def.
  apply prolongs_bind; [apply prolongs_refl|]. intros _.
  apply prolongs_bind; [apply prolongs_refl|]. intros b.
  apply prolongs_bind; [apply prolongs_refl|]. intros [|];
    [|apply prolongs_refl].
  apply prolongs_bind; [apply prolongs_refl|]. intros _.
  now apply while_player_visible_fuel.
Qed.

Lemma main_fuel (fuel fuel' : nat) :
  (fuel <= fuel')%nat -> prolongs (main env fuel) (main env fuel').
Proof.
  intros Hle. unfold main, main_try, def.
  apply prolongs_bind; [apply prolongs_refl|]. intros _.
  apply prolongs_bind; [apply prolongs_refl|]. intros _.
  apply prolongs_try_except.
  apply prolongs_bind; [now apply watch_stream_fuel|]. intros _. cbv zeta.
  apply prolongs_bind; [apply prolongs_refl|]. intros [|];
    [now apply watch_stream_fuel | apply prolongs_refl].
Qed.

(** ** Cleanup *)

Lemma watch_stream_try_no_cleanup (fuel : nat) (cfg : StreamPlatformConfig) :
  respects True (emitting not_cleanup) (watch_stream_try env fuel cfg).
Proof. emitting_tac. Qed.

(** Running the plumbing of a computation, up to its calls into the
    environment. *)
Create HintDb plumbing discriminated.

#[local] Hint Unfold bind ret raise get_self set_self self_browser
  set_browser set_secondary_browser emit logger_info logger_error try_except
  try_finally : plumbing.

Ltac run_monad :=
  repeat autounfold with plumbing; unfold observe, answered, with_self; cbn.

Lemma def_run {A} (name : string) (body : M W A) (s : state W) :
  def name body s = body (observe (Enter name) s).
Proof. reflexivity. Qed.

(** Every call of [_cleanup] ends, and is recorded once. *)
Lemma _cleanup_entered (s : state W) :
  match _cleanup env s with
  | Returns _ s' | Raises _ s' =>
      entries "_cleanup" (trace s') = S (entries "_cleanup" (trace s))
  | Diverges => False
  end.
Proof.
  unfold _cleanup. rewrite def_run. run_monad.
  destruct (secondary_browser (self s)) as [d|]; cbn.
  - destruct (browser (self s)) as [b|]; cbn.
    + rewrite extern_answer.
      destruct (fst (respond env (quit_extra_driver b) _));
        run_monad; count_entries.
    + count_entries.
  - count_entries.
Qed.

(** Without a secondary session [_cleanup] does nothing: no call, no log,
    the viewer as it was. *)
Lemma _cleanup_without_secondary (w : W) (b : option handle)
    (tr : list event) :
  _cleanup env
    {| world := w; self := {| browser := b; secondary_browser := None |};
       trace := tr |} =
  Returns tt
    {| world := w; self := {| browser := b; secondary_browser := None |};
       trace := (tr ++ [Enter "_cleanup"])%list |}.
Proof. reflexivity. Qed.

(** Off the kick branch there is no loop: the run ends. *)
Lemma watch_stream_ends_off_kick (fuel : nat) (cfg : StreamPlatformConfig) :
  (platform cfg =? "kick") = false ->
  respects False (emitting (fun _ => True)) (watch_stream env fuel cfg).
Proof.
  intros Hplatform. unfold watch_stream, watch_stream_try.
  rewrite Hplatform. emitting_tac.
Qed.

(** C5.  Whenever a call of [watch_stream] ends, by returning or by
    raising, on whichever branch, [_cleanup] has been entered exactly once
    during it; and when there is no secondary session [_cleanup] is a
    no-op, so that releasing twice releases once.  As to ending: off the
    kick branch every call of [watch_stream] ends; on the kick branch,
    whose polling loop Python does not bound, a call that ends within some
    fuel ends in the same way within any larger fuel. *)
Theorem watch_stream_cleanup_once (fuel : nat) (cfg : StreamPlatformConfig)
    (s : state W) :
  match watch_stream env fuel cfg s with
  | Returns _ s' | Raises _ s' =>
      entries "_cleanup" (trace s') = S (entries "_cleanup" (trace s))
  | Diverges => True
  end /\
  (forall (w : W) (b : option handle) (tr : list event),
     _cleanup env
       {| world := w; self := {| browser := b; secondary_browser := None |};
          trace := tr |} =
     Returns tt
       {| world := w; self := {| browser := b; secondary_browser := None |};
          trace := (tr ++ [Enter "_cleanup"])%list |}) /\
  ((platform cfg =? "kick") = false ->
   watch_stream env fuel cfg s <> Diverges) /\
  (forall fuel',
     (fuel <= fuel')%nat ->
     watch_stream env fuel cfg s <> Diverges ->
     watch_stream env fuel' cfg s = watch_stream env fuel cfg s).
Proof.
  split; [|split; [exact _cleanup_without_secondary|split]].
  - unfold watch_stream. rewrite def_run. unfold try_finally.
    pose proof (watch_stream_try_no_cleanup fuel cfg
                  (observe (Enter "watch_stream") s)) as Htry.
    assert (Hstart : forall s1,
               emitting not_cleanup (observe (Enter "watch_stream") s) s1 ->
               entries "_cleanup" (trace s1) = entries "_cleanup" (trace s)).
    { intros s1 (evs & Htr & Hevs). rewrite Htr. cbn [observe trace].
      rewrite !entries_app, (entries_none "_cleanup" evs Hevs).
      count_entries. }
    destruct (watch_stream_try env fuel cfg (observe (Enter "watch_stream") s))
      as [v s1|e s1|]; trivial;
      pose proof (_cleanup_entered s1) as Hfin;
      destruct (_cleanup env s1) as [[] s2|e2 s2|]; try contradiction;
      now rewrite Hfin, (Hstart s1 Htry).
  - intros Hplatform Hdiverges.
    pose proof (watch_stream_ends_off_kick fuel cfg Hplatform s) as Hends.
    now rewrite Hdiverges in Hends.
  - intros fuel' Hle. exact (watch_stream_fuel fuel fuel' cfg Hle s).
Qed.

(** ** The secondary session handle *)

Lemma _cleanup_returns (s s' : state W) :
  _cleanup env s = Returns tt s' -> secondary_browser (self s') = None.
Proof.
  unfold _cleanup. rewrite def_run. run_monad.
  destruct (secondary_browser (self s)) as [d|] eqn:Hsec; cbn.
  - destruct (browser (self s)) as [b|]; cbn; [|discriminate].
    rewrite extern_answer.
    destruct (fst (respond env (quit_extra_driver b) _)); [|discriminate].
    intros [= <-]. reflexivity.
  - intros [= <-]. exact Hsec.
Qed.

Lemma _cleanup_again (s : state W) :
  secondary_browser (self s) = None ->
  _cleanup env s = Returns tt (observe (Enter "_cleanup") s).
Proof.
  destruct s as [w [b sec] tr]. cbn. intros ->.
  apply _cleanup_without_secondary.
Qed.

Lemma watch_stream_returns (fuel : nat) (cfg : StreamPlatformConfig)
    (s s' : state W) :
  watch_stream env fuel cfg s = Returns tt s' ->
  secondary_browser (self s') = None.
Proof.
  unfold watch_stream. rewrite def_run. unfold try_finally.
  destruct (watch_stream_try env fuel cfg _) as [v s1|e s1|]; try discriminate;
    destruct (_cleanup env s1) as [u s2|e2 s2|] eqn:Hfin; try discriminate.
  destruct v, u. intros [= <-]. exact (_cleanup_returns s1 s2 Hfin).
Qed.

Lemma watch_stream_raises (fuel : nat) (cfg : StreamPlatformConfig)
    (s s' : state W) (e : exn) :
  watch_stream env fuel cfg s = Raises e s' ->
  secondary_browser (self s') = None \/
  exists s1, _cleanup env s1 = Raises e s'.
Proof.
  unfold watch_stream. rewrite def_run. unfold try_finally.
  destruct (watch_stream_try env fuel cfg _) as [v s1|e1 s1|]; try discriminate;
    destruct (_cleanup env s1) as [u s2|e2 s2|] eqn:Hfin; try discriminate;
    intros [= <- <-].
  - right. now exists s1.
  - left. destruct u. exact (_cleanup_returns s1 s2 Hfin).
  - right. now exists s1.
Qed.

Lemma set_only_by_setup_reset (v : StreamViewer) (s : state W) :
  secondary_browser v = None -> set_only_by_setup s (with_self v s).
Proof.
  intros Hv. exists []. split; [symmetry; apply app_nil_r | now right; left].
Qed.

Lemma set_browser_keeps (b : option handle) :
  respects True set_only_by_setup (set_browser (W := W) b).
Proof.
  intros s. run_monad. exists [].
  split; [symmetry; apply app_nil_r | now left].
Qed.

Lemma set_secondary_browser_None :
  respects True set_only_by_setup (set_secondary_browser (W := W) None).
Proof.
  intros s. run_monad. exists [].
  split; [symmetry; apply app_nil_r | now right; left].
Qed.

Ltac setup_side :=
  intros;
  first [ apply set_only_by_setup_event
        | apply set_only_by_setup_reset; reflexivity ].

(** A run of [_setup_secondary_viewer] carries its own entry. *)
Lemma _setup_secondary_viewer_marked (cfg : StreamPlatformConfig) :
  respects True set_only_by_setup (_setup_secondary_viewer env cfg).
Proof.
  intros s. unfold _setup_secondary_viewer. rewrite def_run.
  match goal with
  | |- context [?body (observe ?ev s)] =>
      assert (Hbody : respects True (emitting (fun _ => True)) body)
        by emitting_tac;
      specialize (Hbody (observe ev s));
      destruct (body (observe ev s)) as [v s'|e s'|]; trivial;
      destruct Hbody as (evs & Htr & _);
      exists (ev :: evs);
      (split; [rewrite Htr; cbn; now rewrite <- app_assoc
              | right; right; now left])
  end.
Qed.

Ltac setup_special :=
  idtac;
  lazymatch goal with
  | |- respects _ set_only_by_setup (_setup_secondary_viewer _ _) =>
      apply _setup_secondary_viewer_marked
  | |- respects _ set_only_by_setup (set_browser _) =>
      apply set_browser_keeps
  | |- respects _ set_only_by_setup (set_secondary_browser None) =>
      apply set_secondary_browser_None
  end.

Ltac setup_tac := respects_with setup_special setup_side.

Lemma watch_stream_set_only_by_setup (fuel : nat)
    (cfg : StreamPlatformConfig) :
  respects True set_only_by_setup (watch_stream env fuel cfg).
Proof. setup_tac. Qed.

Lemma main_set_only_by_setup (fuel : nat) :
  respects True set_only_by_setup (main env fuel).
Proof. setup_tac. Qed.

Lemma check_twitch_stream_set_only_by_setup (username : string)
    (cfg : TwitchConfig) :
  respects True set_only_by_setup (check_twitch_stream env username cfg).
Proof. setup_tac. Qed.

Lemma handle_captcha_and_consent_set_only_by_setup (b : handle) (rt : Z) :
  respects True set_only_by_setup (handle_captcha_and_consent env b rt).
Proof. setup_tac. Qed.

(** C9, as the code has it.  [self.secondary_browser] is [None] in a new
    [StreamViewer]; whenever [_cleanup] returns it has reset it to [None],
    and a [_cleanup] that follows is then a no-op; it is [None] after every
    [watch_stream] that returns, and after every [watch_stream] that raises
    unless the exception raised is the one [_cleanup] itself raised; and
    across a run of [check_twitch_stream], [handle_captcha_and_consent],
    [watch_stream] or [main] it can end with a value that is neither the
    one it had nor [None] only if [_setup_secondary_viewer] was entered
    during the run. *)
Theorem secondary_browser_lifecycle :
  secondary_browser StreamViewer_init = None /\
  (forall s s',
     _cleanup env s = Returns tt s' ->
     secondary_browser (self s') = None /\
     _cleanup env s' = Returns tt (observe (Enter "_cleanup") s')) /\
  (forall fuel cfg s s',
     watch_stream env fuel cfg s = Returns tt s' ->
     secondary_browser (self s') = None) /\
  (forall fuel cfg s e s',
     watch_stream env fuel cfg s = Raises e s' ->
     secondary_browser (self s') = None \/
     exists s1, _cleanup env s1 = Raises e s') /\
  (forall username cfg,
     respects True set_only_by_setup (check_twitch_stream env username cfg)) /\
  (forall b reconnect_time,
     respects True set_only_by_setup
       (handle_captcha_and_consent env b reconnect_time)) /\
  (forall fuel cfg,
     respects True set_only_by_setup (watch_stream env fuel cfg)) /\
  (forall fuel, respects True set_only_by_setup (main env fuel)).
Proof.
  split; [reflexivity|].
  split.
  { intros s s' Hret. pose proof (_cleanup_returns s s' Hret) as Hnone.
    split; [exact Hnone | exact (_cleanup_again s' Hnone)]. }
  split; [exact watch_stream_returns|].
  split; [intros fuel cfg s e s'; apply watch_stream_raises|].
  split; [exact check_twitch_stream_set_only_by_setup|].
  split; [exact handle_captcha_and_consent_set_only_by_setup|].
  split; [exact watch_stream_set_only_by_setup|].
  exact main_set_only_by_setup.
Qed.

(** ** Polling for the end of the stream *)

(** One turn of the loop of lines 133-134: the player is looked for; when
    it is not visible the loop is left, when it is visible the driver
    sleeps ten units and looks again. *)
Lemma while_player_visible_turn (fuel : nat) (b : handle) (s : state W) :
  browser (self s) = Some b ->
  while_player_visible env (S fuel) s =
  match respond env (is_element_visible b channel_player) (world s) with
  | (inl true, w) =>
      (extern env (sleep b 10) ;; while_player_visible env fuel)
        (answered (is_element_visible b channel_player) w s)
  | (inl false, w) =>
      Returns tt (answered (is_element_visible b channel_player) w s)
  | (inr e, w) =>
      Raises e (answered (is_element_visible b channel_player) w s)
  end.
Proof.
  intros Hb. cbn [while_player_visible].
  unfold self_browser, get_self, bind at 1 2. rewrite Hb. unfold ret.
  unfold bind at 1. rewrite extern_answer.
  destruct (respond env (is_element_visible b channel_player) (world s))
    as [[[|]|e] w]; cbn [fst snd]; try reflexivity.
  unfold bind at 1 2. cbn [answered self]. rewrite Hb. reflexivity.
Qed.

(** C4, for the twitch variant.  A run of [_watch_twitch_stream] always
    ends and never polls: after the liveness check and, when it is
    positive, the set-up of the secondary session, the function returns
    without one visibility test of the player and without one ten-unit
    sleep.  (The kick variant does poll: see [_watch_kick_stream].) *)
Theorem watch_twitch_stream_never_polls (cfg : StreamPlatformConfig)
    (s : state W) :
  match _watch_twitch_stream env cfg s with
  | Returns _ s' | Raises _ s' =>
      exists evs, trace s' = (trace s ++ evs)%list /\ Forall no_poll evs
  | Diverges => False
  end.
Proof.
  assert (H : respects False (emitting no_poll) (_watch_twitch_stream env cfg))
    by emitting_tac.
  exact (H s).
Qed.

(** ** Where the liveness check looks *)

Lemma begins_then (pre : list event) (P : event -> Prop) (s1 s2 s3 : state W) :
  begins pre P s1 s2 -> emitting P s2 s3 -> begins pre P s1 s3.
Proof.
  intros (evs1 & H1 & HP1) (evs2 & H2 & HP2). exists (evs1 ++ evs2)%list.
  split; [now rewrite H2, H1, <- !app_assoc | apply Forall_app; now split].
Qed.

Section Begins.

Variable pre : list event.
Variable P : event -> Prop.

Lemma starts_extern {T} (c : call T) : starts P [Call c] (extern env c).
Proof.
  intros s. rewrite extern_answer.
  destruct (fst (respond env c (world s)));
    (exists []; split; [reflexivity | constructor]).
Qed.

Lemma starts_bind {A B} (m : M W A) (k : A -> M W B) :
  starts P pre m -> (forall v, respects False (emitting P) (k v)) ->
  starts P pre (bind m k).
Proof.
  intros Hm Hk s. unfold bind. specialize (Hm s).
  destruct (m s) as [v s1|e s1|]; trivial.
  specialize (Hk v s1).
  destruct (k v s1); trivial; now apply begins_then with s1.
Qed.

Lemma starts_try_except {A} (m : M W A) (catches : exn -> bool)
    (handler : exn -> M W A) :
  starts P pre m -> (forall e, respects False (emitting P) (handler e)) ->
  starts P pre (try_except m catches handler).
Proof.
  intros Hm Hh s. unfold try_except. specialize (Hm s).
  destruct (m s) as [v s1|e s1|]; trivial.
  destruct (catches e); trivial.
  specialize (Hh e s1).
  destruct (handler e s1); trivial; now apply begins_then with s1.
Qed.

Lemma starts_def {A} (name : string) (body : M W A) :
  starts P pre body -> starts P (Enter name :: pre) (def name body).
Proof.
  intros Hbody s. rewrite def_run. specialize (Hbody (observe (Enter name) s)).
  destruct (body _) as [v s1|e s1|]; trivial;
    destruct Hbody as (evs & Htr & HP); exists evs;
    (split; [rewrite Htr; cbn; now rewrite <- app_assoc | exact HP]).
Qed.

Lemma starts_retry {A} (mx : Z) (wait : Z -> Z) (fn : M W A) :
  starts P pre fn -> respects False (emitting P) fn ->
  (forall d, P (TimeSleep d)) ->
  starts P pre (retry env mx wait fn).
Proof.
  intros Hfirst Hfn Hnap s. unfold retry. rewrite Retrying_turn.
  specialize (Hfirst s). destruct (fn s) as [v s1|e s1|]; trivial.
  destruct (is_Exception e); trivial.
  destruct (stop_after_attempt mx 1); trivial.
  assert (Hrest : respects False (emitting P)
                    (Retrying env mx wait fn (1 + 1))).
  { apply respects_Retrying; [exact _ | exact Hfn |].
    intros d s0. now apply emitting_time_sleep. }
  assert (Hsleep : respects False (emitting P) (time_sleep env (wait 1))).
  { apply respects_time_sleep; [exact _|].
    intros d s0. now apply emitting_time_sleep. }
  specialize (Hsleep s1).
  destruct (time_sleep env (wait 1) s1) as [[] s2|e2 s2|]; trivial;
    [|now apply begins_then with s1].
  specialize (Hrest s2).
  destruct (Retrying env mx wait fn (1 + 1) s2); trivial;
    (apply begins_then with s1; [exact Hfirst|];
     transitivity s2; [exact Hsleep | exact Hrest]).
Qed.

End Begins.

Lemma check_twitch_stream_requests (username : string) (cfg : TwitchConfig) :
  starts (only_liveness_request username cfg)
    [Enter "check_twitch_stream"; Call (liveness_request username cfg)]
    (check_twitch_stream env username cfg).
Proof.
  unfold check_twitch_stream, retry_on_exception.
  apply starts_retry; [| emitting_tac | intros d; exact I].
  unfold wrapper. apply starts_try_except; [|intros e; emitting_tac].
  apply starts_def. unfold check_twitch_stream_body.
  apply starts_try_except; [|intros e; emitting_tac].
  apply starts_bind; [apply starts_extern | intros r; emitting_tac].
Qed.

(** C10.  Every HTTP request [check_twitch_stream] makes, and it makes at
    least one, is a GET of [https://www.twitch.tv/<username>] with the
    Client-ID of its configuration.  [_watch_twitch_stream] is that check,
    made for the username of the platform configuration with the
    hard-coded Client-ID and the marker "isLiveBroadcast", followed by the
    set-up of the secondary session exactly when the check answers true;
    when the first response is no HTTP error, the answer is whether the
    marker "isLiveBroadcast" occurs in its text.  So two runs of
    [_watch_twitch_stream] from the same state whose configurations agree
    on the username share the outcome of that one liveness check, whatever
    their [base_url]. *)
Theorem twitch_liveness_ignores_base_url :
  (forall username cfg s,
     match check_twitch_stream env username cfg s with
     | Returns _ s' | Raises _ s' =>
         exists evs,
           trace s' =
             (trace s ++
              [Enter "check_twitch_stream";
               Call (requests_get ("https://www.twitch.tv/" ++ username)
                       [("Client-ID", client_id cfg)] 10)] ++ evs)%list /\
           Forall (only_liveness_request username cfg) evs
     | Diverges => False
     end) /\
  (forall cfg s,
     _watch_twitch_stream env cfg s =
     match check_twitch_stream env (username cfg)
             {| client_id := "kimne78kx3ncx6brgo4mv6wki5h1ko";
                live_indicator := "isLiveBroadcast" |}
             (observe (Enter "_watch_twitch_stream") s) with
     | Returns true s1 => _setup_secondary_viewer env cfg s1
     | Returns false s1 => Returns tt s1
     | Raises e s1 => Raises e s1
     | Diverges => Diverges
     end) /\
  (forall cfg s r w,
     respond env
       (requests_get ("https://www.twitch.tv/" ++ username cfg)
          [("Client-ID", "kimne78kx3ncx6brgo4mv6wki5h1ko")] 10)
       (world s) = (inl r, w) ->
     is_http_error r = false ->
     _watch_twitch_stream env cfg s =
     if str_in "isLiveBroadcast" (text r) then
       _setup_secondary_viewer env cfg
         {| world := w; self := self s;
            trace :=
              (trace s ++
               [Enter "_watch_twitch_stream"; Enter "check_twitch_stream";
                Call (requests_get ("https://www.twitch.tv/" ++ username cfg)
                        [("Client-ID", "kimne78kx3ncx6brgo4mv6wki5h1ko")]
                        10)])%list |}
     else
       Returns tt
         {| world := w; self := self s;
            trace :=
              (trace s ++
               [Enter "_watch_twitch_stream"; Enter "check_twitch_stream";
                Call (requests_get ("https://www.twitch.tv/" ++ username cfg)
                        [("Client-ID", "kimne78kx3ncx6brgo4mv6wki5h1ko")]
                        10)])%list |}) /\
  (forall cfg1 cfg2 s,
     username cfg1 = username cfg2 ->
     forall cfg, cfg = cfg1 \/ cfg = cfg2 ->
       _watch_twitch_stream env cfg s =
       match check_twitch_stream env (username cfg1)
               {| client_id := "kimne78kx3ncx6brgo4mv6wki5h1ko";
                  live_indicator := "isLiveBroadcast" |}
               (observe (Enter "_watch_twitch_stream") s) with
       | Returns true s1 => _setup_secondary_viewer env cfg s1
       | Returns false s1 => Returns tt s1
       | Raises e s1 => Raises e s1
       | Diverges => Diverges
       end).
Proof.
  assert (Hrun : forall cfg s,
            _watch_twitch_stream env cfg s =
            match check_twitch_stream env (username cfg) TwitchConfig_default
                    (observe (Enter "_watch_twitch_stream") s) with
            | Returns true s1 => _setup_secondary_viewer env cfg s1
            | Returns false s1 => Returns tt s1
            | Raises e s1 => Raises e s1
            | Diverges => Diverges
            end).
  { intros cfg s. unfold _watch_twitch_stream. rewrite def_run.
    cbv zeta. unfold bind.
    destruct (check_twitch_stream env (username cfg) TwitchConfig_default _)
      as [[|] s1|e s1|]; reflexivity. }
  split; [|split; [|split]].
  - intros username cfg s. exact (check_twitch_stream_requests username cfg s).
  - intros cfg s. exact (Hrun cfg s).
  - intros cfg s r w Hr Herr. rewrite Hrun.
    pose proof (check_twitch_stream_on_response (username cfg)
                  TwitchConfig_default
                  (observe (Enter "_watch_twitch_stream") s) r w Hr) as H.
    cbv zeta in H. rewrite Herr in H. rewrite H.
    cbn [TwitchConfig_default live_indicator].
    unfold answered, observe, liveness_request.
    cbn [world self trace TwitchConfig_default client_id].
    rewrite <- !app_assoc. cbn [app].
    destruct (str_in "isLiveBroadcast" (text r)); reflexivity.
  - intros cfg1 cfg2 s Hname cfg [->| ->]; rewrite Hrun, <- ?Hname;
      reflexivity.
Qed.

(** ** The entry point *)

Lemma main_run (fuel : nat) (s : state W) :
  main env fuel s =
  match main_try env fuel (main_start s) with
  | Returns _ s1 => Returns tt s1
  | Raises e s1 => top_level e s1
  | Diverges => Diverges
  end.
Proof.
  unfold main. rewrite def_run. unfold main_start, top_level.
  run_monad.
  destruct (main_try env fuel _) as [[] s1|e s1|]; reflexivity.
Qed.

(** ** Challenge handling *)

Lemma handle_captcha_and_consent_split (b : handle) (reconnect_time : Z)
    (s : state W) :
  handle_captcha_and_consent env b reconnect_time s =
  (until_settled env b reconnect_time ;;
   present <- extern env (is_element_present b accept_button) ;;
   if present then extern env (uc_click b accept_button reconnect_time)
   else ret tt) s.
Proof.
  unfold handle_captcha_and_consent, until_settled. rewrite def_run.
  unfold bind at 1 2 3 4. unfold bind at 2. rewrite def_run.
  unfold bind at 2 3 4.
  repeat match goal with
         | |- context [match extern env ?c ?s0 with _ => _ end] =>
             destruct (extern env c s0) as [[] ?|? ?|]; try reflexivity
         end.
Qed.

Lemma until_settled_trace (b : handle) (reconnect_time : Z)
    (s s4 : state W) :
  until_settled env b reconnect_time s = Returns tt s4 ->
  trace s4 =
    (trace s ++
     [Enter "handle_captcha_and_consent"; Call (sleep b 1);
      Call (uc_gui_click_captcha b); Call (uc_gui_handle_captcha b);
      Call (sleep b reconnect_time)])%list /\
  self s4 = self s.
Proof.
  unfold until_settled. rewrite def_run. unfold bind.
  rewrite !extern_answer.
  repeat match goal with
         | |- context [match fst (respond env ?c ?w) with _ => _ end] =>
             destruct (fst (respond env c w)) as [[]|]; try discriminate;
             rewrite ?extern_answer
         end.
  intros [= <-]. unfold answered, observe. cbn.
  rewrite <- !app_assoc. split; reflexivity.
Qed.

(** C8, as the code has it.  Once the settle pause has been taken, the
    next thing [handle_captcha_and_consent] does is to ask the browser
    whether the Accept button is present in the page
    ([is_element_present], which does not look at visibility); when the
    answer is yes it clicks the button, and that click is the last thing
    it does; when the answer is no it returns at once, without a click and
    without an error. *)
Theorem consent_clicked_iff_present (b : handle) (reconnect_time : Z)
    (s s4 : state W) :
  until_settled env b reconnect_time s = Returns tt s4 ->
  trace s4 =
    (trace s ++
     [Enter "handle_captcha_and_consent"; Call (sleep b 1);
      Call (uc_gui_click_captcha b); Call (uc_gui_handle_captcha b);
      Call (sleep b reconnect_time)])%list /\
  (forall w,
     respond env (is_element_present b accept_button) (world s4)
       = (inl true, w) ->
     exists s',
       final (handle_captcha_and_consent env b reconnect_time s) = Some s' /\
       trace s' =
         (trace s4 ++
          [Call (is_element_present b accept_button);
           Call (uc_click b accept_button reconnect_time)])%list) /\
  (forall w,
     respond env (is_element_present b accept_button) (world s4)
       = (inl false, w) ->
     handle_captcha_and_consent env b reconnect_time s =
     Returns tt
       {| world := w; self := self s4;
          trace := (trace s4 ++
                    [Call (is_element_present b accept_button)])%list |}).
Proof.
  intros Hsettled.
  split; [exact (proj1 (until_settled_trace b reconnect_time s s4 Hsettled))|].
  split; intros w Hanswer; rewrite handle_captcha_and_consent_split;
    unfold bind at 1; rewrite Hsettled; unfold bind;
    rewrite extern_answer, Hanswer; cbn [fst snd].
  - rewrite extern_answer.
    destruct (fst (respond env (uc_click b accept_button reconnect_time) _));
      (eexists; split; [reflexivity|]);
      unfold answered; cbn [trace]; now rewrite <- app_assoc.
  - reflexivity.
Qed.

(** ** The retry decorator around any operation *)

Lemma wrapper_run {A} (mx : Z) (name : string) (func : M W A) (s : state W) :
  wrapper mx name func s =
  match func (observe (Enter name) s) with
  | Returns v s1 => Returns v s1
  | Raises e s1 =>
      if is_Exception e then
        Raises (failed_after mx e) (observe (error_in name e) s1)
      else Raises e s1
  | Diverges => Diverges
  end.
Proof.
  unfold wrapper, try_except, def, bind, emit.
  destruct (func _) as [v s1|e s1|]; reflexivity.
Qed.

Lemma Retrying_recovers {A} (mx ws : Z) (name : string) (func : M W A)
    (v : A) (s_end : state W) :
  forall (failures : list (exn * state W)) (n : Z) (s : state W),
    recovering env name ws func n s failures v s_end ->
    n + Z.of_nat (length failures) <= Z.max n mx ->
    Retrying env mx (retry_wait ws) (wrapper mx name func) n s
      = Returns v s_end.
Proof.
  induction failures as [|[e s1] later IH]; intros n s Hrec Hlen;
    cbn [recovering] in Hrec; rewrite Retrying_turn, wrapper_run.
  - now rewrite Hrec.
  - destruct Hrec as (Hf & He & s2 & Hsleep & Hlater). rewrite Hf, He.
    cbn [is_Exception failed_after length] in *.
    destruct (stop_after_attempt mx n) as [Hstop|Hgo]; [lia|].
    rewrite Hsleep. apply IH; [exact Hlater | lia].
Qed.

(** X1.  When the operation under [retry_on_exception] fails with an
    [Exception] on its first attempts and then returns, and the failed
    attempts are fewer than [max(1, max_attempts)], the decorated call
    returns what the operation returned, in the state the operation left:
    each failure was recorded and followed by its nap, and nothing is
    added after the success. *)
Theorem retry_on_exception_recovers {A} (max_attempts wait_seconds : Z)
    (name : string) (func : M W A) (s : state W)
    (failures : list (exn * state W)) (v : A) (s' : state W) :
  recovering env name wait_seconds func 1 s failures v s' ->
  Z.of_nat (length failures) < Z.max 1 max_attempts ->
  retry_on_exception env max_attempts wait_seconds name func s = Returns v s'.
Proof.
  intros Hrec Hlen. unfold retry_on_exception, retry.
  apply (Retrying_recovers max_attempts wait_seconds name func v s' failures 1 s
           Hrec).
  lia.
Qed.

(** *** Counting attempts *)

Lemma tally_app (p : event -> bool) (tr1 tr2 : list event) :
  tally p (tr1 ++ tr2)%list = (tally p tr1 + tally p tr2)%nat.
Proof. unfold tally. now rewrite filter_app, length_app. Qed.

Lemma tally_none (p : event -> bool) (evs : list event) :
  Forall (fun ev => p ev = false) evs -> tally p evs = O.
Proof.
  unfold tally. induction 1 as [|ev evs Hev _ IH]; simpl.
  - reflexivity.
  - now rewrite Hev.
Qed.

Lemma tally_one (p : event -> bool) (ev : event) :
  tally p [ev] = if p ev then 1%nat else O.
Proof. unfold tally. cbn. now destruct (p ev). Qed.

(** The loop makes at most as many attempts as the stop condition lets
    it, and naps once, for the time the schedule gives, between two
    attempts: [p] marks what each attempt adds once to the trace. *)
Lemma Retrying_tally {A} (D : Prop) (p : event -> bool) (mx : Z)
    (wait : Z -> Z) (fn : M W A) :
  (forall d, p (TimeSleep d) = false) ->
  (forall s,
     match fn s with
     | Returns _ s' | Raises _ s' =>
         tally p (trace s') = S (tally p (trace s)) /\
         naps (trace s') = naps (trace s)
     | Diverges => D
     end) ->
  forall (k : nat) (n : Z) (s : state W),
    k = Z.to_nat (mx - n) ->
    match Retrying env mx wait fn n s with
    | Returns _ s' | Raises _ s' =>
        exists j : nat,
          (j <= k)%nat /\
          tally p (trace s') = (tally p (trace s) + S j)%nat /\
          naps (trace s') =
            (naps (trace s) ++ map wait (attempt_numbers n j))%list
    | Diverges => D
    end.
Proof.
  intros Hp Hfn.
  assert (Hlast : forall (k : nat) (n : Z) (s s1 : state W),
             tally p (trace s1) = S (tally p (trace s)) /\
             naps (trace s1) = naps (trace s) ->
             exists j : nat,
               (j <= k)%nat /\
               tally p (trace s1) = (tally p (trace s) + S j)%nat /\
               naps (trace s1) =
                 (naps (trace s) ++ map wait (attempt_numbers n j))%list).
  { intros k n s s1 [Ht Hn]. exists O. split; [lia|]. split; [lia|].
    cbn. now rewrite app_nil_r. }
  induction k as [|k IH]; intros n s Hk; rewrite Retrying_turn;
    pose proof (Hfn s) as Hs; destruct (fn s) as [v s1|e s1|]; trivial;
    try (now apply Hlast);
    destruct (is_Exception e); try (now apply Hlast);
    destruct (stop_after_attempt mx n) as [Hstop|Hgo];
    try (now apply Hlast); try lia.
  unfold time_sleep.
  destruct (sleep_refusal (wait n)); [now apply Hlast|].
  specialize (IH (n + 1) (napped env (wait n) s1) ltac:(lia)).
  destruct Hs as [Ht Hn].
  destruct (Retrying env mx wait fn (n + 1) (napped env (wait n) s1))
    as [v' s'|e' s'|]; trivial;
    destruct IH as (j & Hj & Htj & Hnj); exists (S j);
    (split; [lia|]);
    rewrite Htj, Hnj; cbn [napped trace attempt_numbers map];
    rewrite tally_app, naps_app, tally_one, Hp, Ht, Hn; cbn;
    (split; [lia | now rewrite <- app_assoc]).
Qed.

Lemma retry_wait_bounds (wait_seconds n : Z) :
  0 <= retry_wait wait_seconds n <= Z.max wait_seconds MAX_WAIT.
Proof.
  unfold retry_wait, wait_exponential.
  assert (0 < MAX_WAIT) by reflexivity.
  generalize dependent MAX_WAIT. intros cap Hcap. lia.
Qed.

Lemma wrapper_one_entry {A} (mx : Z) (name : string) (func : M W A) :
  quiet name func ->
  forall s,
    match wrapper mx name func s with
    | Returns _ s' | Raises _ s' =>
        tally (is_enter name) (trace s') = S (tally (is_enter name) (trace s)) /\
        naps (trace s') = naps (trace s)
    | Diverges => True
    end.
Proof.
  intros Hquiet s. rewrite wrapper_run.
  specialize (Hquiet (observe (Enter name) s)).
  change (tally (is_enter name)) with (entries name).
  cbn [observe trace] in Hquiet.
  rewrite entries_app, naps_app, entries_enter in Hquiet. cbn in Hquiet.
  rewrite app_nil_r in Hquiet.
  destruct (func (observe (Enter name) s)) as [v s1|e s1|]; trivial.
  - split; [lia | tauto].
  - destruct (is_Exception e); [|split; [lia | tauto]].
    unfold error_in. cbn [observe trace].
    rewrite entries_app, naps_app. cbn. rewrite app_nil_r.
    split; [count_entries | tauto].
Qed.

(** X2.  Around an operation whose own events are neither entries of
    [name] nor naps, a call decorated by [retry_on_exception] that ends
    has invoked the operation at least once and at most
    [max(1, max_attempts)] times, and has napped exactly once between two
    consecutive invocations, for the durations
    [retry_wait wait_seconds 1], [retry_wait wait_seconds 2], ... in that
    order; no nap is negative or longer than
    [max(wait_seconds, MAX_WAIT)]. *)
Theorem retry_on_exception_budget {A} (max_attempts wait_seconds : Z)
    (name : string) (func : M W A) (s : state W) :
  quiet name func ->
  match retry_on_exception env max_attempts wait_seconds name func s with
  | Returns _ s' | Raises _ s' =>
      exists retries : nat,
        Z.of_nat retries < Z.max 1 max_attempts /\
        entries name (trace s') = (entries name (trace s) + S retries)%nat /\
        naps (trace s') =
          (naps (trace s)
             ++ map (retry_wait wait_seconds) (attempt_numbers 1 retries))%list /\
        Forall (fun d => 0 <= d <= Z.max wait_seconds MAX_WAIT)
          (map (retry_wait wait_seconds) (attempt_numbers 1 retries))
  | Diverges => True
  end.
Proof.
  intros Hquiet. unfold retry_on_exception, retry.
  pose proof (Retrying_tally True (is_enter name) max_attempts
                (retry_wait wait_seconds)
                (wrapper max_attempts name func)
                (fun d => eq_refl)
                (wrapper_one_entry max_attempts name func Hquiet)
                (Z.to_nat (max_attempts - 1)) 1 s eq_refl) as H.
  destruct (Retrying env max_attempts (retry_wait wait_seconds)
              (wrapper max_attempts name func) 1 s) as [v s'|e s'|]; trivial;
    destruct H as (j & Hj & Ht & Hn); exists j;
    (split; [lia|]); (split; [exact Ht|]); (split; [exact Hn|]);
    apply Forall_forall; intros d Hd;
    apply in_map_iff in Hd as (n & <- & _); apply retry_wait_bounds.
Qed.



(** ** The viewer object across a run *)

#[local] Instance keeps_self_preorder :
  RelationClasses.PreOrder (keeps_self (W := W)).
Proof.
  split.
  - intros s. reflexivity.
  - intros s1 s2 s3 H12 H23. unfold keeps_self in *. congruence.
Qed.

#[local] Instance keeps_browser_preorder :
  RelationClasses.PreOrder (keeps_browser (W := W)).
Proof.
  split.
  - intros s. reflexivity.
  - intros s1 s2 s3 H12 H23. unfold keeps_browser in *. congruence.
Qed.

Ltac keeps_side := intros; reflexivity.

Ltac keeps_browser_special :=
  idtac;
  lazymatch goal with
  | |- respects _ keeps_browser (set_secondary_browser _) =>
      let s := fresh "s" in intros s; reflexivity
  end.

(** ** What a liveness check costs *)

Lemma check_twitch_stream_attempt (username : string) (cfg : TwitchConfig)
    (s : state W) :
  match wrapper 3 "check_twitch_stream"
          (check_twitch_stream_body env username cfg) s with
  | Returns _ s' | Raises _ s' =>
      tally is_request (trace s') = S (tally is_request (trace s)) /\
      naps (trace s') = naps (trace s)
  | Diverges => False
  end.
Proof.
  assert (Hadded : forall (s' : state W) (evs : list event),
             trace s' = (trace s ++ evs)%list ->
             tally is_request evs = 1%nat -> naps evs = [] ->
             tally is_request (trace s') = S (tally is_request (trace s)) /\
             naps (trace s') = naps (trace s)).
  { intros s' evs -> Ht Hn. rewrite tally_app, naps_app, Ht, Hn, app_nil_r.
    split; [lia | reflexivity]. }
  rewrite wrapper_run. unfold check_twitch_stream_body, try_except, bind.
  rewrite extern_answer.
  set (s1 := answered _ _ _).
  assert (Hs1 : trace s1 =
                (trace s ++ [Enter "check_twitch_stream";
                             Call (liveness_request username cfg)])%list).
  { subst s1. cbn [answered observe trace]. now rewrite <- app_assoc. }
  destruct (fst (respond env _ _)) as [r|e].
  - destruct (is_http_error r) eqn:Herr.
    + destruct (raise_for_status_error r s1 Herr) as [msg ->].
      cbn [is_RequestException]. unfold logger_error, emit, ret.
      eapply Hadded; [cbn [observe trace]; rewrite Hs1, <- app_assoc;
                      reflexivity | reflexivity | reflexivity].
    + rewrite (raise_for_status_ok r s1 Herr). unfold ret.
      eapply Hadded; [exact Hs1 | reflexivity | reflexivity].
  - destruct (is_RequestException e) eqn:Hreq.
    + unfold logger_error, emit, ret.
      eapply Hadded; [cbn [observe trace]; rewrite Hs1, <- app_assoc;
                      reflexivity | reflexivity | reflexivity].
    + destruct (is_Exception e).
      * eapply Hadded; [cbn [observe trace]; rewrite Hs1, <- app_assoc;
                        reflexivity | reflexivity | reflexivity].
      * eapply Hadded; [exact Hs1 | reflexivity | reflexivity].
Qed.

Lemma check_twitch_stream_http_only (username : string) (cfg : TwitchConfig) :
  respects False (emitting no_browser_call)
    (check_twitch_stream env username cfg).
Proof. emitting_tac. Qed.

Lemma check_twitch_stream_keeps_self (username : string) (cfg : TwitchConfig) :
  respects False keeps_self (check_twitch_stream env username cfg).
Proof. respects_with fail keeps_side. Qed.

(** X4.  Every call of [check_twitch_stream] ends, leaves the viewer
    object as it was and makes no call into the browser; it sends at least
    one and at most three HTTP requests, and between two requests it naps:
    2 units after the first, 4 after the second, so never for more than 6
    in all. *)
Theorem check_twitch_stream_cost (username : string) (cfg : TwitchConfig)
    (s : state W) :
  match check_twitch_stream env username cfg s with
  | Returns _ s' | Raises _ s' =>
      self s' = self s /\
      exists evs,
        trace s' = (trace s ++ evs)%list /\
        Forall no_browser_call evs /\
        (1 <= requests evs <= 3)%nat /\
        naps evs = firstn (requests evs - 1) [2; 4]
  | Diverges => False
  end.
Proof.
  pose proof (check_twitch_stream_http_only username cfg s) as Hev.
  pose proof (check_twitch_stream_keeps_self username cfg s) as Hself.
  pose proof (Retrying_tally False is_request 3 (retry_wait 2)
                (wrapper 3 "check_twitch_stream"
                   (check_twitch_stream_body env username cfg))
                (fun d => eq_refl)
                (check_twitch_stream_attempt username cfg)
                2%nat 1 s eq_refl) as Hcount.
  unfold check_twitch_stream, retry_on_exception, retry in *.
  destruct (Retrying env 3 (retry_wait 2) _ 1 s) as [v s'|e s'|]; trivial;
    (split; [exact Hself|]);
    destruct Hev as (evs & Htr & Hevs); exists evs;
    (split; [exact Htr|]); (split; [exact Hevs|]);
    destruct Hcount as (j & Hj & Ht & Hn);
    rewrite Htr, tally_app in Ht; rewrite Htr, naps_app in Hn;
    apply app_inv_head in Hn;
    assert (Hreq : requests evs = S j) by (unfold requests; lia);
    rewrite Hreq, Hn;
    (split; [lia|]);
    destruct j as [|[|[|j]]]; try lia; reflexivity.
Qed.

(** ** What a session asks of the libraries *)

(** X5.  Whatever the platform and however the run ends, every call
    [watch_stream] makes carries the arguments the script writes down:
    the browser is started with [uc=True, test=True]; the only page ever
    opened is the stream URL that [urljoin] returned for the
    configuration (none when it raised), with a reconnect time
    of 4 (primary session) or 5 (secondary session); the only element
    looked for or clicked besides the player is the Accept button, clicked
    with a reconnect time of 4; sleeps last 1, 4 or 10 units; a new driver
    is asked for undetectable; HTTP requests carry a timeout of 10. *)
Theorem watch_stream_in_session (fuel : nat) (cfg : StreamPlatformConfig)
    (s : state W) :
  match watch_stream env fuel cfg s with
  | Returns _ s' | Raises _ s' =>
      exists evs,
        trace s' = (trace s ++ evs)%list /\
        Forall (in_session (urljoin env (base_url cfg) (username cfg))) evs
  | Diverges => True
  end.
Proof.
  assert (H : respects True
                (emitting
                   (in_session (urljoin env (base_url cfg) (username cfg))))
                (watch_stream env fuel cfg))
    by respects_with
         ltac:(idtac;
               lazymatch goal with
               | |- respects _ _ (bind (stream_url _ _) _) =>
                   apply respects_stream_url; [exact _|intros ? ?]
               end)
         emitting_side.
  exact (H s).
Qed.

(** X6.  For a platform that is neither "kick" nor "twitch" (the
    comparison is exact, so "Kick" is such a platform), [watch_stream]
    initialises the session and leaves it: the run ends whatever the fuel,
    it tests the visibility of no element, sends no HTTP request, asks for
    no new driver and enters neither of the platform branches. *)
Theorem watch_stream_other_platform (fuel : nat) (cfg : StreamPlatformConfig)
    (s : state W) :
  platform cfg <> "kick" -> platform cfg <> "twitch" ->
  match watch_stream env fuel cfg s with
  | Returns _ s' | Raises _ s' =>
      exists evs,
        trace s' = (trace s ++ evs)%list /\ Forall no_watching evs
  | Diverges => False
  end.
Proof.
  intros Hkick Htwitch.
  apply String.eqb_neq in Hkick. apply String.eqb_neq in Htwitch.
  assert (H : respects False (emitting no_watching)
                (watch_stream env fuel cfg)).
  { unfold watch_stream, watch_stream_try. rewrite Hkick, Htwitch.
    emitting_tac. }
  exact (H s).
Qed.

(** ** The steps of challenge handling *)

Ltac challenge_prefix k :=
  exists k; split; [lia|];
  unfold answered, observe; cbn; rewrite <- ?app_assoc; reflexivity.

Lemma handle_captcha_and_consent_run (b : handle) (reconnect_time : Z)
    (s : state W) :
  match handle_captcha_and_consent env b reconnect_time s with
  | Returns _ s' =>
      self s' = self s /\
      exists k : nat,
        (5 <= k <= 6)%nat /\
        trace s' =
          (trace s ++ Enter "handle_captcha_and_consent"
             :: firstn k (challenge_steps b reconnect_time))%list
  | Raises _ s' =>
      self s' = self s /\
      exists k : nat,
        (1 <= k <= 6)%nat /\
        trace s' =
          (trace s ++ Enter "handle_captcha_and_consent"
             :: firstn k (challenge_steps b reconnect_time))%list
  | Diverges => False
  end.
Proof.
  unfold handle_captcha_and_consent. rewrite def_run. unfold bind.
  repeat (rewrite extern_answer;
          match goal with
          | |- context [match fst (respond env ?c ?w) with _ => _ end] =>
              let v := fresh "v" in
              destruct (fst (respond env c w)) as [v|?]; [destruct v|]
          end);
    (split; [reflexivity|]);
    first [ challenge_prefix 1%nat | challenge_prefix 2%nat
          | challenge_prefix 3%nat | challenge_prefix 4%nat
          | challenge_prefix 5%nat | challenge_prefix 6%nat ].
Qed.

(** X7.  [handle_captcha_and_consent] always ends, never touches the
    viewer object, and what it does is a prefix of six steps on the
    browser it was given, in this order: sleep 1, click the captcha,
    handle the captcha, sleep [reconnect_time], ask whether the Accept
    button is present, click it.  When it returns, it has taken the first
    five steps or all six; when it raises, the step that failed is the
    last one taken and no later step was tried. *)
Theorem handle_captcha_and_consent_steps (b : handle) (reconnect_time : Z)
    (s : state W) :
  match handle_captcha_and_consent env b reconnect_time s with
  | Returns _ s' =>
      self s' = self s /\
      exists k : nat,
        (5 <= k <= 6)%nat /\
        trace s' =
          (trace s ++ Enter "handle_captcha_and_consent"
             :: firstn k (challenge_steps b reconnect_time))%list
  | Raises _ s' =>
      self s' = self s /\
      exists k : nat,
        (1 <= k <= 6)%nat /\
        trace s' =
          (trace s ++ Enter "handle_captcha_and_consent"
             :: firstn k (challenge_steps b reconnect_time))%list
  | Diverges => False
  end.
Proof. exact (handle_captcha_and_consent_run b reconnect_time s). Qed.

(** ** Setting up the secondary session *)

Lemma self_browser_run (method : string) (b : handle) (s : state W) :
  browser (self s) = Some b -> self_browser method s = Returns b s.
Proof. intros Hb. unfold self_browser, bind, get_self. now rewrite Hb. Qed.

Lemma stream_url_run (cfg : StreamPlatformConfig) (s : state W) :
  stream_url env cfg s =
  match urljoin env (base_url cfg) (username cfg) with
  | inl joined => Returns joined s
  | inr e => Raises e s
  end.
Proof.
  unfold stream_url.
  destruct (urljoin env (base_url cfg) (username cfg)); reflexivity.
Qed.

Lemma _setup_secondary_viewer_new_driver (cfg : StreamPlatformConfig)
    (s : state W) (b : handle) :
  browser (self s) = Some b ->
  _setup_secondary_viewer env cfg s =
  (d <- extern env (get_new_driver b true) ;;
   set_secondary_browser (Some d) ;;
   target <- stream_url env cfg ;;
   extern env (uc_open_with_reconnect d target 5) ;;
   handle_captcha_and_consent env d 4)
    (observe (Enter "_setup_secondary_viewer") s).
Proof.
  intros Hb. unfold _setup_secondary_viewer. rewrite def_run.
  unfold bind at 1.
  now rewrite (self_browser_run "get_new_driver" b).
Qed.

Lemma _setup_secondary_viewer_run (cfg : StreamPlatformConfig) (s : state W)
    (b : handle) :
  browser (self s) = Some b ->
  match respond env (get_new_driver b true) (world s) with
  | (inl d, w) =>
      match urljoin env (base_url cfg) (username cfg) with
      | inl target =>
          match _setup_secondary_viewer env cfg s with
          | Returns _ s' | Raises _ s' =>
              self s' = {| browser := Some b; secondary_browser := Some d |} /\
              exists k : nat,
                (k <= 7)%nat /\
                trace s' =
                  (trace s ++
                   [Enter "_setup_secondary_viewer";
                    Call (get_new_driver b true);
                    Call (uc_open_with_reconnect d target 5)] ++
                   firstn k (Enter "handle_captcha_and_consent"
                               :: challenge_steps d 4))%list
          | Diverges => False
          end
      | inr e =>
          _setup_secondary_viewer env cfg s =
          Raises e
            {| world := w;
               self := {| browser := Some b; secondary_browser := Some d |};
               trace := (trace s ++
                         [Enter "_setup_secondary_viewer";
                          Call (get_new_driver b true)])%list |}
      end
  | (inr e, w) =>
      _setup_secondary_viewer env cfg s =
      Raises e
        {| world := w; self := self s;
           trace := (trace s ++
                     [Enter "_setup_secondary_viewer";
                      Call (get_new_driver b true)])%list |}
  end.
Proof.
  intros Hb. rewrite (_setup_secondary_viewer_new_driver cfg s b Hb).
  destruct (respond env (get_new_driver b true) (world s)) as [[d|e] w]
    eqn:Hnew.
  - destruct (urljoin env (base_url cfg) (username cfg)) as [target|e]
      eqn:Hjoin;
      unfold bind at 1; rewrite extern_answer; cbn [observe world];
      rewrite Hnew; cbn [fst snd];
      unfold bind at 1;
      unfold set_secondary_browser, bind at 1, get_self, set_self;
      cbn [answered observe self world trace browser]; rewrite Hb;
      unfold bind at 1; rewrite stream_url_run, Hjoin.
    + unfold bind at 1. rewrite extern_answer. cbn [world].
      destruct (fst (respond env (uc_open_with_reconnect d target 5) w))
        as [[]|e].
      * match goal with
        | |- context [handle_captcha_and_consent env d 4 ?s1] =>
            pose proof (handle_captcha_and_consent_run d 4 s1) as Hrun;
            destruct (handle_captcha_and_consent env d 4 s1) as [[] s'|e s'|];
            [| |contradiction];
            destruct Hrun as (Hself & k & Hk & Htr);
            (split; [rewrite Hself; reflexivity|]);
            exists (S k); (split; [lia|]);
            rewrite Htr; cbn [answered trace firstn];
            rewrite <- !app_assoc; reflexivity
        end.
      * split; [reflexivity|]. exists O. split; [lia|].
        cbn [answered trace firstn]. rewrite <- !app_assoc. reflexivity.
    + now rewrite <- app_assoc.
  - unfold bind at 1. rewrite extern_answer. cbn [observe world].
    rewrite Hnew. cbn [fst snd].
    unfold answered. cbn [observe self trace]. now rewrite <- app_assoc.
Qed.

(** X8.  Inside a session, once [get_new_driver] has returned the new
    driver, [_setup_secondary_viewer] ends with that driver stored in
    [self.secondary_browser] and the primary browser in place, whichever
    way it ends, so that a failure while the stream URL is computed, the
    secondary page loads or its challenge is handled still leaves the
    driver for [_cleanup] to find.  When [urljoin] returns the stream URL,
    what follows the creation is the opening of that URL on the new driver
    with a reconnect time of 5, then a prefix of the steps of challenge
    handling on the new driver with the default reconnect time of 4; when
    [urljoin] raises, the function raises the same exception right after
    the creation, and no page is opened.  When [get_new_driver] raises,
    nothing is stored and nothing else is tried. *)
Theorem setup_secondary_viewer_registers (cfg : StreamPlatformConfig)
    (s : state W) (b : handle) :
  browser (self s) = Some b ->
  (forall d w,
     respond env (get_new_driver b true) (world s) = (inl d, w) ->
     match urljoin env (base_url cfg) (username cfg) with
     | inl target =>
         match _setup_secondary_viewer env cfg s with
         | Returns _ s' | Raises _ s' =>
             self s' = {| browser := Some b; secondary_browser := Some d |} /\
             exists k : nat,
               (k <= 7)%nat /\
               trace s' =
                 (trace s ++
                  [Enter "_setup_secondary_viewer";
                   Call (get_new_driver b true);
                   Call (uc_open_with_reconnect d target 5)] ++
                  firstn k (Enter "handle_captcha_and_consent"
                              :: challenge_steps d 4))%list
         | Diverges => False
         end
     | inr e =>
         _setup_secondary_viewer env cfg s =
         Raises e
           {| world := w;
              self := {| browser := Some b; secondary_browser := Some d |};
              trace := (trace s ++
                        [Enter "_setup_secondary_viewer";
                         Call (get_new_driver b true)])%list |}
     end) /\
  (forall e w,
     respond env (get_new_driver b true) (world s) = (inr e, w) ->
     _setup_secondary_viewer env cfg s =
     Raises e
       {| world := w; self := self s;
          trace := (trace s ++
                    [Enter "_setup_secondary_viewer";
                     Call (get_new_driver b true)])%list |}).
Proof.
  intros Hb. pose proof (_setup_secondary_viewer_run cfg s b Hb) as H.
  split; intros x w Hnew; rewrite Hnew in H; exact H.
Qed.

(** ** Opening the stream page *)

(** X9.  Inside a session, [_initialize_stream_viewing] computes the
    stream URL of the configuration and, when [urljoin] returns it, opens
    it on the session's browser with a reconnect time of 4 and then
    handles the challenge on that same browser with a reconnect time of 4;
    when the page fails to open, challenge handling is not tried.  Either
    way it ends and leaves the viewer object as it was.  When [urljoin]
    raises, the function raises the same exception before any call is
    made.  Outside a session, with [self.browser] still [None], it fails
    with an AttributeError before the URL is computed and before any call
    is made. *)
Theorem initialize_stream_viewing_steps (cfg : StreamPlatformConfig)
    (s : state W) :
  (forall b,
     browser (self s) = Some b ->
     match urljoin env (base_url cfg) (username cfg) with
     | inl target =>
         match _initialize_stream_viewing env cfg s with
         | Returns _ s' =>
             self s' = self s /\
             exists k : nat,
               (5 <= k <= 6)%nat /\
               trace s' =
                 (trace s ++
                  [Enter "_initialize_stream_viewing";
                   Call (uc_open_with_reconnect b target 4);
                   Enter "handle_captcha_and_consent"] ++
                  firstn k (challenge_steps b 4))%list
         | Raises _ s' =>
             self s' = self s /\
             (trace s' =
                (trace s ++
                 [Enter "_initialize_stream_viewing";
                  Call (uc_open_with_reconnect b target 4)])%list \/
              exists k : nat,
                (1 <= k <= 6)%nat /\
                trace s' =
                  (trace s ++
                   [Enter "_initialize_stream_viewing";
                    Call (uc_open_with_reconnect b target 4);
                    Enter "handle_captcha_and_consent"] ++
                   firstn k (challenge_steps b 4))%list)
         | Diverges => False
         end
     | inr e =>
         _initialize_stream_viewing env cfg s =
         Raises e
           {| world := world s; self := self s;
              trace := (trace s ++ [Enter "_initialize_stream_viewing"])%list |}
     end) /\
  (browser (self s) = None ->
   _initialize_stream_viewing env cfg s =
   Raises
     (Exception "AttributeError"
        "'NoneType' object has no attribute 'uc_open_with_reconnect'")
     {| world := world s; self := self s;
        trace := (trace s ++ [Enter "_initialize_stream_viewing"])%list |}).
Proof.
  split.
  - intros b Hb.
    destruct (urljoin env (base_url cfg) (username cfg)) as [target|e]
      eqn:Hjoin;
      unfold _initialize_stream_viewing; rewrite def_run;
      unfold bind at 1;
      rewrite (self_browser_run "uc_open_with_reconnect" b) by exact Hb;
      unfold bind at 1; rewrite stream_url_run, Hjoin; [|reflexivity].
    unfold bind at 1. rewrite extern_answer.
    destruct (fst (respond env (uc_open_with_reconnect b target 4) _))
      as [[]|e].
    + unfold bind at 1.
      rewrite (self_browser_run "sleep" b) by exact Hb.
      match goal with
      | |- context [handle_captcha_and_consent env b 4 ?s1] =>
          pose proof (handle_captcha_and_consent_run b 4 s1) as Hrun;
          destruct (handle_captcha_and_consent env b 4 s1) as [[] s'|e s'|];
          [| |contradiction];
          destruct Hrun as (Hself & k & Hk & Htr);
          (split; [rewrite Hself; reflexivity|])
      end.
      * exists k. split; [exact Hk|]. rewrite Htr.
        cbn [answered observe trace]. rewrite <- !app_assoc. reflexivity.
      * right. exists k. split; [exact Hk|]. rewrite Htr.
        cbn [answered observe trace]. rewrite <- !app_assoc. reflexivity.
    + split; [reflexivity|]. left.
      cbn [answered observe trace]. now rewrite <- app_assoc.
  - intros Hnone. unfold _initialize_stream_viewing. rewrite def_run.
    unfold bind at 1, self_browser, bind at 1, get_self.
    cbn [observe self]. rewrite Hnone. reflexivity.
Qed.

(** ** The kick session from its first look at the player *)

Lemma while_player_visible_shape (b : handle) (fuel : nat) :
  forall s : state W,
    browser (self s) = Some b ->
    match while_player_visible env fuel s with
    | Returns _ s' =>
        self s' = self s /\
        exists rounds : nat,
          (rounds < fuel)%nat /\
          trace s' =
            (trace s ++ poll_rounds b rounds
               ++ [Call (is_element_visible b channel_player)])%list
    | Raises _ s' =>
        self s' = self s /\
        exists rounds : nat,
          (rounds < fuel)%nat /\
          (trace s' =
             (trace s ++ poll_rounds b rounds
                ++ [Call (is_element_visible b channel_player)])%list \/
           trace s' = (trace s ++ poll_rounds b (S rounds))%list)
    | Diverges => True
    end.
Proof.
  induction fuel as [|fuel IH]; intros s Hb; [exact I|].
  rewrite (while_player_visible_turn fuel b s Hb).
  destruct (respond env (is_element_visible b channel_player) (world s))
    as [[[|]|e] w].
  - unfold bind at 1. rewrite extern_answer.
    destruct (fst (respond env (sleep b 10) _)) as [[]|e].
    + match goal with
      | |- context [while_player_visible env fuel ?s1] =>
          specialize (IH s1 Hb);
          destruct (while_player_visible env fuel s1) as [[] s'|e s'|];
          trivial;
          destruct IH as (Hself & rounds & Hrounds & Htr);
          (split; [rewrite Hself; reflexivity|]);
          exists (S rounds); (split; [lia|])
      end.
      * rewrite Htr. cbn [answered trace poll_rounds].
        rewrite <- !app_assoc. reflexivity.
      * destruct Htr as [Htr|Htr]; [left|right]; rewrite Htr;
          cbn [answered trace poll_rounds]; rewrite <- !app_assoc;
          reflexivity.
    + split; [reflexivity|]. exists O. split; [lia|]. right.
      cbn [answered trace poll_rounds]. rewrite <- !app_assoc. reflexivity.
  - split; [reflexivity|]. exists O. split; [lia|]. reflexivity.
  - split; [reflexivity|]. exists O. split; [lia|]. left. reflexivity.
Qed.

Lemma def_emitting {A} (D : Prop) (P : event -> Prop) (name : string)
    (body : M W A) :
  respects D (emitting P) body ->
  forall s,
    match def name body s with
    | Returns _ s' | Raises _ s' =>
        exists evs,
          trace s' = (trace s ++ Enter name :: evs)%list /\ Forall P evs
    | Diverges => D
    end.
Proof.
  intros Hbody s. rewrite def_run. specialize (Hbody (observe (Enter name) s)).
  destruct (body _) as [v s'|e s'|]; trivial;
    destruct Hbody as (evs & Htr & Hevs); exists evs;
    (split; [rewrite Htr; cbn [observe trace]; now rewrite <- app_assoc
            | exact Hevs]).
Qed.

Lemma _setup_secondary_viewer_no_poll (cfg : StreamPlatformConfig)
    (s : state W) :
  match _setup_secondary_viewer env cfg s with
  | Returns _ s' | Raises _ s' =>
      exists evs,
        trace s' = (trace s ++ Enter "_setup_secondary_viewer" :: evs)%list /\
        Forall no_poll evs
  | Diverges => False
  end.
Proof.
  unfold _setup_secondary_viewer. apply def_emitting. emitting_tac.
Qed.

Lemma _setup_secondary_viewer_returns (cfg : StreamPlatformConfig)
    (s s2 : state W) (b : handle) :
  browser (self s) = Some b ->
  _setup_secondary_viewer env cfg s = Returns tt s2 ->
  browser (self s2) = Some b /\ secondary_browser (self s2) <> None.
Proof.
  intros Hb Hrun. pose proof (_setup_secondary_viewer_run cfg s b Hb) as H.
  destruct (respond env (get_new_driver b true) (world s)) as [[d|e] w];
    [|rewrite H in Hrun; discriminate].
  destruct (urljoin env (base_url cfg) (username cfg)) as [target|e];
    [|rewrite H in Hrun; discriminate].
  rewrite Hrun in H. destruct H as [-> _]. split; [reflexivity | discriminate].
Qed.

(** The loop returns exactly when the browser, after having shown the
    player in each round, says that the player is not visible. *)
Lemma while_player_visible_polled (b : handle) (fuel : nat) :
  forall s s' : state W,
    browser (self s) = Some b ->
    while_player_visible env fuel s = Returns tt s' <->
    exists rounds : nat, (rounds < fuel)%nat /\ polled env b rounds s s'.
Proof.
  induction fuel as [|fuel IH]; intros s s' Hb.
  { split; [discriminate | intros (rounds & Hlt & _); lia]. }
  rewrite (while_player_visible_turn fuel b s Hb).
  assert (Hfirst : forall rounds,
             polled env b rounds s s' ->
             match respond env (is_element_visible b channel_player) (world s)
             with
             | (inl true, w1) =>
                 exists (k : nat) (w2 : W),
                   rounds = S k /\
                   respond env (sleep b 10) w1 = (inl tt, w2) /\
                   polled env b k
                     (answered (sleep b 10) w2
                        (answered (is_element_visible b channel_player) w1 s))
                     s'
             | (inl false, w) =>
                 rounds = O /\
                 s' = answered (is_element_visible b channel_player) w s
             | (inr _, _) => False
             end).
  { intros [|rounds] Hpolled; cbn [polled] in Hpolled.
    - destruct Hpolled as (w & -> & ->). now split.
    - destruct Hpolled as (w1 & w2 & -> & Hsleep & Hpolled).
      now exists rounds, w2. }
  destruct (respond env (is_element_visible b channel_player) (world s))
    as [[[|]|e] w] eqn:Hvis.
  - unfold bind at 1. rewrite extern_answer. cbn [answered world].
    destruct (respond env (sleep b 10) w) as [[[]|e] w2] eqn:Hsleep;
      cbn [fst snd].
    + match goal with
      | |- while_player_visible env fuel ?s1 = _ <-> _ =>
          rewrite (IH s1 s' Hb)
      end.
      split.
      * intros (rounds & Hlt & Hpolled). exists (S rounds).
        split; [lia|]. cbn [polled]. exists w, w2.
        split; [exact Hvis|]. split; [exact Hsleep | exact Hpolled].
      * intros (rounds & Hlt & Hpolled).
        destruct (Hfirst rounds Hpolled) as (k & w2' & -> & Hsleep' & Hrest).
        rewrite ?Hsleep in Hsleep'. injection Hsleep' as <-.
        exists k. split; [lia | exact Hrest].
    + split; [discriminate|].
      intros (rounds & Hlt & Hpolled).
      destruct (Hfirst rounds Hpolled) as (k & w2' & _ & Hsleep' & _).
      rewrite ?Hsleep in Hsleep'. discriminate.
  - split.
    + intros [= <-]. exists O. split; [lia|]. cbn [polled]. now exists w.
    + intros (rounds & Hlt & Hpolled).
      destruct (Hfirst rounds Hpolled) as [_ ->]. reflexivity.
  - split; [discriminate|].
    intros (rounds & Hlt & Hpolled). destruct (Hfirst rounds Hpolled).
Qed.

Lemma polled_trace (b : handle) (rounds : nat) :
  forall s s' : state W,
    polled env b rounds s s' ->
    self s' = self s /\
    trace s' =
      (trace s ++ poll_rounds b rounds
         ++ [Call (is_element_visible b channel_player)])%list.
Proof.
  induction rounds as [|rounds IH]; intros s s' Hpolled;
    cbn [polled] in Hpolled.
  - destruct Hpolled as (w & _ & ->). split; reflexivity.
  - destruct Hpolled as (w1 & w2 & _ & _ & Hpolled).
    destruct (IH _ _ Hpolled) as [-> ->]. split; [reflexivity|].
    cbn [answered trace poll_rounds]. rewrite <- !app_assoc. reflexivity.
Qed.

(** X10.  A call of [_watch_kick_stream] inside a session returns in
    exactly two cases.  Either the browser answers the first look by
    saying that the player is not visible: then that look is all the call
    did.  Or the browser answers that the player is visible,
    [_setup_secondary_viewer] returns, and the polling loop runs to its
    end: for a number of rounds, fewer than the fuel, the browser says
    that the player is visible and the driver sleeps ten units, and then
    the browser says that the player is not visible, upon which the call
    returns at once.  In that case the set-up made no poll and stored its
    driver, and after it the call did nothing but poll on the primary
    browser. *)
Theorem watch_kick_stream_shape (fuel : nat) (cfg : StreamPlatformConfig)
    (s s' : state W) (b : handle) :
  browser (self s) = Some b ->
  (_watch_kick_stream env fuel cfg s = Returns tt s' <->
   (exists w,
      respond env (is_element_visible b channel_player) (world s)
        = (inl false, w) /\
      s' = answered (is_element_visible b channel_player) w
             (observe (Enter "_watch_kick_stream") s)) \/
   (exists w s2 rounds,
      respond env (is_element_visible b channel_player) (world s)
        = (inl true, w) /\
      _setup_secondary_viewer env cfg
        (answered (is_element_visible b channel_player) w
           (observe (Enter "_watch_kick_stream") s)) = Returns tt s2 /\
      (rounds < fuel)%nat /\
      polled env b rounds s2 s')) /\
  (_watch_kick_stream env fuel cfg s = Returns tt s' ->
   (fst (respond env (is_element_visible b channel_player) (world s))
      = inl false /\
    self s' = self s /\
    trace s' =
      (trace s ++ [Enter "_watch_kick_stream";
                   Call (is_element_visible b channel_player)])%list) \/
   (fst (respond env (is_element_visible b channel_player) (world s))
      = inl true /\
    secondary_browser (self s') <> None /\
    exists (setup : list event) (rounds : nat),
      (rounds < fuel)%nat /\
      Forall no_poll setup /\
      trace s' =
        (trace s ++
         [Enter "_watch_kick_stream";
          Call (is_element_visible b channel_player)] ++
         Enter "_setup_secondary_viewer" :: setup ++
         poll_rounds b rounds ++
         [Call (is_element_visible b channel_player)])%list)).
Proof.
  intros Hb.
  assert (Hiff :
    _watch_kick_stream env fuel cfg s = Returns tt s' <->
    (exists w,
       respond env (is_element_visible b channel_player) (world s)
         = (inl false, w) /\
       s' = answered (is_element_visible b channel_player) w
              (observe (Enter "_watch_kick_stream") s)) \/
    (exists w s2 rounds,
       respond env (is_element_visible b channel_player) (world s)
         = (inl true, w) /\
       _setup_secondary_viewer env cfg
         (answered (is_element_visible b channel_player) w
            (observe (Enter "_watch_kick_stream") s)) = Returns tt s2 /\
       (rounds < fuel)%nat /\
       polled env b rounds s2 s')).
  { unfold _watch_kick_stream. rewrite def_run.
    unfold bind at 1.
    rewrite (self_browser_run "is_element_visible" b) by exact Hb.
    unfold bind at 1. rewrite extern_answer. cbn [observe world].
    destruct (respond env (is_element_visible b channel_player) (world s))
      as [[[|]|e] w] eqn:Hvis; cbn [fst snd].
    - unfold bind at 1.
      destruct (_setup_secondary_viewer env cfg _) as [[] s2|e s2|] eqn:Hset.
      + destruct ((fun H => _setup_secondary_viewer_returns cfg _ s2 b H Hset)
                    Hb) as [Hb2 _].
        rewrite (while_player_visible_polled b fuel s2 s' Hb2). split.
        * intros (rounds & Hlt & Hpolled). right. now exists w, s2, rounds.
        * intros [(w' & Hfalse & _)|(w' & s2' & rounds & Htrue & Hset' & Hlt
                                      & Hpolled)]; [discriminate|].
          injection Htrue as <-. rewrite Hset in Hset'.
          injection Hset' as <-. now exists rounds.
      + split; [discriminate|].
        intros [(w' & Hfalse & _)|(w' & s2' & rounds & Htrue & Hset' & _)];
          [discriminate|].
        injection Htrue as <-. rewrite Hset in Hset'. discriminate.
      + split; [discriminate|].
        intros [(w' & Hfalse & _)|(w' & s2' & rounds & Htrue & Hset' & _)];
          [discriminate|].
        injection Htrue as <-. rewrite Hset in Hset'. discriminate.
    - split.
      + intros [= <-]. left. now exists w.
      + intros [(w' & Hfalse & ->)|(w' & s2' & rounds & Htrue & _)];
          [|discriminate].
        now injection Hfalse as <-.
    - split; [discriminate|].
      intros [(w' & Hfalse & _)|(w' & s2' & rounds & Htrue & _)];
        discriminate. }
  split; [exact Hiff|].
  intros Hrun. apply Hiff in Hrun.
  destruct Hrun as [(w & Hfalse & ->)|(w & s2 & rounds & Htrue & Hset & Hlt
                                       & Hpolled)].
  - left. rewrite Hfalse. split; [reflexivity|]. split; [reflexivity|].
    cbn [answered observe trace]. now rewrite <- app_assoc.
  - right. rewrite Htrue. split; [reflexivity|].
    destruct ((fun H => _setup_secondary_viewer_returns cfg _ s2 b H Hset) Hb)
      as [_ Hsec2].
    destruct (polled_trace b rounds s2 s' Hpolled) as [Hself Htr].
    split; [now rewrite Hself|].
    pose proof (_setup_secondary_viewer_no_poll cfg
                  (answered (is_element_visible b channel_player) w
                     (observe (Enter "_watch_kick_stream") s))) as Hquiet.
    rewrite Hset in Hquiet. destruct Hquiet as (setup & Htr2 & Hsetup).
    exists setup, rounds. split; [exact Hlt|]. split; [exact Hsetup|].
    rewrite Htr, Htr2. cbn [answered observe trace].
    rewrite <- !app_assoc. reflexivity.
Qed.

(** ** What [watch_stream] records of a failure *)

Lemma try_except_reraise {A} (m : M W A) (msg : exn -> string) (s : state W) :
  try_except m is_Exception (fun e => logger_error (msg e) ;; raise e) s =
  match m s with
  | Raises e s1 =>
      if is_Exception e then Raises e (observe (Log "ERROR" (msg e)) s1)
      else Raises e s1
  | o => o
  end.
Proof.
  unfold try_except. destruct (m s) as [v s1|e s1|]; reflexivity.
Qed.

Ltac viewing_side :=
  intros;
  first [ apply emitting_observe | apply emitting_answered
        | apply emitting_time_sleep | apply emitting_with_self ];
  reflexivity.

Lemma _cleanup_no_viewing_error :
  respects False (emitting no_viewing_error) (_cleanup env).
Proof. respects_with fail viewing_side. Qed.

Lemma viewing_error_tally (e : exn) : tally is_viewing_error [viewing_error e] = 1%nat.
Proof.
  rewrite tally_one. unfold viewing_error, is_viewing_error.
  replace (String.prefix "Error during stream viewing: "
             ("Error during stream viewing: " ++ str e)) with true;
    [reflexivity|].
  symmetry. apply prefix_app. now exists (str e).
Qed.

Lemma watch_stream_try_logs (fuel : nat) (cfg : StreamPlatformConfig)
    (s : state W) :
  match watch_stream_try env fuel cfg s with
  | Returns _ s1 =>
      exists evs,
        trace s1 = (trace s ++ evs)%list /\ Forall no_viewing_error evs
  | Raises e s1 =>
      exists evs,
        Forall no_viewing_error evs /\
        trace s1 =
          (trace s ++ evs
             ++ if is_Exception e then [viewing_error e] else [])%list
  | Diverges => True
  end.
Proof.
  unfold watch_stream_try. rewrite try_except_reraise.
  match goal with
  | |- context [with_SB env true true ?m] =>
      assert (Hbody : respects True (emitting no_viewing_error)
                        (with_SB env true true m))
        by respects_with fail viewing_side;
      specialize (Hbody s);
      destruct (with_SB env true true m s) as [[] s1|e s1|]; trivial
  end.
  destruct Hbody as (evs & Htr & Hevs).
  destruct (is_Exception e) eqn:He; cbv beta iota; rewrite He; exists evs;
    (split; [exact Hevs|]).
  - cbn [observe trace]. rewrite Htr. now rewrite <- app_assoc.
  - now rewrite app_nil_r.
Qed.

(** X11.  What [watch_stream] writes to the log about a failure.  When it
    returns, it has logged no "Error during stream viewing".  When it
    raises, either the exception was raised by [_cleanup], run in the
    state the [try] block ended in, or it is the exception of the [try]
    block: if that is an [Exception], its text was logged exactly once
    during the call, as "Error during stream viewing: ..."; if it is no
    [Exception] (KeyboardInterrupt, SystemExit), nothing was logged about
    it. *)
Theorem watch_stream_logs_failures (fuel : nat) (cfg : StreamPlatformConfig)
    (s : state W) :
  match watch_stream env fuel cfg s with
  | Returns _ s' =>
      exists evs,
        trace s' = (trace s ++ evs)%list /\ Forall no_viewing_error evs
  | Raises e s' =>
      (exists s1,
         final (watch_stream_try env fuel cfg (observe (Enter "watch_stream") s))
           = Some s1 /\
         _cleanup env s1 = Raises e s') \/
      (exists s1 evs,
         watch_stream_try env fuel cfg (observe (Enter "watch_stream") s)
           = Raises e s1 /\
         trace s' = (trace s ++ evs)%list /\
         if is_Exception e then
           tally is_viewing_error evs = 1%nat /\
           In (Log "ERROR" ("Error during stream viewing: " ++ str e)) evs
         else Forall no_viewing_error evs)
  | Diverges => True
  end.
Proof.
  unfold watch_stream. rewrite def_run. unfold try_finally.
  pose proof (watch_stream_try_logs fuel cfg (observe (Enter "watch_stream") s))
    as Htry.
  destruct (watch_stream_try env fuel cfg (observe (Enter "watch_stream") s))
    as [[] s1|e s1|]; trivial;
    pose proof (_cleanup_no_viewing_error s1) as Hfin;
    destruct (_cleanup env s1) as [[] s2|e2 s2|] eqn:Hrun; try contradiction;
    try (left; exists s1; split; [reflexivity | exact Hrun]).
  - destruct Htry as (evs1 & Htr1 & Hevs1).
    destruct Hfin as (evs2 & Htr2 & Hevs2).
    exists (Enter "watch_stream" :: evs1 ++ evs2)%list. split.
    + rewrite Htr2, Htr1. cbn [observe trace].
      rewrite <- !app_assoc. reflexivity.
    + constructor; [reflexivity|]. apply Forall_app. now split.
  - right. destruct Htry as (evs1 & Hevs1 & Htr1).
    destruct Hfin as (evs2 & Htr2 & Hevs2).
    exists s1,
      (Enter "watch_stream" :: evs1
         ++ (if is_Exception e then [viewing_error e] else []) ++ evs2)%list.
    split; [reflexivity|]. split.
    { rewrite Htr2, Htr1. cbn [observe trace].
      rewrite <- !app_assoc. reflexivity. }
    destruct (is_Exception e).
    + split.
      * change (Enter "watch_stream" :: evs1 ++ [viewing_error e] ++ evs2)%list
          with ([Enter "watch_stream"] ++ evs1 ++ [viewing_error e]
                  ++ evs2)%list.
        rewrite !tally_app, viewing_error_tally,
          (tally_none is_viewing_error evs1 Hevs1),
          (tally_none is_viewing_error evs2 Hevs2).
        reflexivity.
      * right. apply in_or_app. right. left. reflexivity.
    + constructor; [reflexivity|]. apply Forall_app. now split.
Qed.

(** ** Releasing the secondary session *)

Lemma with_SB_exits (uc test : bool) (body : M W unit) :
  respects True keeps_browser body ->
  respects True (emitting (fun _ => True)) body ->
  forall s,
    match with_SB env uc test body s with
    | Returns _ s' | Raises _ s' =>
        self s' = self s \/
        exists sb raised evs,
          browser (self s') = Some sb /\
          trace s' = (trace s ++ evs)%list /\
          In (Call (SB_exit sb raised)) evs
    | Diverges => True
    end.
Proof.
  intros Hkeep Hgrow s. unfold with_SB. unfold bind at 1.
  rewrite extern_answer.
  destruct (fst (respond env (SB uc test) (world s))) as [sb|e];
    [|left; reflexivity].
  unfold bind at 1, set_browser, bind at 1, get_self, set_self, with_statement.
  match goal with
  | |- context [body ?sB] =>
      specialize (Hkeep sB); specialize (Hgrow sB);
      destruct (body sB) as [[] s1|e s1|]; trivial;
      destruct Hgrow as (evs & Htr & _);
      rewrite extern_answer
  end.
  - destruct (fst (respond env (SB_exit sb None) (world s1))) as [v|e'];
      right;
      exists sb, None, (Call (SB uc test) :: evs ++ [Call (SB_exit sb None)])%list;
      (split; [exact Hkeep|]);
      (split; [cbn [answered trace]; rewrite Htr; cbn [answered trace];
               rewrite <- !app_assoc; reflexivity
              | right; apply in_or_app; right; left; reflexivity]).
  - destruct (fst (respond env (SB_exit sb (Some e)) (world s1)))
      as [[|]|e'];
      right;
      exists sb, (Some e),
        (Call (SB uc test) :: evs ++ [Call (SB_exit sb (Some e))])%list;
      (split; [exact Hkeep|]);
      (split; [cbn [answered trace]; rewrite Htr; cbn [answered trace];
               rewrite <- !app_assoc; reflexivity
              | right; apply in_or_app; right; left; reflexivity]).
Qed.

Lemma watch_stream_try_exits (fuel : nat) (cfg : StreamPlatformConfig)
    (s : state W) :
  match watch_stream_try env fuel cfg s with
  | Returns _ s' | Raises _ s' =>
      self s' = self s \/
      exists sb raised evs,
        browser (self s') = Some sb /\
        trace s' = (trace s ++ evs)%list /\
        In (Call (SB_exit sb raised)) evs
  | Diverges => True
  end.
Proof.
  unfold watch_stream_try. rewrite try_except_reraise.
  match goal with
  | |- context [with_SB env true true ?m] =>
      assert (Hkeep : respects True keeps_browser m)
        by respects_with keeps_browser_special keeps_side;
      assert (Hgrow : respects True (emitting (fun _ => True)) m)
        by emitting_tac;
      pose proof (with_SB_exits true true m Hkeep Hgrow s) as H;
      destruct (with_SB env true true m s) as [[] s1|e s1|]; trivial
  end.
  destruct (is_Exception e); [|exact H].
  destruct H as [H|(sb & raised & evs & Hb & Htr & Hin)]; [left; exact H|].
  right.
  exists sb, raised,
    (evs ++ [Log "ERROR" ("Error during stream viewing: " ++ str e)])%list.
  split; [exact Hb|]. split.
  - cbn [observe trace]. rewrite Htr. now rewrite <- app_assoc.
  - apply in_or_app. now left.
Qed.

Lemma watch_stream_try_no_release (fuel : nat) (cfg : StreamPlatformConfig) :
  respects True (emitting no_release) (watch_stream_try env fuel cfg).
Proof. emitting_tac. Qed.

Lemma watch_stream_try_set_only_by_setup (fuel : nat)
    (cfg : StreamPlatformConfig) :
  respects True set_only_by_setup (watch_stream_try env fuel cfg).
Proof. setup_tac. Qed.

Lemma watch_stream_try_session (fuel : nat) (cfg : StreamPlatformConfig)
    (s : state W) :
  secondary_browser (self s) = None ->
  match watch_stream_try env fuel cfg s with
  | Returns _ s1 | Raises _ s1 =>
      exists session,
        trace s1 = (trace s ++ session)%list /\
        Forall no_release session /\
        (secondary_browser (self s1) = None \/
         exists sb raised,
           browser (self s1) = Some sb /\
           In (Call (SB_exit sb raised)) session /\
           In (Enter "_setup_secondary_viewer") session)
  | Diverges => True
  end.
Proof.
  intros Hsec.
  pose proof (watch_stream_try_no_release fuel cfg s) as Hrel.
  pose proof (watch_stream_try_set_only_by_setup fuel cfg s) as Hset.
  pose proof (watch_stream_try_exits fuel cfg s) as Hexit.
  destruct (watch_stream_try env fuel cfg s) as [[] s1|e s1|]; trivial;
    destruct Hrel as (session & Htr & Hsession); exists session;
    (split; [exact Htr|]); (split; [exact Hsession|]);
    destruct Hset as (evs & Htr' & [Hsame|[Hnone|Hsetup]]);
    try (left; congruence);
    (destruct Hexit as [Hself|(sb & raised & evs' & Hb & Htr'' & Hin)];
     [left; now rewrite Hself|]);
    right; exists sb, raised;
    rewrite Htr in Htr', Htr'';
    apply app_inv_head in Htr'; apply app_inv_head in Htr'';
    subst evs evs'; now repeat split.
Qed.

Lemma _cleanup_with_secondary (s : state W) (sb d : handle) :
  browser (self s) = Some sb ->
  secondary_browser (self s) = Some d ->
  match _cleanup env s with
  | Returns _ s' | Raises _ s' =>
      trace s' =
        (trace s ++ [Enter "_cleanup"; Call (quit_extra_driver sb)])%list
  | Diverges => False
  end.
Proof.
  intros Hb Hsec. unfold _cleanup. rewrite def_run.
  unfold bind at 1, get_self. cbn [observe self]. rewrite Hsec.
  unfold bind at 1.
  rewrite (self_browser_run "quit_extra_driver" sb) by exact Hb.
  unfold bind at 1. rewrite extern_answer.
  destruct (fst (respond env (quit_extra_driver sb) _)) as [[]|e];
    cbn; now rewrite <- app_assoc.
Qed.

(** X12.  In a call of [watch_stream] that starts without a secondary
    session and ends, the extra driver is released at most once, and only
    by [_cleanup]: nothing before the entry of [_cleanup] calls
    [quit_extra_driver], and after that entry there is either nothing
    (there was nothing to release) or exactly one [quit_extra_driver].
    That call is made on the [SB] object of the session, after the [with]
    block around that object has been left (whatever the block had
    raised), and only when [_setup_secondary_viewer] was entered during
    the session. *)
Theorem watch_stream_release_order (fuel : nat) (cfg : StreamPlatformConfig)
    (s : state W) :
  secondary_browser (self s) = None ->
  match watch_stream env fuel cfg s with
  | Returns _ s' | Raises _ s' =>
      exists session release,
        trace s' =
          (trace s ++ Enter "watch_stream" :: session
             ++ Enter "_cleanup" :: release)%list /\
        Forall no_release session /\
        (release = [] \/
         exists sb raised,
           release = [Call (quit_extra_driver sb)] /\
           In (Call (SB_exit sb raised)) session /\
           In (Enter "_setup_secondary_viewer") session)
  | Diverges => True
  end.
Proof.
  intros Hsec. unfold watch_stream. rewrite def_run. unfold try_finally.
  pose proof (watch_stream_try_session fuel cfg
                (observe (Enter "watch_stream") s) Hsec) as Htry.
  destruct (watch_stream_try env fuel cfg (observe (Enter "watch_stream") s))
    as [[] s1|e s1|]; trivial;
    destruct Htry as (session & Htr & Hsession & Hcase);
    (destruct (secondary_browser (self s1)) as [d|] eqn:Hsec1;
     [ destruct Hcase as [Hnone|(sb & raised & Hb & Hexit & Hsetup)];
       [discriminate|];
       pose proof (_cleanup_with_secondary s1 sb d Hb Hsec1) as Hfin;
       destruct (_cleanup env s1) as [[] s2|e2 s2|]; [| |contradiction];
       exists session, [Call (quit_extra_driver sb)];
       (split; [rewrite Hfin, Htr; cbn [observe trace];
                rewrite <- !app_assoc; reflexivity|]);
       (split; [exact Hsession|]);
       right; exists sb, raised; now repeat split
     | rewrite (_cleanup_again s1 Hsec1);
       exists session, [];
       (split; [cbn [observe trace]; rewrite Htr; cbn [observe trace];
                rewrite <- !app_assoc; reflexivity|]);
       (split; [exact Hsession|]);
       now left ]).
Qed.

(** X13.  When the browser cannot be started, that is when [SB(...)]
    raises, and there is no secondary session, [watch_stream] raises that
    same exception after having done nothing else: no page is opened, the
    exception is logged once if it is an [Exception], [_cleanup] finds
    nothing to release, and the viewer object is as it was. *)
Theorem watch_stream_browser_start_fails (fuel : nat)
    (cfg : StreamPlatformConfig) (s : state W) (e : exn) (w : W) :
  respond env (SB true true) (world s) = (inr e, w) ->
  secondary_browser (self s) = None ->
  watch_stream env fuel cfg s =
  Raises e
    {| world := w; self := self s;
       trace :=
         (trace s ++
          [Enter "watch_stream"; Call (SB true true)] ++
          (if is_Exception e
           then [Log "ERROR" ("Error during stream viewing: " ++ str e)]
           else []) ++
          [Enter "_cleanup"])%list |}.
Proof.
  intros Hsb Hsec. unfold watch_stream. rewrite def_run.
  unfold try_finally, watch_stream_try. rewrite try_except_reraise.
  unfold with_SB. unfold bind at 1. rewrite extern_answer.
  cbn [observe world]. rewrite Hsb. cbn [fst snd].
  destruct (is_Exception e);
    rewrite _cleanup_again by exact Hsec;
    unfold observe, answered; cbn [world self trace];
    rewrite <- !app_assoc; reflexivity.
Qed.

(** ** Which exceptions leave [main] *)

Section Throws.

Variable P : exn -> Prop.

Lemma throws_ret {A} (v : A) : throws P (@ret W A v).
Proof. intros s e s' H. discriminate H. Qed.

Lemma throws_raise {A} (e : exn) : P e -> throws P (@raise W A e).
Proof. intros He s e' s' [= <- _]. exact He. Qed.

Lemma throws_get_self : throws P (@get_self W).
Proof. intros s e s' H. discriminate H. Qed.

Lemma throws_set_self (v : StreamViewer) : throws P (@set_self W v).
Proof. intros s e s' H. discriminate H. Qed.

Lemma throws_emit (ev : event) : throws P (@emit W ev).
Proof. intros s e s' H. discriminate H. Qed.

Lemma throws_bind {A B} (m : M W A) (k : A -> M W B) :
  throws P m -> (forall v, throws P (k v)) -> throws P (bind m k).
Proof.
  intros Hm Hk s e s'. unfold bind.
  destruct (m s) as [v s1|e1 s1|] eqn:Hrun; [| |discriminate].
  - apply Hk.
  - intros [= <- _]. exact (Hm s e1 s1 Hrun).
Qed.

Lemma throws_def {A} (name : string) (body : M W A) :
  throws P body -> throws P (def name body).
Proof. intros Hbody. apply throws_bind; [apply throws_emit | now intros _]. Qed.

Lemma throws_try_except {A} (m : M W A) (catches : exn -> bool)
    (handler : exn -> M W A) :
  throws P m -> (forall e, P e -> throws P (handler e)) ->
  throws P (try_except m catches handler).
Proof.
  intros Hm Hh s e s'. unfold try_except.
  destruct (m s) as [v s1|e1 s1|] eqn:Hrun; [discriminate| |discriminate].
  pose proof (Hm s e1 s1 Hrun) as He1.
  destruct (catches e1); [apply Hh; exact He1 | intros [= <- _]; exact He1].
Qed.

Lemma throws_try_finally {A} (m : M W A) (fin : M W unit) :
  throws P m -> throws P fin -> throws P (try_finally m fin).
Proof.
  intros Hm Hfin s e s'. unfold try_finally.
  destruct (m s) as [v s1|e1 s1|] eqn:Hrun; [| |discriminate];
    destruct (fin s1) as [u s2|e2 s2|] eqn:Hrun2; try discriminate;
    intros [= <- _];
    first [exact (Hfin s1 _ s2 Hrun2) | exact (Hm s _ s1 Hrun)].
Qed.

Lemma throws_with_statement (exit : option exn -> M W bool)
    (body : M W unit) :
  throws P body -> (forall raised, throws P (exit raised)) ->
  throws P (with_statement exit body).
Proof.
  intros Hbody Hexit s e s'. unfold with_statement.
  destruct (body s) as [v s1|e1 s1|] eqn:Hrun; [| |discriminate].
  - destruct (exit None s1) as [u s2|e2 s2|] eqn:Hrun2; try discriminate.
    intros [= <- _]. exact (Hexit None s1 _ s2 Hrun2).
  - destruct (exit (Some e1) s1) as [[|] s2|e2 s2|] eqn:Hrun2;
      try discriminate; intros [= <- _].
    + exact (Hbody s _ s1 Hrun).
    + exact (Hexit (Some e1) s1 _ s2 Hrun2).
Qed.

Lemma throws_extern {T} (c : call T) :
  (forall w e, fst (respond env c w) = inr e -> P e) ->
  throws P (extern env c).
Proof.
  intros Hlib s e s'. rewrite extern_answer.
  destruct (fst (respond env c (world s))) as [v|e1] eqn:Hanswer;
    [discriminate|].
  intros [= <- _]. exact (Hlib (world s) e1 Hanswer).
Qed.

End Throws.

(** Whatever it retries, tenacity's loop raises its own [RetryError], an
    exception that is no [Exception], or what [time.sleep] raises: never
    a [StreamViewerException]. *)
Lemma throws_retry {A} (mx : Z) (wait : Z -> Z) (fn : M W A) :
  throws not_StreamViewerException (retry env mx wait fn).
Proof.
  unfold retry. generalize 1 as n. intros n.
  remember (Z.to_nat (mx - n)) as k eqn:Hk.
  revert n Hk. induction k as [|k IH]; intros n Hk s e s';
    rewrite Retrying_turn;
    destruct (fn s) as [v s1|e1 s1|]; try discriminate;
    (destruct (is_Exception e1) eqn:He1;
     [|intros [= <- _]; now destruct e1]);
    (destruct (stop_after_attempt mx n) as [Hstop|Hgo];
     [intros [= <- _]; reflexivity|]);
    try lia.
  unfold time_sleep.
  destruct (sleep_refusal (wait n)) as [e2|] eqn:Hrefusal.
  - intros [= <- _]. exact (proj2 (sleep_refusal_is_Exception _ _ Hrefusal)).
  - apply (IH (n + 1)). lia.
Qed.

Section Libraries.

Hypothesis Hlib : libraries_raise_their_own env.

Lemma throws_self_browser (method : string) :
  throws not_StreamViewerException (@self_browser W method).
Proof.
  unfold self_browser. apply throws_bind; [apply throws_get_self|].
  intros v. destruct (browser v);
    [apply throws_ret | apply throws_raise; reflexivity].
Qed.

Lemma throws_library {T} (c : call T) :
  throws not_StreamViewerException (extern env c).
Proof. apply throws_extern. intros w e. apply (proj1 Hlib). Qed.

Lemma throws_stream_url (cfg : StreamPlatformConfig) :
  throws not_StreamViewerException (stream_url env cfg).
Proof.
  intros s e s'. rewrite stream_url_run.
  destruct (urljoin env (base_url cfg) (username cfg)) as [joined|e1] eqn:Hjoin;
    [discriminate|].
  intros [= <- _]. exact (proj2 Hlib _ _ _ Hjoin).
Qed.

Lemma throws_while_player_visible (fuel : nat) :
  throws not_StreamViewerException (while_player_visible env fuel).
Proof.
  induction fuel as [|fuel IH]; [intros s e s' H; discriminate H|].
  cbn [while_player_visible].
  apply throws_bind; [apply throws_self_browser|]. intros b.
  apply throws_bind; [apply throws_library|]. intros [|];
    [|apply throws_ret].
  apply throws_bind; [apply throws_self_browser|]. intros b'.
  apply throws_bind; [apply throws_library|]. intros _. exact IH.
Qed.

Ltac throws_tac :=
  repeat
    lazymatch goal with
    | |- throws _ (ret _) => apply throws_ret
    | |- throws _ (raise _) =>
        apply throws_raise; first [assumption | reflexivity]
    | |- throws _ get_self => apply throws_get_self
    | |- throws _ (set_self _) => apply throws_set_self
    | |- throws _ (emit _) => apply throws_emit
    | |- throws _ (self_browser _) => apply throws_self_browser
    | |- throws _ (extern _ _) => apply throws_library
    | |- throws _ (stream_url _ _) => apply throws_stream_url
    | |- throws _ (retry _ _ _ _) => apply throws_retry
    | |- throws _ (while_player_visible _ _) =>
        apply throws_while_player_visible
    | |- throws _ (def _ _) => apply throws_def
    | |- throws _ (bind _ _) => apply throws_bind; [|intro]
    | |- throws _ (try_except _ _ _) =>
        apply throws_try_except; [|intros ? ?]
    | |- throws _ (try_finally _ _) => apply throws_try_finally
    | |- throws _ (with_statement _ _) =>
        apply throws_with_statement; [|intro]
    | |- throws _ (if ?b then _ else _) => destruct b
    | |- throws _ (match ?x with _ => _ end) => destruct x
    | |- throws _ (let _ := _ in _) => cbv zeta
    | |- throws _ _ =>
        progress unfold
          logger_info, logger_error, set_browser, set_secondary_browser,
          retry_on_exception, check_twitch_stream,
          handle_captcha_and_consent, _initialize_stream_viewing,
          _setup_secondary_viewer, _watch_kick_stream, _watch_twitch_stream,
          _cleanup, with_SB, watch_stream_try, watch_stream, main_try
    end.

Lemma throws_main_try (fuel : nat) :
  throws not_StreamViewerException (main_try env fuel).
Proof. throws_tac. Qed.

End Libraries.

(** C7.  [main] first runs [watch_stream] on the kick target; when that
    returns it makes a liveness check of its own for the twitch target and
    runs [watch_stream] on the twitch target exactly when the check
    answers true.  An exception raised by a [watch_stream] step ends the
    sequence; it is logged and swallowed, [main] returning normally, when
    it is a [StreamViewerException], and it propagates otherwise.  An
    exception raised by the liveness check is never a
    [StreamViewerException] and always leaves [main]: when the operation
    under the decorator fails at each of the three attempts, the domain
    error "Failed after 3 attempts" reaches [main] only as the last
    attempt held by tenacity's [RetryError], which the [except] clause of
    [main] does not catch. *)
Theorem main_sequence_and_check_failures (fuel : nat) (s : state W) :
  (forall e s1,
     watch_stream env fuel kick_config (main_start s) = Raises e s1 ->
     main env fuel s =
     if is_StreamViewerException e then
       Returns tt
         (observe (Log "ERROR" ("Stream viewing failed: " ++ str e)) s1)
     else Raises e s1) /\
  (forall s1,
     watch_stream env fuel kick_config (main_start s) = Returns tt s1 ->
     (forall e s2,
        check_twitch_stream env "brutalles" TwitchConfig_default s1
          = Raises e s2 ->
        is_StreamViewerException e = false /\
        main env fuel s = Raises e s2) /\
     (always_fails "check_twitch_stream"
        (check_twitch_stream_body env "brutalles" TwitchConfig_default) ->
      exists e s2 s3,
        check_twitch_stream_body env "brutalles" TwitchConfig_default s2
          = Raises e s3 /\
        is_Exception e = true /\
        main env fuel s =
        Raises
          (RetryError (future_addr_of env (world s3)) 3
             (StreamViewerException
                ("Failed after 3 attempts: " ++ str e)))
          (observe (Log "ERROR" ("Error in check_twitch_stream: " ++ str e))
             s3)) /\
     (forall s2,
        check_twitch_stream env "brutalles" TwitchConfig_default s1
          = Returns false s2 ->
        main env fuel s = Returns tt s2) /\
     (forall s2,
        check_twitch_stream env "brutalles" TwitchConfig_default s1
          = Returns true s2 ->
        main env fuel s =
        match watch_stream env fuel twitch_config s2 with
        | Returns _ s3 => Returns tt s3
        | Raises e s3 =>
            if is_StreamViewerException e then
              Returns tt
                (observe (Log "ERROR" ("Stream viewing failed: " ++ str e))
                   s3)
            else Raises e s3
        | Diverges => Diverges
        end)).
Proof.
  assert (Hescapes : forall e s1 s2,
            check_twitch_stream env "brutalles" TwitchConfig_default s1
              = Raises e s2 ->
            is_StreamViewerException e = false).
  { intros e s1 s2 Hcheck.
    exact (throws_retry 3 (retry_wait 2) _ s1 e s2 Hcheck). }
  split.
  - intros e s1 Hkick. rewrite main_run. unfold main_try, bind.
    now rewrite Hkick.
  - intros s1 Hkick. split; [|split; [|split]].
    + intros e s2 Hcheck. split; [exact (Hescapes e s1 s2 Hcheck)|].
      rewrite main_run. unfold main_try, bind.
      cbv zeta. cbn [username twitch_config]. rewrite Hkick, Hcheck.
      unfold top_level. now rewrite (Hescapes e s1 s2 Hcheck).
    + intros Hfail.
      destruct (Retrying_fails 3 2 "check_twitch_stream" _ Hfail 2%nat 1 s1
                  eq_refl)
        as (e & s2 & s3 & j & Hf & Hj & _ & _ & _ & [[_ Hrun]|[Hlt [Hno _]]]).
      * exists e, s2, s3. split; [exact Hf|].
        destruct (Hfail s2) as (e' & s3' & Hf' & He' & _).
        rewrite Hf in Hf'. injection Hf' as <- <-.
        split; [exact He'|].
        assert (Hcheck : check_twitch_stream env "brutalles"
                           TwitchConfig_default s1
                         = Raises
                             (RetryError (future_addr_of env (world s3)) 3
                                (failed_after 3 e))
                             (observe (error_in "check_twitch_stream" e) s3))
          by exact Hrun.
        rewrite main_run. unfold main_try, bind.
        cbv zeta. cbn [username twitch_config]. rewrite Hkick, Hcheck.
        reflexivity.
      * exfalso. apply Hno. unfold sleepable.
        assert (Hj' : j = 0%nat \/ j = 1%nat) by lia.
        destruct Hj' as [-> | ->]; vm_compute; split; congruence.
    + intros s2 Hcheck. rewrite main_run. unfold main_try, bind.
      cbv zeta. cbn [username twitch_config]. now rewrite Hkick, Hcheck.
    + intros s2 Hcheck. rewrite main_run. unfold main_try, bind.
      cbv zeta. cbn [username twitch_config]. rewrite Hkick, Hcheck.
      destruct (watch_stream env fuel twitch_config s2) as [[] s3|e s3|];
        reflexivity.
Qed.

(** X14.  As long as no call into requests or SeleniumBase, nor
    [urljoin], raises a [StreamViewerException] of its own, nothing that the [try] block of
    [main] raises is a [StreamViewerException]: the one the script makes,
    in the wrapper of [retry_on_exception], reaches [main] only inside
    tenacity's [RetryError].  So the [except StreamViewerException] clause
    of [main] never runs: [main] returns when its [try] block returns, and
    every exception of the block leaves [main] as it is, with no "Stream
    viewing failed" in the log. *)
Theorem main_except_clause_never_fires (fuel : nat) (s : state W) :
  libraries_raise_their_own env ->
  main env fuel s =
    match main_try env fuel (main_start s) with
    | Returns _ s1 => Returns tt s1
    | Raises e s1 => Raises e s1
    | Diverges => Diverges
    end /\
  (forall e s1,
     main_try env fuel (main_start s) = Raises e s1 ->
     is_StreamViewerException e = false).
Proof.
  intros Hlib.
  pose proof (throws_main_try Hlib fuel (main_start s)) as Hthrows.
  split; [|exact Hthrows].
  rewrite main_run.
  destruct (main_try env fuel (main_start s)) as [[] s1|e s1|];
    try reflexivity.
  unfold top_level. now rewrite (Hthrows e s1 eq_refl).
Qed.

(** ** Operations that leave the retry bookkeeping alone *)

Lemma naps_none (evs : list event) :
  Forall (fun ev => naps [ev] = []) evs -> naps evs = [].
Proof.
  induction 1 as [|ev evs Hev _ IH]; [reflexivity|].
  change (ev :: evs) with ([ev] ++ evs)%list. now rewrite naps_app, Hev, IH.
Qed.

Lemma emitting_quiet {A} (name : string) (func : M W A) :
  respects True
    (emitting (fun ev => is_enter name ev = false /\ naps [ev] = [])) func ->
  quiet name func.
Proof.
  intros Hfunc s. specialize (Hfunc s).
  destruct (func s) as [v s'|e s'|]; trivial;
    destruct Hfunc as (evs & -> & Hevs);
    rewrite entries_app, naps_app;
    rewrite (entries_none name evs), (naps_none evs), app_nil_r;
    try (split; [lia | reflexivity]);
    eapply Forall_impl; try exact Hevs; cbn; tauto.
Qed.

(** The body of [check_twitch_stream] neither enters a function of the
    script nor naps. *)
Lemma check_twitch_stream_body_quiet (username : string) (cfg : TwitchConfig) :
  quiet "check_twitch_stream" (check_twitch_stream_body env username cfg).
Proof. apply emitting_quiet. emitting_tac. Qed.

End Properties.


(** * Concrete runs *)

(** [H : t = v], for [v] the value of the closed computation [t]. *)
Ltac run_to H t :=
  let v := eval vm_compute in t in
  assert (H : t = v) by (vm_compute; reflexivity).

(** ** Retrying *)

Lemma always_boom_always_fails : always_fails (W := nat) "op" always_boom.
Proof.
  intros s. exists (Exception "TimeoutException" "boom"), s.
  repeat split; reflexivity.
Defined.

(** The naps of the defaults, 2 and 4, are naps that [time.sleep] takes. *)
Lemma default_naps_fit :
  forall n, 1 <= n < 3 -> retry_wait 2 n * 10 ^ 9 < 2 ^ 63.
Proof.
  intros n Hn. assert (Hcases : n = 1 \/ n = 2) by lia.
  destruct Hcases as [-> | ->]; vm_compute; reflexivity.
Defined.

(** With the base 2 the naps after the attempts 1 to 33 are taken. *)
Lemma naps_before_34_fit :
  forall n, 1 <= n < 34 -> retry_wait 2 n * 10 ^ 9 < 2 ^ 63.
Proof.
  intros n Hn.
  assert (Hlow : 0 < 2 ^ (n - 1)) by (apply Z.pow_pos_nonneg; lia).
  assert (Hhigh : 2 ^ (n - 1) <= 2 ^ 32) by (apply Z.pow_le_mono_r; lia).
  unfold retry_wait, wait_exponential, MAX_WAIT.
  change (2 ^ 32) with 4294967296 in Hhigh.
  change (2 ^ 62) with 4611686018427387904.
  change (2 ^ 63) with 9223372036854775808.
  change (10 ^ 9) with 1000000000.
  lia.
Defined.

(** The runs of C1 on an operation that raises "boom" each time: with the
    defaults 3 and 2, and with a budget of 65 attempts, where the nap
    after attempt 34 would last 2^34 seconds. *)
Lemma retry_on_exception_exhausted_witness :
  (exists e s0 s1,
     always_boom s0 = Raises e s1 /\
     retry_on_exception (scripted (live_for 0)) 3 2 "op" always_boom start =
       Raises (RetryError (future_addr_of (scripted (live_for 0)) (world s1)) 3
                 (StreamViewerException
                    ("Failed after " ++ str_int 3 ++ " attempts: " ++ str e)))
              (observe (Log "ERROR" ("Error in " ++ "op" ++ ": " ++ str e)) s1) /\
     entries "op" (trace s1) = (entries "op" (trace start) + 3)%nat) /\
  (exists e s0 s1,
     always_boom s0 = Raises e s1 /\
     retry_on_exception (scripted (live_for 0)) 65 2 "op" always_boom start =
       Raises (Exception "OverflowError"
                 "timestamp too large to convert to C _PyTime_t")
              (observe (Log "ERROR" ("Error in " ++ "op" ++ ": " ++ str e)) s1) /\
     entries "op" (trace s1) = (entries "op" (trace start) + 34)%nat).
Proof.
  split.
  - apply (proj1 (retry_on_exception_exhausted nat (scripted (live_for 0)) 3 2
                    "op" always_boom start always_boom_always_fails)).
    exact default_naps_fit.
  - apply (proj2 (retry_on_exception_exhausted nat (scripted (live_for 0)) 65 2
                    "op" always_boom start always_boom_always_fails) 34).
    + lia.
    + exact naps_before_34_fit.
    + vm_compute. discriminate.
Defined.

(** The same run, evaluated: three invocations, naps of 2 and 4, and a
    [RetryError] for the caller. *)
Example retry_on_exception_raises_RetryError :
  retry_on_exception (scripted (live_for 0)) 3 2 "op" always_boom start =
  Raises
    (RetryError "0x7f3a5c0d2e50" 3
       (StreamViewerException "Failed after 3 attempts: boom"))
    {| world := O; self := StreamViewer_init;
       trace := [Enter "op"; Log "ERROR" "Error in op: boom"; TimeSleep 2;
                 Enter "op"; Log "ERROR" "Error in op: boom"; TimeSleep 4;
                 Enter "op"; Log "ERROR" "Error in op: boom"] |}.
Proof. vm_compute. reflexivity. Qed.

(** When the request of the liveness check fails with an exception that is
    not a [RequestException], the [RetryError] escapes [main]: its
    [except StreamViewerException] clause does not apply. *)
Example main_lets_RetryError_escape :
  exists s',
    main (scripted (answering (inr (Exception "LocationParseError"
                                      "Failed to parse: brutalles"))))
      5 start =
    Raises
      (RetryError "0x7f3a5c0d2e50" 3
         (StreamViewerException
            "Failed after 3 attempts: Failed to parse: brutalles"))
      s'.
Proof. eexists. vm_compute. reflexivity. Qed.


(** The delays of that run: 2 after the first attempt, 4 after the
    second. *)
Example retry_on_exception_default_delays :
  exists e s',
    retry_on_exception (scripted (live_for 0)) 3 2 "op" always_boom start
      = Raises e s' /\
    naps (trace s') = [2; 4].
Proof. eexists. eexists. split; vm_compute; reflexivity. Qed.


(** With a budget of 65 attempts and the default base 2, the nap after
    attempt 34 would last 2^34 seconds: [time.sleep] refuses it, and the
    run ends there, after 34 invocations and 33 naps, the last of 2^33
    seconds. *)
Example retry_on_exception_nap_too_long :
  exists s',
    retry_on_exception (scripted (live_for 0)) 65 2 "op" always_boom start
      = Raises (Exception "OverflowError"
                  "timestamp too large to convert to C _PyTime_t") s' /\
    entries "op" (trace s') = 34%nat /\
    length (naps (trace s')) = 33%nat /\
    nth_error (naps (trace s')) 32 = Some (2 * 2 ^ (33 - 1)).
Proof.
  eexists. split; [vm_compute; reflexivity|].
  repeat split; vm_compute; reflexivity.
Qed.

(** ** The liveness check *)

(** An error page that contains the marker: the body has it, the check
    says "not live". *)
Lemma marker_on_error_page_is_not_live :
  exists r w s',
    respond (scripted (answering (inl not_found_page)))
      (liveness_request "brutalles" TwitchConfig_default) (world start)
      = (inl r, w) /\
    occurs_in (live_indicator TwitchConfig_default) (text r) /\
    check_twitch_stream (scripted (answering (inl not_found_page)))
      "brutalles" TwitchConfig_default start = Returns false s'.
Proof.
  exists not_found_page, 1%nat. eexists.
  split; [reflexivity|]. split.
  - apply str_in_occurs. reflexivity.
  - vm_compute. reflexivity.
Qed.

Lemma check_twitch_stream_decides_witness :
  (exists s',
     check_twitch_stream (scripted (answering (inl live_page)))
       "brutalles" TwitchConfig_default start = Returns true s') /\
  (exists s',
     check_twitch_stream (scripted (answering (inl offline_page)))
       "brutalles" TwitchConfig_default start = Returns false s') /\
  (exists s',
     check_twitch_stream
       (scripted (answering (inr (RequestException "ConnectionError"
                                    "Connection refused"))))
       "brutalles" TwitchConfig_default start = Returns false s').
Proof.
  split; [|split].
  - destruct (check_twitch_stream_decides nat
                (scripted (answering (inl live_page)))
                "brutalles" TwitchConfig_default start) as [Hresp _].
    destruct (Hresp live_page 1%nat eq_refl) as (Hlive & _ & _).
    apply Hlive; [reflexivity | apply str_in_occurs; reflexivity].
  - destruct (check_twitch_stream_decides nat
                (scripted (answering (inl offline_page)))
                "brutalles" TwitchConfig_default start) as [Hresp _].
    destruct (Hresp offline_page 1%nat eq_refl) as (_ & Hoff & _).
    apply Hoff. intros Hin. apply str_in_occurs in Hin. discriminate.
  - destruct (check_twitch_stream_decides nat
                (scripted (answering (inr (RequestException "ConnectionError"
                                             "Connection refused"))))
                "brutalles" TwitchConfig_default start) as [_ Herr].
    exact (Herr _ 1%nat eq_refl eq_refl).
Defined.

(** A response that is not a success (status 300) and carries the marker:
    nothing is logged and the check says "live". *)
Lemma multiple_choices_page_is_live :
  exists r w,
    respond (scripted (answering (inl multiple_choices_page)))
      (liveness_request "brutalles" TwitchConfig_default) (world start)
      = (inl r, w) /\
    status_code r = 300 /\
    check_twitch_stream (scripted (answering (inl multiple_choices_page)))
      "brutalles" TwitchConfig_default start =
    Returns true
      {| world := w; self := StreamViewer_init;
         trace := [Enter "check_twitch_stream";
                   Call (liveness_request "brutalles" TwitchConfig_default)]
      |}.
Proof.
  exists multiple_choices_page, 1%nat.
  split; [reflexivity|]. split; [reflexivity|].
  vm_compute. reflexivity.
Qed.

Lemma check_twitch_stream_swallows_witness :
  check_twitch_stream
    (scripted (answering (inr (RequestException "Timeout" "Read timed out"))))
    "brutalles" TwitchConfig_default start =
  Returns false
    {| world := 1%nat; self := StreamViewer_init;
       trace := [Enter "check_twitch_stream";
                 Call (liveness_request "brutalles" TwitchConfig_default);
                 Log "ERROR"
                   "Failed to check Twitch stream status: Read timed out"] |} /\
  exists msg,
    check_twitch_stream (scripted (answering (inl not_found_page)))
      "brutalles" TwitchConfig_default start =
    Returns false
      {| world := 1%nat; self := StreamViewer_init;
         trace := [Enter "check_twitch_stream";
                   Call (liveness_request "brutalles" TwitchConfig_default);
                   Log "ERROR"
                     ("Failed to check Twitch stream status: " ++ msg)] |}.
Proof.
  split.
  - exact (proj1 (check_twitch_stream_swallows nat
                    (scripted (answering (inr (RequestException "Timeout"
                                                 "Read timed out"))))
                    "brutalles" TwitchConfig_default start)
             (RequestException "Timeout" "Read timed out") 1%nat
             eq_refl eq_refl).
  - apply (proj2 (check_twitch_stream_swallows nat
                    (scripted (answering (inl not_found_page)))
                    "brutalles" TwitchConfig_default start)
             not_found_page 1%nat eq_refl).
    cbn. lia.
Defined.

(** ** Sessions *)

Lemma consent_clicked_iff_present_witness :
  trace settled =
    (trace start ++
     [Enter "handle_captcha_and_consent"; Call (sleep 1%nat 1);
      Call (uc_gui_click_captcha 1%nat); Call (uc_gui_handle_captcha 1%nat);
      Call (sleep 1%nat 4)])%list /\
  (forall w,
     respond (scripted (live_for 0)) (is_element_present 1%nat accept_button)
       (world settled) = (inl true, w) ->
     exists s',
       final (handle_captcha_and_consent (scripted (live_for 0)) 1%nat 4 start)
         = Some s' /\
       trace s' =
         (trace settled ++
          [Call (is_element_present 1%nat accept_button);
           Call (uc_click 1%nat accept_button 4)])%list) /\
  (forall w,
     respond (scripted (live_for 0)) (is_element_present 1%nat accept_button)
       (world settled) = (inl false, w) ->
     handle_captcha_and_consent (scripted (live_for 0)) 1%nat 4 start =
     Returns tt
       {| world := w; self := self settled;
          trace := (trace settled ++
                    [Call (is_element_present 1%nat accept_button)])%list |}).
Proof.
  apply (consent_clicked_iff_present nat (scripted (live_for 0)) 1%nat 4
           start settled).
  reflexivity.
Defined.

(** An Accept button that is in the page but not visible is clicked all
    the same. *)
Lemma hidden_consent_button_is_clicked :
  exists w s',
    respond (scripted (live_for 0)) (is_element_visible 1%nat accept_button)
      (world settled) = (inl false, w) /\
    respond (scripted (live_for 0)) (is_element_present 1%nat accept_button)
      (world settled) = (inl true, w) /\
    final (handle_captcha_and_consent (scripted (live_for 0)) 1%nat 4 start)
      = Some s' /\
    In (Call (uc_click 1%nat accept_button 4)) (trace s').
Proof.
  exists 5%nat. eexists.
  split; [reflexivity|]. split; [reflexivity|].
  split; [vm_compute; reflexivity|].
  cbn. do 6 right. left. reflexivity.
Qed.

(** The two answers of the page, evaluated: with the button the run ends
    on the click, without it the run ends on the question. *)
Example consent_present_and_absent :
  final (handle_captcha_and_consent (scripted (live_for 0)) 1%nat 4 start) =
  Some {| world := 6%nat; self := StreamViewer_init;
          trace := (trace settled ++
                    [Call (is_element_present 1%nat accept_button);
                     Call (uc_click 1%nat accept_button 4)])%list |} /\
  handle_captcha_and_consent (scripted (answering (inl offline_page)))
    1%nat 4 start =
  Returns tt
    {| world := 5%nat; self := StreamViewer_init;
       trace := (trace settled ++
                 [Call (is_element_present 1%nat accept_button)])%list |}.
Proof. split; vm_compute; reflexivity. Qed.

(** On the twitch target, with the stream live and the player visible
    throughout, [watch_stream] returns right after the secondary session
    is set up: the session is closed and cleaned up without a single
    poll.  On the kick target the same world is polled until the fuel is
    used up. *)
Example twitch_session_ends_at_once :
  (exists s',
     watch_stream (scripted (live_for 1000)) 50 twitch_config start
       = Returns tt s' /\
     entries "_setup_secondary_viewer" (trace s') = 1%nat /\
     existsb polls (trace s') = false /\
     entries "_cleanup" (trace s') = 1%nat) /\
  watch_stream (scripted (live_for 1000)) 50 kick_config start = Diverges.
Proof.
  split; [eexists; split; [vm_compute; reflexivity|]|];
    repeat split; vm_compute; reflexivity.
Qed.

(** On the kick target the player is polled until it is gone: here it is
    seen three times after the set-up, with a ten-unit sleep after each
    sighting. *)
Example kick_session_polls_until_hidden :
  exists s',
    watch_stream (scripted (live_for 30)) 50 kick_config start
      = Returns tt s' /\
    length (filter polls (trace s')) = 16%nat /\
    entries "_cleanup" (trace s') = 1%nat /\
    secondary_browser (self s') = None.
Proof.
  eexists. split; [vm_compute; reflexivity|].
  repeat split; vm_compute; reflexivity.
Qed.

(** When closing the extra driver fails, [watch_stream] raises and the
    secondary handle is still set; a [_cleanup] that follows fails in the
    same way and leaves it set again. *)
Lemma secondary_browser_survives_failed_cleanup :
  exists e s',
    watch_stream (scripted (quit_fails 30)) 50 kick_config start
      = Raises e s' /\
    secondary_browser (self s') = Some 2%nat /\
    exists e2 s2,
      _cleanup (scripted (quit_fails 30)) s' = Raises e2 s2 /\
      secondary_browser (self s2) = Some 2%nat.
Proof.
  eexists. eexists. split; [vm_compute; reflexivity|].
  split; [reflexivity|].
  eexists. eexists. split; [vm_compute; reflexivity | reflexivity].
Qed.

Lemma secondary_browser_lifecycle_witness :
  (exists s',
     _cleanup (scripted (live_for 0)) two_sessions = Returns tt s' /\
     secondary_browser (self s') = None /\
     _cleanup (scripted (live_for 0)) s'
       = Returns tt (observe (Enter "_cleanup") s')) /\
  (exists s',
     watch_stream (scripted (live_for 30)) 50 kick_config start
       = Returns tt s' /\
     secondary_browser (self s') = None).
Proof.
  pose proof (secondary_browser_lifecycle nat (scripted (live_for 0)))
    as (_ & Hclean & _).
  pose proof (secondary_browser_lifecycle nat (scripted (live_for 30)))
    as (_ & _ & Hwatch & _).
  split.
  - eexists. split; [vm_compute; reflexivity|].
    apply (Hclean two_sessions). vm_compute. reflexivity.
  - eexists. split; [vm_compute; reflexivity|].
    apply (Hwatch 50%nat kick_config start). vm_compute. reflexivity.
Defined.

Lemma watch_stream_cleanup_once_witness :
  (exists s',
     watch_stream (scripted (live_for 30)) 50 kick_config start
       = Returns tt s' /\
     entries "_cleanup" (trace s') = S (entries "_cleanup" (trace start))) /\
  watch_stream (scripted (live_for 30)) 0 twitch_config start <> Diverges /\
  watch_stream (scripted (live_for 30)) 60 kick_config start =
  watch_stream (scripted (live_for 30)) 50 kick_config start.
Proof.
  pose proof (watch_stream_cleanup_once nat (scripted (live_for 30)) 50
                kick_config start) as (Honce & _ & _ & Hfuel).
  pose proof (watch_stream_cleanup_once nat (scripted (live_for 30)) 0
                twitch_config start) as (_ & _ & Hends & _).
  run_to Hrun (watch_stream (scripted (live_for 30)) 50 kick_config start).
  split; [|split].
  - rewrite Hrun in Honce. eexists. split; [exact Hrun | exact Honce].
  - apply Hends. reflexivity.
  - apply Hfuel; [lia | rewrite Hrun; discriminate].
Defined.

(** ** The entry point *)

(** With a liveness request that fails each time with an error of
    urllib3, the operation under the decorator always fails. *)
Lemma failing_request_always_fails :
  always_fails "check_twitch_stream"
    (check_twitch_stream_body
       (scripted (answering (inr (Exception "LocationParseError"
                                    "Failed to parse: brutalles"))))
       "brutalles" TwitchConfig_default).
Proof.
  intros s.
  exists (Exception "LocationParseError" "Failed to parse: brutalles"),
    (answered (liveness_request "brutalles" TwitchConfig_default)
       (S (world s)) s).
  split; [reflexivity|]. split; [reflexivity|].
  cbn [answered trace]. rewrite entries_app, naps_app.
  split; [apply Nat.add_0_r | apply app_nil_r].
Defined.

(** Three runs of [main]: the liveness request fails each time with an
    error of urllib3, and the [RetryError] leaves [main]; the stream is
    offline; the stream is live. *)
Lemma main_sequence_and_check_failures_witness :
  (exists e s2 s3 s',
     check_twitch_stream_body
       (scripted (answering (inr (Exception "LocationParseError"
                                    "Failed to parse: brutalles"))))
       "brutalles" TwitchConfig_default s2 = Raises e s3 /\
     is_Exception e = true /\
     main
       (scripted (answering (inr (Exception "LocationParseError"
                                    "Failed to parse: brutalles"))))
       5 start =
     Raises
       (RetryError "0x7f3a5c0d2e50" 3
          (StreamViewerException ("Failed after 3 attempts: " ++ str e)))
       (observe (Log "ERROR" ("Error in check_twitch_stream: " ++ str e))
          s3) /\
     main
       (scripted (answering (inr (Exception "LocationParseError"
                                    "Failed to parse: brutalles"))))
       5 start =
     Raises
       (RetryError "0x7f3a5c0d2e50" 3
          (StreamViewerException
             "Failed after 3 attempts: Failed to parse: brutalles"))
       s') /\
  (exists s2,
     main (scripted (answering (inl offline_page))) 5 start = Returns tt s2) /\
  (exists s3,
     main (scripted (live_for 30)) 50 start = Returns tt s3 /\
     entries "watch_stream" (trace s3) = 2%nat).
Proof.
  split; [|split].
  - destruct (main_sequence_and_check_failures nat
                (scripted (answering (inr (Exception "LocationParseError"
                                             "Failed to parse: brutalles"))))
                5 start)
      as (_ & Hkick).
    run_to Hk (watch_stream
                 (scripted (answering (inr (Exception "LocationParseError"
                                              "Failed to parse: brutalles"))))
                 5 kick_config (main_start start)).
    destruct (Hkick _ Hk) as (_ & Hfails & _).
    destruct (Hfails failing_request_always_fails)
      as (e & s2 & s3 & Hf & He & Hmain).
    exists e, s2, s3. eexists.
    split; [exact Hf|]. split; [exact He|]. split; [exact Hmain|].
    vm_compute. reflexivity.
  - destruct (main_sequence_and_check_failures nat
                (scripted (answering (inl offline_page))) 5 start)
      as (_ & Hkick).
    run_to Hk (watch_stream (scripted (answering (inl offline_page))) 5
                 kick_config (main_start start)).
    destruct (Hkick _ Hk) as (_ & _ & Hoffline & _).
    eexists. apply Hoffline. vm_compute. reflexivity.
  - destruct (main_sequence_and_check_failures nat (scripted (live_for 30)) 50
                start)
      as (_ & Hkick).
    run_to Hk (watch_stream (scripted (live_for 30)) 50 kick_config
                 (main_start start)).
    destruct (Hkick _ Hk) as (_ & _ & _ & Hlive).
    eexists. split.
    + etransitivity; [apply Hlive|]; vm_compute; reflexivity.
    + vm_compute. reflexivity.
Defined.

(** Two configurations for the same user, one of them pointing at another
    site, in a world that answers the live page: both runs make the one
    request to twitch.tv, find the marker and go on to set up the
    secondary session from the same state. *)
Lemma twitch_liveness_ignores_base_url_witness :
  exists s1,
    s1 = {| world := 1%nat; self := StreamViewer_init;
            trace :=
              [Enter "_watch_twitch_stream"; Enter "check_twitch_stream";
               Call (requests_get "https://www.twitch.tv/brutalles"
                       [("Client-ID", "kimne78kx3ncx6brgo4mv6wki5h1ko")]
                       10)] |} /\
    check_twitch_stream (scripted (live_for 0)) "brutalles" TwitchConfig_default
      (observe (Enter "_watch_twitch_stream") start) = Returns true s1 /\
    (_watch_twitch_stream (scripted (live_for 0)) twitch_config start =
     _setup_secondary_viewer (scripted (live_for 0)) twitch_config s1) /\
    (_watch_twitch_stream (scripted (live_for 0))
       {| platform := "twitch"; base_url := "https://example.org/";
          username := "brutalles" |} start =
     _setup_secondary_viewer (scripted (live_for 0))
       {| platform := "twitch"; base_url := "https://example.org/";
          username := "brutalles" |} s1).
Proof.
  destruct (twitch_liveness_ignores_base_url nat (scripted (live_for 0)))
    as (_ & _ & Hmarker & Hsame).
  run_to Hlive (check_twitch_stream (scripted (live_for 0)) "brutalles"
                  TwitchConfig_default
                  (observe (Enter "_watch_twitch_stream") start)).
  eexists. split; [reflexivity|]. split; [exact Hlive|]. split.
  - exact (Hmarker twitch_config start live_page 1%nat eq_refl eq_refl).
  - etransitivity.
    + apply (Hsame twitch_config
               {| platform := "twitch"; base_url := "https://example.org/";
                  username := "brutalles" |} start eq_refl).
      right. reflexivity.
    + match goal with
      | |- match ?check with _ => _ end = _ =>
          change check
            with (check_twitch_stream (scripted (live_for 0)) "brutalles"
                    TwitchConfig_default
                    (observe (Enter "_watch_twitch_stream") start))
      end.
      rewrite Hlive. reflexivity.
Defined.

(** ** The retry decorator around the liveness request *)

(** The request fails twice with an error that is no [RequestException]
    and succeeds the third time: the check answers true, after naps of 2
    and 4 and three requests. *)
Lemma retry_on_exception_recovers_witness :
  exists s',
    check_twitch_stream (flaky 2) "brutalles" TwitchConfig_default start
      = Returns true s' /\
    naps (trace s') = [2; 4] /\
    requests (trace s') = 3%nat.
Proof.
  eexists. split; [|split].
  - unfold check_twitch_stream.
    eapply (retry_on_exception_recovers nat (flaky 2) 3 2
              "check_twitch_stream" _ start [(_, _); (_, _)]).
    + cbn [recovering].
      split; [vm_compute; reflexivity|]. split; [reflexivity|].
      eexists. split; [vm_compute; reflexivity|].
      split; [vm_compute; reflexivity|]. split; [reflexivity|].
      eexists. split; [vm_compute; reflexivity|].
      vm_compute. reflexivity.
    + cbn. lia.
  - vm_compute. reflexivity.
  - vm_compute. reflexivity.
Defined.

(** The request fails once and then succeeds: two invocations, one nap. *)
Lemma retry_on_exception_budget_witness :
  exists s',
    retry_on_exception (flaky 1) 3 2 "check_twitch_stream"
      (check_twitch_stream_body (flaky 1) "brutalles" TwitchConfig_default)
      start = Returns true s' /\
    exists retries : nat,
      Z.of_nat retries < Z.max 1 3 /\
      entries "check_twitch_stream" (trace s') =
        (entries "check_twitch_stream" (trace start) + S retries)%nat /\
      naps (trace s') =
        (naps (trace start)
           ++ map (retry_wait 2) (attempt_numbers 1 retries))%list /\
      Forall (fun d => 0 <= d <= Z.max 2 MAX_WAIT)
        (map (retry_wait 2) (attempt_numbers 1 retries)).
Proof.
  pose proof (retry_on_exception_budget nat (flaky 1) 3 2
                "check_twitch_stream"
                (check_twitch_stream_body (flaky 1) "brutalles"
                   TwitchConfig_default)
                start
                (check_twitch_stream_body_quiet nat (flaky 1) "brutalles"
                   TwitchConfig_default)) as H.
  run_to Hrun (retry_on_exception (flaky 1) 3 2 "check_twitch_stream"
                 (check_twitch_stream_body (flaky 1) "brutalles"
                    TwitchConfig_default) start).
  rewrite Hrun in H. eexists. split; [exact Hrun | exact H].
Defined.

(** ** Sessions, step by step *)

(** Inside a session, the new driver 2 is stored as soon as it exists;
    it stays stored when the address of the stream cannot be built. *)
Lemma setup_secondary_viewer_registers_witness :
  (exists s',
     _setup_secondary_viewer (scripted (live_for 0)) kick_config one_session
       = Returns tt s' /\
     self s' = {| browser := Some 1%nat; secondary_browser := Some 2%nat |} /\
     exists k : nat,
       (k <= 7)%nat /\
       trace s' =
         (trace one_session ++
          [Enter "_setup_secondary_viewer"; Call (get_new_driver 1%nat true);
           Call (uc_open_with_reconnect 2%nat "https://kick.com/brutalles" 5)]
          ++ firstn k (Enter "handle_captcha_and_consent"
                         :: challenge_steps 2%nat 4))%list) /\
  _setup_secondary_viewer refusing_join bracket_config one_session =
  Raises (Exception "ValueError" "Invalid IPv6 URL")
    {| world := 1%nat;
       self := {| browser := Some 1%nat; secondary_browser := Some 2%nat |};
       trace := (trace one_session ++
                 [Enter "_setup_secondary_viewer";
                  Call (get_new_driver 1%nat true)])%list |}.
Proof.
  split.
  - pose proof (proj1 (setup_secondary_viewer_registers nat
                         (scripted (live_for 0)) kick_config one_session 1%nat
                         eq_refl) 2%nat 1%nat eq_refl) as H.
    run_to Hrun (_setup_secondary_viewer (scripted (live_for 0)) kick_config
                   one_session).
    cbn [urljoin scripted] in H.
    rewrite Hrun in H. eexists. split; [exact Hrun | exact H].
  - exact (proj1 (setup_secondary_viewer_registers nat refusing_join
                    bracket_config one_session 1%nat eq_refl)
             2%nat 1%nat eq_refl).
Defined.

(** Opening the kick page inside a session, with an address that cannot
    be built, and outside of a session. *)
Lemma initialize_stream_viewing_steps_witness :
  (exists s',
     _initialize_stream_viewing (scripted (live_for 0)) kick_config one_session
       = Returns tt s' /\
     self s' = self one_session /\
     exists k : nat,
       (5 <= k <= 6)%nat /\
       trace s' =
         (trace one_session ++
          [Enter "_initialize_stream_viewing";
           Call (uc_open_with_reconnect 1%nat "https://kick.com/brutalles" 4);
           Enter "handle_captcha_and_consent"] ++
          firstn k (challenge_steps 1%nat 4))%list) /\
  _initialize_stream_viewing refusing_join bracket_config one_session =
  Raises (Exception "ValueError" "Invalid IPv6 URL")
    {| world := world one_session; self := self one_session;
       trace := (trace one_session
                   ++ [Enter "_initialize_stream_viewing"])%list |} /\
  _initialize_stream_viewing (scripted (live_for 0)) kick_config start =
  Raises
    (Exception "AttributeError"
       "'NoneType' object has no attribute 'uc_open_with_reconnect'")
    {| world := world start; self := self start;
       trace := (trace start ++ [Enter "_initialize_stream_viewing"])%list |}.
Proof.
  split; [|split].
  - pose proof (proj1 (initialize_stream_viewing_steps nat
                         (scripted (live_for 0)) kick_config one_session)
                  1%nat eq_refl) as H.
    run_to Hrun (_initialize_stream_viewing (scripted (live_for 0)) kick_config
                   one_session).
    cbn [urljoin scripted] in H.
    rewrite Hrun in H. eexists. split; [exact Hrun | exact H].
  - exact (proj1 (initialize_stream_viewing_steps nat refusing_join
                    bracket_config one_session) 1%nat eq_refl).
  - exact (proj2 (initialize_stream_viewing_steps nat (scripted (live_for 0))
                    kick_config start) eq_refl).
Defined.

(** A kick session in which the player stays visible for the first thirty
    ticks of the clock: the browser says "visible" at the first test and
    at each test of the loop, and "not visible" at the last one. *)
Lemma watch_kick_stream_shape_witness :
  exists s',
    _watch_kick_stream (scripted (live_for 30)) 50 kick_config one_session
      = Returns tt s' /\
    (exists w s2 rounds,
       respond (scripted (live_for 30))
         (is_element_visible 1%nat channel_player) (world one_session)
         = (inl true, w) /\
       _setup_secondary_viewer (scripted (live_for 30)) kick_config
         (answered (is_element_visible 1%nat channel_player) w
            (observe (Enter "_watch_kick_stream") one_session))
         = Returns tt s2 /\
       (rounds < 50)%nat /\
       polled (scripted (live_for 30)) 1%nat rounds s2 s') /\
    ((fst (respond (scripted (live_for 30))
             (is_element_visible 1%nat channel_player) (world one_session))
        = inl false /\
      self s' = self one_session /\
      trace s' =
        (trace one_session ++
         [Enter "_watch_kick_stream";
          Call (is_element_visible 1%nat channel_player)])%list) \/
     (fst (respond (scripted (live_for 30))
             (is_element_visible 1%nat channel_player) (world one_session))
        = inl true /\
      secondary_browser (self s') <> None /\
      exists (setup : list event) (rounds : nat),
        (rounds < 50)%nat /\
        Forall no_poll setup /\
        trace s' =
          (trace one_session ++
           [Enter "_watch_kick_stream";
            Call (is_element_visible 1%nat channel_player)] ++
           Enter "_setup_secondary_viewer" :: setup ++
           poll_rounds 1%nat rounds ++
           [Call (is_element_visible 1%nat channel_player)])%list)).
Proof.
  run_to Hrun (_watch_kick_stream (scripted (live_for 30)) 50 kick_config
                 one_session).
  match type of Hrun with
  | _ = Returns tt ?s' =>
      pose proof (watch_kick_stream_shape nat (scripted (live_for 30)) 50
                    kick_config one_session s' 1%nat eq_refl)
        as [Hiff Hshape]
  end.
  eexists. split; [exact Hrun|]. split.
  - destruct (proj1 Hiff Hrun) as [(w & Hw & _)|Hpolled];
      [vm_compute in Hw; discriminate Hw | exact Hpolled].
  - exact (Hshape Hrun).
Defined.

(** A platform without a branch: the session is opened and left, whatever
    the fuel. *)
Lemma watch_stream_other_platform_witness :
  exists s',
    watch_stream (scripted (live_for 30)) 0 youtube_config start
      = Returns tt s' /\
    exists evs,
      trace s' = (trace start ++ evs)%list /\ Forall no_watching evs.
Proof.
  pose proof (watch_stream_other_platform nat (scripted (live_for 30)) 0
                youtube_config start
                ltac:(discriminate) ltac:(discriminate)) as H.
  run_to Hrun (watch_stream (scripted (live_for 30)) 0 youtube_config start).
  rewrite Hrun in H. eexists. split; [exact Hrun | exact H].
Defined.

(** A kick session with a secondary viewer: one release, by [_cleanup]. *)
Lemma watch_stream_release_order_witness :
  exists s' session release,
    watch_stream (scripted (live_for 30)) 50 kick_config start
      = Returns tt s' /\
    trace s' =
      (trace start ++ Enter "watch_stream" :: session
         ++ Enter "_cleanup" :: release)%list /\
    Forall no_release session /\
    (release = [] \/
     exists sb raised,
       release = [Call (quit_extra_driver sb)] /\
       In (Call (SB_exit sb raised)) session /\
       In (Enter "_setup_secondary_viewer") session).
Proof.
  pose proof (watch_stream_release_order nat (scripted (live_for 30)) 50
                kick_config start eq_refl) as H.
  run_to Hrun (watch_stream (scripted (live_for 30)) 50 kick_config start).
  rewrite Hrun in H. destruct H as (session & release & H).
  eexists. exists session, release. split; [exact Hrun | exact H].
Defined.

(** The browser does not start. *)
Lemma watch_stream_browser_start_fails_witness :
  watch_stream no_browser 5 kick_config start =
  Raises (Exception "SessionNotCreatedException" "session not created")
    {| world := 1%nat; self := StreamViewer_init;
       trace := [Enter "watch_stream"; Call (SB true true);
                 Log "ERROR"
                   "Error during stream viewing: session not created";
                 Enter "_cleanup"] |}.
Proof.
  exact (watch_stream_browser_start_fails nat no_browser 5 kick_config start
           (Exception "SessionNotCreatedException" "session not created")
           1%nat eq_refl eq_refl).
Defined.

(** ** The entry point and the exceptions of the libraries *)

Lemma answering_raises_its_own (e : exn) :
  is_StreamViewerException e = false ->
  libraries_raise_their_own (scripted (answering (inr e))).
Proof.
  intros He. split.
  - intros R c w e'. destruct c; cbn; intros H; try discriminate H.
    injection H as <-. exact He.
  - intros base name e'. cbn. discriminate.
Defined.

(** The liveness request keeps failing with an error of urllib3: the
    [RetryError] leaves [main]. *)
Lemma main_except_clause_never_fires_witness :
  exists e s1,
    main_try
      (scripted (answering (inr (Exception "LocationParseError"
                                   "Failed to parse: brutalles"))))
      5 (main_start start) = Raises e s1 /\
    is_StreamViewerException e = false /\
    main
      (scripted (answering (inr (Exception "LocationParseError"
                                   "Failed to parse: brutalles"))))
      5 start = Raises e s1.
Proof.
  destruct (main_except_clause_never_fires nat
              (scripted (answering (inr (Exception "LocationParseError"
                                           "Failed to parse: brutalles"))))
              5 start
              (answering_raises_its_own
                 (Exception "LocationParseError" "Failed to parse: brutalles")
                 eq_refl))
    as [Hmain Hnot].
  run_to Hrun (main_try
                 (scripted (answering (inr (Exception "LocationParseError"
                                              "Failed to parse: brutalles"))))
                 5 (main_start start)).
  eexists. eexists. split; [exact Hrun|]. split.
  - exact (Hnot _ _ Hrun).
  - rewrite Hmain, Hrun. reflexivity.
Defined.
